(** * Connectify messaging client: conversation, invite and message flows

    A shallow embedding of the orchestration code of [src/App.tsx]
    (loadConversations, handleInviteJoin, handleCreatePrivateChat,
    handleCreateGroup) and of the chat view (loadMessages, sendMessage),
    together with the properties the specification states about them.

    The handlers are asynchronous functions that talk to a document store,
    read the wall clock, draw random identifiers and set component state.
    They are embedded in a state-and-exception monad over a record that
    holds the store, the environment oracles (clock, random source, store
    faults), the log of store calls and of notifications, and the component
    state. *)

From Stdlib Require Import List String Ascii ZArith NArith Bool Lia Arith.
From Stdlib Require Import DecimalString Sorted.
Import ListNotations.

Local Open Scope string_scope.
Local Open Scope list_scope.
Local Open Scope Z_scope.

(* ================================================================= *)
(** ** JavaScript values used by the handlers *)

Module Js.

(** Strings are UTF-8 byte strings.  [num_to_string] is the decimal
    rendering a template literal gives an integer number. *)
Definition num_to_string (z : Z) : string :=
  NilZero.string_of_int (Z.to_int z).

(** Truthiness of an optional number: [undefined] and [0] are falsy. *)
Definition truthy_num (o : option Z) : bool :=
  match o with
  | Some z => negb (z =? 0)
  | None => false
  end.

(** Truthiness of an optional string: [undefined] and [""] are falsy. *)
Definition truthy_str (o : option string) : bool :=
  match o with
  | Some s => negb (s =? "")%string
  | None => false
  end.

(** Truthiness of an optional boolean. *)
Definition truthy_bool (o : option bool) : bool :=
  match o with
  | Some b => b
  | None => false
  end.

(** [a || b] for an optional string [a] and a string [b]. *)
Definition or_else (a : option string) (b : string) : string :=
  match a with
  | Some s => if (s =? "")%string then b else s
  | None => b
  end.

(** What a template literal prints for an optional string field. *)
Definition template_str (o : option string) : string :=
  match o with
  | Some s => s
  | None => "undefined"
  end.

Definition bytes (l : list nat) : string :=
  string_of_list_ascii (map ascii_of_nat l).

(** The code points that [String.prototype.trim] strips (ECMAScript
    WhiteSpace and LineTerminator), in their UTF-8 encoding. *)
Definition whitespace : list string :=
  map bytes
    [ [9%nat]; [10%nat]; [11%nat]; [12%nat]; [13%nat]; [32%nat];
      [194; 160]%nat;                         (* U+00A0 *)
      [225; 154; 128]%nat;                    (* U+1680 *)
      [226; 128; 128]%nat; [226; 128; 129]%nat; [226; 128; 130]%nat;
      [226; 128; 131]%nat; [226; 128; 132]%nat; [226; 128; 133]%nat;
      [226; 128; 134]%nat; [226; 128; 135]%nat; [226; 128; 136]%nat;
      [226; 128; 137]%nat; [226; 128; 138]%nat; (* U+2000 .. U+200A *)
      [226; 128; 168]%nat; [226; 128; 169]%nat; (* U+2028, U+2029 *)
      [226; 128; 175]%nat;                    (* U+202F *)
      [226; 129; 159]%nat;                    (* U+205F *)
      [227; 128; 128]%nat;                    (* U+3000 *)
      [239; 187; 191]%nat ].                  (* U+FEFF *)

Fixpoint drop_prefix (p s : string) : option string :=
  match p with
  | EmptyString => Some s
  | String a p' =>
      match s with
      | EmptyString => None
      | String b s' => if Ascii.eqb a b then drop_prefix p' s' else None
      end
  end.

Fixpoint drop_first (ps : list string) (s : string) : option string :=
  match ps with
  | [] => None
  | p :: ps' =>
      match drop_prefix p s with
      | Some r => Some r
      | None => drop_first ps' s
      end
  end.

Fixpoint strip (ps : list string) (fuel : nat) (s : string) : string :=
  match fuel with
  | O => s
  | S n =>
      match drop_first ps s with
      | Some r => strip ps n r
      | None => s
      end
  end.

Definition rev_string (s : string) : string :=
  string_of_list_ascii (rev (list_ascii_of_string s)).

Definition trimStart (s : string) : string :=
  strip whitespace (String.length s) s.

Definition trimEnd (s : string) : string :=
  rev_string (strip (map rev_string whitespace) (String.length s) (rev_string s)).

Definition trim (s : string) : string := trimEnd (trimStart s).

(** A string made of whitespace characters only (possibly none). *)
Inductive ws_only : string -> Prop :=
| ws_only_nil : ws_only ""
| ws_only_app p s : In p whitespace -> ws_only s -> ws_only (p ++ s)%string.

End Js.

(* ================================================================= *)
(** ** Data model: the documents of the store *)

Inductive Role := admin | member | guest.
Inductive ConversationType := private | group.
Inductive MessageType := text | file | image.

Definition Role_eqb (a b : Role) : bool :=
  match a, b with
  | admin, admin | member, member | guest, guest => true
  | _, _ => false
  end.

Definition ConversationType_eqb (a b : ConversationType) : bool :=
  match a, b with
  | private, private | group, group => true
  | _, _ => false
  end.

Module User.
Record t := mk {
  id : string;
  email : string;
  displayName : string;
  avatarUrl : option string;
  status : string;
  lastSeen : option Z;
  isGuest : option bool;
  guestName : option string
}.
End User.

Module Conversation.
Record t := mk {
  id : string;
  type : ConversationType;
  name : option string;
  description : option string;
  avatarUrl : option string;
  createdBy : string;
  createdAt : Z;
  updatedAt : Z;
  lastMessageAt : Z
}.
End Conversation.

Module ConversationMember.
Record t := mk {
  id : string;
  conversationId : string;
  userId : string;
  role : Role;
  joinedAt : option Z
}.
End ConversationMember.

Module Message.
Record t := mk {
  id : string;
  conversationId : string;
  userId : string;
  content : option string;
  messageType : MessageType;
  fileUrl : option string;
  fileName : option string;
  fileSize : option Z;
  fileType : option string;
  createdAt : Z
}.
End Message.

Module Invite.
Record t := mk {
  id : string;
  conversationId : string;
  createdBy : string;
  inviteCode : string;
  expiresAt : option Z;
  maxUses : option Z;
  currentUses : Z;
  isActive : bool
}.
End Invite.

(** The joined views the client keeps in component state. *)
Record LastMessage := mkLastMessage {
  lm_content : string;
  lm_senderName : string;
  lm_createdAt : Z
}.

Record ConversationView := mkConversationView {
  cv_conv : Conversation.t;
  cv_lastMessage : option LastMessage;
  cv_members : option (list User.t)
}.

Record MessageView := mkMessageView {
  mv_msg : Message.t;
  mv_user : option User.t
}.

Record Toast := mkToast {
  title : string;
  description : string;
  destructive : bool
}.

(* ================================================================= *)
(** ** The document store *)

Inductive Direction := asc | desc.

Section Query.
Context {A : Type}.

(** [insert_by le x l] puts [x] before the first element it precedes. *)
Fixpoint insert_by (le : A -> A -> bool) (x : A) (l : list A) : list A :=
  match l with
  | [] => [x]
  | y :: l' => if le x y then x :: l else y :: insert_by le x l'
  end.

Fixpoint sort_by (le : A -> A -> bool) (l : list A) : list A :=
  match l with
  | [] => []
  | x :: l' => insert_by le x (sort_by le l')
  end.

Definition key_le (key : A -> Z) (d : Direction) (x y : A) : bool :=
  match d with
  | asc => key x <=? key y
  | desc => key y <=? key x
  end.

Definition order (orderBy : option ((A -> Z) * Direction)) (l : list A)
  : list A :=
  match orderBy with
  | Some (key, d) => sort_by (key_le key d) l
  | None => l
  end.

Definition take_limit (limit : option nat) (l : list A) : list A :=
  match limit with
  | Some n => firstn n l
  | None => l
  end.

(** Modelled from the spec: the store's [list({where, orderBy, limit})]
    is part of the managed backend, which is not in the repository.  It
    returns "an ordered sequence of matching records": the records that
    satisfy [where_], in the requested order, cut at [limit]. *)
Definition select (where_ : A -> bool)
    (orderBy : option ((A -> Z) * Direction)) (limit : option nat)
    (l : list A) : list A :=
  take_limit limit (order orderBy (filter where_ l)).
End Query.

Module Db.
Record t := mk {
  users : list User.t;
  conversations : list Conversation.t;
  conversationMembers : list ConversationMember.t;
  messages : list Message.t;
  invites : list Invite.t
}.

Definition set_conversations (l : list Conversation.t) (d : t) : t :=
  mk (users d) l (conversationMembers d) (messages d) (invites d).
Definition set_conversationMembers (l : list ConversationMember.t) (d : t) : t :=
  mk (users d) (conversations d) l (messages d) (invites d).
Definition set_messages (l : list Message.t) (d : t) : t :=
  mk (users d) (conversations d) (conversationMembers d) l (invites d).
Definition set_invites (l : list Invite.t) (d : t) : t :=
  mk (users d) (conversations d) (conversationMembers d) (messages d) l.
End Db.

Inductive Collection :=
  Users | Conversations | ConversationMembers | Messages | Invites.

(** One entry of the log of store calls. *)
Inductive Call :=
| CallList (c : Collection)
| CallCreate (c : Collection)
| CallCreateMany (c : Collection)
| CallUpdate (c : Collection).

Definition is_read (c : Call) : bool :=
  match c with
  | CallList _ => true
  | _ => false
  end.

(* ================================================================= *)
(** ** Program state and the monad of the handlers *)

Record State := mkState {
  (* the external store *)
  s_db : Db.t;
  (* environment: the clock reads [s_now] advanced by the next tick, the
     random source yields the next suffix, a store call fails when the
     next fault flag is set *)
  s_now : Z;
  s_ticks : list N;
  s_rand : list string;
  s_faults : list bool;
  (* observable logs *)
  s_trace : list Call;
  s_toasts : list Toast;
  (* state of the App component *)
  s_user : option User.t;
  s_conversations : list ConversationView;
  s_selectedConversation : option ConversationView;
  (* state of the chat view *)
  s_messages : list MessageView;
  s_newMessage : string;
  s_loading : bool;
  s_sending : bool
}.

Definition with_db (d : Db.t) (s : State) : State :=
  mkState d (s_now s) (s_ticks s) (s_rand s) (s_faults s) (s_trace s)
    (s_toasts s) (s_user s) (s_conversations s) (s_selectedConversation s)
    (s_messages s) (s_newMessage s) (s_loading s) (s_sending s).

Definition with_clock (n : Z) (t : list N) (s : State) : State :=
  mkState (s_db s) n t (s_rand s) (s_faults s) (s_trace s)
    (s_toasts s) (s_user s) (s_conversations s) (s_selectedConversation s)
    (s_messages s) (s_newMessage s) (s_loading s) (s_sending s).

Definition with_rand (r : list string) (s : State) : State :=
  mkState (s_db s) (s_now s) (s_ticks s) r (s_faults s) (s_trace s)
    (s_toasts s) (s_user s) (s_conversations s) (s_selectedConversation s)
    (s_messages s) (s_newMessage s) (s_loading s) (s_sending s).

Definition with_faults (f : list bool) (s : State) : State :=
  mkState (s_db s) (s_now s) (s_ticks s) (s_rand s) f (s_trace s)
    (s_toasts s) (s_user s) (s_conversations s) (s_selectedConversation s)
    (s_messages s) (s_newMessage s) (s_loading s) (s_sending s).

Definition add_trace (tr : list Call) (s : State) : State :=
  mkState (s_db s) (s_now s) (s_ticks s) (s_rand s) (s_faults s)
    (s_trace s ++ tr)
    (s_toasts s) (s_user s) (s_conversations s) (s_selectedConversation s)
    (s_messages s) (s_newMessage s) (s_loading s) (s_sending s).

Definition add_toast (t : Toast) (s : State) : State :=
  mkState (s_db s) (s_now s) (s_ticks s) (s_rand s) (s_faults s) (s_trace s)
    (s_toasts s ++ [t])
    (s_user s) (s_conversations s) (s_selectedConversation s)
    (s_messages s) (s_newMessage s) (s_loading s) (s_sending s).

Definition with_conversations (l : list ConversationView) (s : State) : State :=
  mkState (s_db s) (s_now s) (s_ticks s) (s_rand s) (s_faults s) (s_trace s)
    (s_toasts s) (s_user s) l (s_selectedConversation s)
    (s_messages s) (s_newMessage s) (s_loading s) (s_sending s).

Definition with_selectedConversation (c : option ConversationView) (s : State)
  : State :=
  mkState (s_db s) (s_now s) (s_ticks s) (s_rand s) (s_faults s) (s_trace s)
    (s_toasts s) (s_user s) (s_conversations s) c
    (s_messages s) (s_newMessage s) (s_loading s) (s_sending s).

Definition with_messages (l : list MessageView) (s : State) : State :=
  mkState (s_db s) (s_now s) (s_ticks s) (s_rand s) (s_faults s) (s_trace s)
    (s_toasts s) (s_user s) (s_conversations s) (s_selectedConversation s)
    l (s_newMessage s) (s_loading s) (s_sending s).

Definition with_newMessage (m : string) (s : State) : State :=
  mkState (s_db s) (s_now s) (s_ticks s) (s_rand s) (s_faults s) (s_trace s)
    (s_toasts s) (s_user s) (s_conversations s) (s_selectedConversation s)
    (s_messages s) m (s_loading s) (s_sending s).

Definition with_loading (b : bool) (s : State) : State :=
  mkState (s_db s) (s_now s) (s_ticks s) (s_rand s) (s_faults s) (s_trace s)
    (s_toasts s) (s_user s) (s_conversations s) (s_selectedConversation s)
    (s_messages s) (s_newMessage s) b (s_sending s).

Definition with_sending (b : bool) (s : State) : State :=
  mkState (s_db s) (s_now s) (s_ticks s) (s_rand s) (s_faults s) (s_trace s)
    (s_toasts s) (s_user s) (s_conversations s) (s_selectedConversation s)
    (s_messages s) (s_newMessage s) (s_loading s) b.

(** The outcome of a computation: a value, or a thrown exception (the
    handlers never look at the exception they catch). *)
Inductive Res (A : Type) :=
| Ok (a : A)
| Throw.
Arguments Ok {A} a.
Arguments Throw {A}.

Definition M (A : Type) : Type := State -> Res A * State.

Definition ret {A} (a : A) : M A := fun s => (Ok a, s).

Definition bind {A B} (m : M A) (k : A -> M B) : M B :=
  fun s =>
    match m s with
    | (Ok a, s') => k a s'
    | (Throw, s') => (Throw, s')
    end.

Definition throw {A} : M A := fun s => (Throw, s).

(** [try { m } catch { h }] *)
Definition try_catch {A} (m : M A) (h : M A) : M A :=
  fun s =>
    match m s with
    | (Ok a, s') => (Ok a, s')
    | (Throw, s') => h s'
    end.

(** [try { m } finally { f }] *)
Definition try_finally {A} (m : M A) (f : M unit) : M A :=
  fun s =>
    match m s with
    | (r, s') =>
        match f s' with
        | (Ok _, s'') => (r, s'')
        | (Throw, s'') => (Throw, s'')
        end
    end.

Declare Scope monad_scope.
Delimit Scope monad_scope with monad.
Notation "x <- m ;; k" := (bind m (fun x => k))
  (at level 61, m at next level, right associativity) : monad_scope.
Notation "m ;; k" := (bind m (fun _ => k))
  (at level 61, right associativity) : monad_scope.
Local Open Scope monad_scope.

Definition modify (f : State -> State) : M unit := fun s => (Ok tt, f s).
Definition gets {A} (f : State -> A) : M A := fun s => (Ok (f s), s).

(** [await Promise.all(l.map(f))]: the per-element computations only
    read the store, so running them one after the other yields the results
    of any interleaving; the first failure rejects the whole. *)
Fixpoint mapM {A B} (f : A -> M B) (l : list A) : M (list B) :=
  match l with
  | [] => ret []
  | x :: l' =>
      y <- f x ;;
      ys <- mapM f l' ;;
      ret (y :: ys)
  end.

(** [Date.now()]: the clock advances by the next tick and is read. *)
Definition Date_now : M Z :=
  fun s =>
    let n := s_now s + Z.of_N (hd 0%N (s_ticks s)) in
    (Ok n, with_clock n (tl (s_ticks s)) s).

(** [Math.random().toString(36).substr(2, 9)]: the next random suffix. *)
Definition random_suffix : M string :=
  fun s => (Ok (hd "" (s_rand s)), with_rand (tl (s_rand s)) s).

Definition toast (t : Toast) : M unit := modify (add_toast t).

Definition setConversations (l : list ConversationView) : M unit :=
  modify (with_conversations l).
Definition setSelectedConversation (c : ConversationView) : M unit :=
  modify (with_selectedConversation (Some c)).
Definition setMessages (l : list MessageView) : M unit :=
  modify (with_messages l).
Definition setNewMessage (m : string) : M unit := modify (with_newMessage m).
Definition setLoading (b : bool) : M unit := modify (with_loading b).
Definition setSending (b : bool) : M unit := modify (with_sending b).

(** Every store call is logged and consumes one fault flag; a set flag
    makes the call throw without touching the store. *)
Definition store_call (c : Call) : M unit :=
  fun s =>
    let s' := with_faults (tl (s_faults s)) (add_trace [c] s) in
    if hd false (s_faults s) then (Throw, s') else (Ok tt, s').

(** The calls of [blink.db.<collection>]; [c] names the collection in the
    log, [coll] and [set] read and write it in the store. *)
Module blink.

Definition list {A} (c : Collection) (coll : Db.t -> list A)
    (where_ : A -> bool) (orderBy : option ((A -> Z) * Direction))
    (limit : option nat) : M (list A) :=
  store_call (CallList c) ;;
  gets (fun s => select where_ orderBy limit (coll (s_db s))).

(** Modelled from the spec: [create(record)] and [createMany(records)]
    of the managed backend add the records to the collection. *)
Definition create {A} (c : Collection) (coll : Db.t -> Datatypes.list A)
    (set : Datatypes.list A -> Db.t -> Db.t) (r : A) : M unit :=
  store_call (CallCreate c) ;;
  modify (fun s => with_db (set (coll (s_db s) ++ [r]) (s_db s)) s).

Definition createMany {A} (c : Collection) (coll : Db.t -> Datatypes.list A)
    (set : Datatypes.list A -> Db.t -> Db.t) (rs : Datatypes.list A) : M unit :=
  store_call (CallCreateMany c) ;;
  modify (fun s => with_db (set (coll (s_db s) ++ rs) (s_db s)) s).

(** Modelled from the spec: [update(id, partialRecord)] of the managed
    backend overwrites the given fields of the records with that id. *)
Definition update {A} (c : Collection) (coll : Db.t -> Datatypes.list A)
    (set : Datatypes.list A -> Db.t -> Db.t) (id_of : A -> string)
    (id : string) (patch : A -> A) : M unit :=
  store_call (CallUpdate c) ;;
  modify (fun s =>
    with_db
      (set (map (fun r => if (id_of r =? id)%string then patch r else r)
                (coll (s_db s)))
           (s_db s)) s).

End blink.

(* ================================================================= *)
(** ** src/App.tsx *)

Module App.

Definition view_of (c : Conversation.t) : ConversationView :=
  mkConversationView c None None.

(** [msg.content || (msg.messageType === 'file' ? `📎 ${msg.fileName}` : 'File')] *)
Definition preview_content (msg : Message.t) : string :=
  Js.or_else (Message.content msg)
    (match Message.messageType msg with
     | file => "📎 " ++ Js.template_str (Message.fileName msg)
     | _ => "File"
     end).

(** [sender[0]?.displayName || 'Unknown'] *)
Definition sender_name (sender : list User.t) : string :=
  Js.or_else (option_map User.displayName (hd_error sender)) "Unknown".

(** [l.filter(Boolean)] on looked-up users: drops the [undefined] ones. *)
Fixpoint filter_Boolean {A} (l : list (option A)) : list A :=
  match l with
  | [] => []
  | Some a :: l' => a :: filter_Boolean l'
  | None :: l' => filter_Boolean l'
  end.

(** The order key of [orderBy: { joinedAt: 'desc' }]; the client never
    writes [joinedAt], a record without it sorts as 0. *)
Definition joinedAt_key (m : ConversationMember.t) : Z :=
  match ConversationMember.joinedAt m with
  | Some z => z
  | None => 0
  end.

Definition users_by_id (id : string) : M (list User.t) :=
  blink.list Users Db.users (fun u => (User.id u =? id)%string) None (Some 1%nat).

(** The body of [conversationsData.map(async (conv) => ...)]. *)
Definition conversation_details (conv : Conversation.t) : M ConversationView :=
  lastMessages <-
    blink.list Messages Db.messages
      (fun m => (Message.conversationId m =? Conversation.id conv)%string)
      (Some (Message.createdAt, desc)) (Some 1%nat) ;;
  lastMessage <-
    match lastMessages with
    | msg :: _ =>
        sender <- users_by_id (Message.userId msg) ;;
        ret (Some (mkLastMessage (preview_content msg) (sender_name sender)
                     (Message.createdAt msg)))
    | [] => ret None
    end ;;
  members <-
    match Conversation.type conv with
    | group =>
        memberIds <-
          blink.list ConversationMembers Db.conversationMembers
            (fun m => (ConversationMember.conversationId m =? Conversation.id conv)%string)
            None None ;;
        memberDetails <-
          mapM (fun m =>
                  userData <- users_by_id (ConversationMember.userId m) ;;
                  ret (hd_error userData))
               memberIds ;;
        ret (Some (filter_Boolean memberDetails))
    | private => ret None
    end ;;
  ret (mkConversationView conv lastMessage members).

Definition load_failed : Toast :=
  mkToast "Error" "Failed to load conversations" true.

Definition loadConversations (userId : string) : M unit :=
  try_catch
    (membershipData <-
       blink.list ConversationMembers Db.conversationMembers
         (fun m => (ConversationMember.userId m =? userId)%string)
         (Some (joinedAt_key, desc)) None ;;
     if (List.length membershipData =? 0)%nat then setConversations []
     else
       let conversationIds :=
         map ConversationMember.conversationId membershipData in
       conversationsData <-
         blink.list Conversations Db.conversations
           (fun c => existsb (fun id => (Conversation.id c =? id)%string)
                       conversationIds)
           (Some (Conversation.lastMessageAt, desc)) None ;;
       conversationsWithDetails <- mapM conversation_details conversationsData ;;
       setConversations conversationsWithDetails)
    (toast load_failed).

Definition invalid_invite : Toast :=
  mkToast "Invalid Invite" "This invite link is invalid or has expired" true.
Definition expired_invite : Toast :=
  mkToast "Expired Invite" "This invite link has expired" true.
Definition invite_limit_reached : Toast :=
  mkToast "Invite Limit Reached" "This invite link has reached its usage limit" true.
Definition joined_chat : Toast :=
  mkToast "Joined Chat!" "You've successfully joined the conversation" false.
Definition join_failed : Toast :=
  mkToast "Error" "Failed to join conversation" true.

(** [invite.expiresAt && invite.expiresAt < Date.now()]; the clock is read
    only when [expiresAt] is truthy. *)
Definition invite_expired (invite : Invite.t) : M bool :=
  match Invite.expiresAt invite with
  | Some e => if Js.truthy_num (Some e)
              then now <- Date_now ;; ret (e <? now)
              else ret false
  | None => ret false
  end.

(** [invite.maxUses && invite.currentUses >= invite.maxUses] *)
Definition invite_exhausted (invite : Invite.t) : bool :=
  match Invite.maxUses invite with
  | Some m => Js.truthy_num (Some m) && (Invite.currentUses invite >=? m)
  | None => false
  end.

Definition set_currentUses (n : Z) (i : Invite.t) : Invite.t :=
  Invite.mk (Invite.id i) (Invite.conversationId i) (Invite.createdBy i)
    (Invite.inviteCode i) (Invite.expiresAt i) (Invite.maxUses i) n
    (Invite.isActive i).

Definition handleInviteJoin (currentUser : User.t) (code : string) : M unit :=
  try_catch
    (invites <-
       blink.list Invites Db.invites
         (fun i => (Invite.inviteCode i =? code)%string
                   && Bool.eqb (Invite.isActive i) true)
         None (Some 1%nat) ;;
     match invites with
     | [] => toast invalid_invite
     | invite :: _ =>
         expired <- invite_expired invite ;;
         if expired then toast expired_invite
         else if invite_exhausted invite then toast invite_limit_reached
         else
           existingMembership <-
             blink.list ConversationMembers Db.conversationMembers
               (fun m => (ConversationMember.conversationId m =? Invite.conversationId invite)%string
                         && (ConversationMember.userId m =? User.id currentUser)%string)
               None (Some 1%nat) ;;
           (if (List.length existingMembership =? 0)%nat then
              now <- Date_now ;;
              r <- random_suffix ;;
              blink.create ConversationMembers Db.conversationMembers
                Db.set_conversationMembers
                (ConversationMember.mk
                   ("member_" ++ Js.num_to_string now ++ "_" ++ r)
                   (Invite.conversationId invite)
                   (User.id currentUser)
                   (if Js.truthy_bool (User.isGuest currentUser)
                    then guest else member)
                   None) ;;
              blink.update Invites Db.invites Db.set_invites Invite.id
                (Invite.id invite)
                (set_currentUses (Invite.currentUses invite + 1))
            else ret tt) ;;
           loadConversations (User.id currentUser) ;;
           conv <-
             blink.list Conversations Db.conversations
               (fun c => (Conversation.id c =? Invite.conversationId invite)%string)
               None (Some 1%nat) ;;
           match conv with
           | c :: _ => setSelectedConversation (view_of c)
           | [] => ret tt
           end ;;
           toast joined_chat
     end)
    (toast join_failed).

Definition private_chat_created : Toast :=
  mkToast "Success" "Private chat created successfully" false.
Definition private_chat_failed : Toast :=
  mkToast "Error" "Failed to create private chat" true.

(** The [for (const membership of existingMemberships)] loop of
    [handleCreatePrivateChat]; the result tells whether the loop left the
    handler through its [return]. *)
Fixpoint find_private (targetUserId : string)
    (existingMemberships : list ConversationMember.t) : M bool :=
  match existingMemberships with
  | [] => ret false
  | membership :: rest =>
      conv <-
        blink.list Conversations Db.conversations
          (fun c => (Conversation.id c =? ConversationMember.conversationId membership)%string
                    && ConversationType_eqb (Conversation.type c) private)
          None (Some 1%nat) ;;
      match conv with
      | c :: _ =>
          otherMembers <-
            blink.list ConversationMembers Db.conversationMembers
              (fun m => (ConversationMember.conversationId m =? Conversation.id c)%string)
              None None ;;
          if (List.length otherMembers =? 2)%nat
             && existsb (fun m => (ConversationMember.userId m =? targetUserId)%string)
                  otherMembers
          then setSelectedConversation (view_of c) ;; ret true
          else find_private targetUserId rest
      | [] => find_private targetUserId rest
      end
  end.

Definition handleCreatePrivateChat (targetUserId : string) : M unit :=
  u <- gets s_user ;;
  match u with
  | None => ret tt
  | Some user =>
      try_catch
        (existingMemberships <-
           blink.list ConversationMembers Db.conversationMembers
             (fun m => (ConversationMember.userId m =? User.id user)%string)
             None None ;;
         returned <- find_private targetUserId existingMemberships ;;
         if returned then ret tt
         else
           now <- Date_now ;;
           r <- random_suffix ;;
           let conversationId := ("conv_" ++ Js.num_to_string now ++ "_" ++ r)%string in
           createdAt <- Date_now ;;
           updatedAt <- Date_now ;;
           lastMessageAt <- Date_now ;;
           blink.create Conversations Db.conversations Db.set_conversations
             (Conversation.mk conversationId private None None None
                (User.id user) createdAt updatedAt lastMessageAt) ;;
           t1 <- Date_now ;;
           t2 <- Date_now ;;
           blink.createMany ConversationMembers Db.conversationMembers
             Db.set_conversationMembers
             [ ConversationMember.mk ("member_" ++ Js.num_to_string t1 ++ "_1")
                 conversationId (User.id user) member None;
               ConversationMember.mk ("member_" ++ Js.num_to_string t2 ++ "_2")
                 conversationId targetUserId member None ] ;;
           loadConversations (User.id user) ;;
           toast private_chat_created)
        (toast private_chat_failed)
  end.

Definition group_created : Toast :=
  mkToast "Success" "Group chat created successfully" false.
Definition group_failed : Toast :=
  mkToast "Error" "Failed to create group chat" true.

(** [memberIds.forEach((memberId, index) => members.push({...}))], from
    position [index] on. *)
Fixpoint push_members (conversationId : string) (index : nat)
    (memberIds : list string) : M (list ConversationMember.t) :=
  match memberIds with
  | [] => ret []
  | memberId :: rest =>
      now <- Date_now ;;
      others <- push_members conversationId (S index) rest ;;
      ret (ConversationMember.mk
             ("member_" ++ Js.num_to_string now ++ "_"
                ++ Js.num_to_string (Z.of_nat (index + 1)))
             conversationId memberId member None :: others)
  end.

Definition handleCreateGroup (name description : string)
    (memberIds : list string) : M unit :=
  u <- gets s_user ;;
  match u with
  | None => ret tt
  | Some user =>
      try_catch
        (now <- Date_now ;;
         r <- random_suffix ;;
         let conversationId := ("conv_" ++ Js.num_to_string now ++ "_" ++ r)%string in
         createdAt <- Date_now ;;
         updatedAt <- Date_now ;;
         lastMessageAt <- Date_now ;;
         blink.create Conversations Db.conversations Db.set_conversations
           (Conversation.mk conversationId group (Some name) (Some description)
              None (User.id user) createdAt updatedAt lastMessageAt) ;;
         t0 <- Date_now ;;
         let creator :=
           ConversationMember.mk ("member_" ++ Js.num_to_string t0 ++ "_0")
             conversationId (User.id user)
             (if Js.truthy_bool (User.isGuest user) then guest else admin)
             None in
         others <- push_members conversationId 0 memberIds ;;
         blink.createMany ConversationMembers Db.conversationMembers
           Db.set_conversationMembers (creator :: others) ;;
         loadConversations (User.id user) ;;
         toast group_created)
        (toast group_failed)
  end.

End App.

(* ================================================================= *)
(** ** The chat view (ChatView component) *)

Module ChatView.

Definition load_messages_failed : Toast :=
  mkToast "Error" "Failed to load messages" true.
Definition send_failed : Toast :=
  mkToast "Error" "Failed to send message" true.

Definition loadMessages (conversation : ConversationView) : M unit :=
  try_finally
    (try_catch
       (setLoading true ;;
        messagesData <-
          blink.list Messages Db.messages
            (fun m => (Message.conversationId m
                       =? Conversation.id (cv_conv conversation))%string)
            (Some (Message.createdAt, asc)) None ;;
        messagesWithUsers <-
          mapM (fun msg =>
                  userData <- App.users_by_id (Message.userId msg) ;;
                  ret (mkMessageView msg (hd_error userData)))
               messagesData ;;
        setMessages messagesWithUsers)
       (toast load_messages_failed))
    (setLoading false).

Definition set_last_activity (lastMessageAt updatedAt : Z) (c : Conversation.t)
  : Conversation.t :=
  Conversation.mk (Conversation.id c) (Conversation.type c)
    (Conversation.name c) (Conversation.description c)
    (Conversation.avatarUrl c) (Conversation.createdBy c)
    (Conversation.createdAt c) updatedAt lastMessageAt.

(** [user], [conversation] and [onRefresh] are the props of the view. *)
Definition sendMessage (user : User.t) (conversation : ConversationView)
    (onRefresh : M unit) : M unit :=
  newMessage <- gets s_newMessage ;;
  sending <- gets s_sending ;;
  if negb (Js.truthy_str (Some (Js.trim newMessage))) || sending then ret tt
  else
    try_finally
      (try_catch
         (setSending true ;;
          now <- Date_now ;;
          r <- random_suffix ;;
          let messageId := ("msg_" ++ Js.num_to_string now ++ "_" ++ r)%string in
          createdAt <- Date_now ;;
          blink.create Messages Db.messages Db.set_messages
            (Message.mk messageId (Conversation.id (cv_conv conversation))
               (User.id user) (Some (Js.trim newMessage)) text
               None None None None createdAt) ;;
          lastMessageAt <- Date_now ;;
          updatedAt <- Date_now ;;
          blink.update Conversations Db.conversations Db.set_conversations
            Conversation.id (Conversation.id (cv_conv conversation))
            (set_last_activity lastMessageAt updatedAt) ;;
          setNewMessage "" ;;
          loadMessages conversation ;;
          onRefresh)
         (toast send_failed))
      (setSending false).

End ChatView.

(** The [onRefresh] prop App passes to the chat view:
    [() => loadConversations(user.id)]. *)
Definition App_onRefresh (user : User.t) : M unit :=
  App.loadConversations (User.id user).

(* ================================================================= *)
(** ** What the handlers read: the joined views as functions of the store *)

Definition users_with_id (d : Db.t) (id : string) : list User.t :=
  select (fun u => (User.id u =? id)%string) None (Some 1%nat) (Db.users d).

Definition messages_of (d : Db.t) (conversationId : string) : list Message.t :=
  filter (fun m => (Message.conversationId m =? conversationId)%string)
    (Db.messages d).

Definition members_of (d : Db.t) (conversationId : string)
  : list ConversationMember.t :=
  filter (fun m => (ConversationMember.conversationId m =? conversationId)%string)
    (Db.conversationMembers d).

Definition memberships_of (d : Db.t) (userId : string)
  : list ConversationMember.t :=
  filter (fun m => (ConversationMember.userId m =? userId)%string)
    (Db.conversationMembers d).

(** The message the directory shows for a conversation. *)
Definition latest_message (d : Db.t) (conv : Conversation.t) : option Message.t :=
  hd_error
    (select (fun m => (Message.conversationId m =? Conversation.id conv)%string)
       (Some (Message.createdAt, desc)) (Some 1%nat) (Db.messages d)).

Definition details_of (d : Db.t) (conv : Conversation.t) : ConversationView :=
  mkConversationView conv
    (match latest_message d conv with
     | Some msg =>
         Some (mkLastMessage (App.preview_content msg)
                 (App.sender_name (users_with_id d (Message.userId msg)))
                 (Message.createdAt msg))
     | None => None
     end)
    (match Conversation.type conv with
     | group =>
         Some (App.filter_Boolean
                 (map (fun m => hd_error (users_with_id d (ConversationMember.userId m)))
                    (members_of d (Conversation.id conv))))
     | private => None
     end).

Definition directory_of (d : Db.t) (userId : string) : list ConversationView :=
  let membershipData :=
    order (Some (App.joinedAt_key, desc)) (memberships_of d userId) in
  if (List.length membershipData =? 0)%nat then []
  else
    map (details_of d)
      (select (fun c => existsb (fun id => (Conversation.id c =? id)%string)
                          (map ConversationMember.conversationId membershipData))
         (Some (Conversation.lastMessageAt, desc)) None (Db.conversations d)).

Definition thread_of (d : Db.t) (conversationId : string) : list MessageView :=
  map (fun msg => mkMessageView msg (hd_error (users_with_id d (Message.userId msg))))
    (order (Some (Message.createdAt, asc)) (messages_of d conversationId)).

(** [reads m f]: when no store call fails, [m] returns [f] of the store,
    and all it does to the state is to log read calls. *)
Definition reads {A} (m : M A) (f : Db.t -> A) : Prop :=
  forall s, s_faults s = [] ->
    exists tr, forallb is_read tr = true /\
               m s = (Ok (f (s_db s)), add_trace tr s).

(* ================================================================= *)
(** ** Notions used in the statements *)

(** The order [orderBy: { key: d }] asks for. *)
Definition in_order {A} (key : A -> Z) (d : Direction) (x y : A) : Prop :=
  match d with
  | asc => key x <= key y
  | desc => key y <= key x
  end.

(** The clock value the next [Date.now()] returns. *)
Definition next_now (s : State) : Z := s_now s + Z.of_N (hd 0%N (s_ticks s)).

(** The invite a redemption of [code] works on: the first active invite of
    the store that carries the code. *)
Definition redeemed_invite (d : Db.t) (code : string) : option Invite.t :=
  find (fun i => (Invite.inviteCode i =? code)%string
                 && Bool.eqb (Invite.isActive i) true)
    (Db.invites d).

(** The membership record of a user in a conversation, if there is one. *)
Definition membership (d : Db.t) (conversationId userId : string)
  : option ConversationMember.t :=
  find (fun m => (ConversationMember.conversationId m =? conversationId)%string
                 && (ConversationMember.userId m =? userId)%string)
    (Db.conversationMembers d).

(** The expiry guard fires at time [t]. *)
Definition is_expired (invite : Invite.t) (t : Z) : bool :=
  match Invite.expiresAt invite with
  | Some e => negb (e =? 0) && (e <? t)
  | None => false
  end.

(** The state after the expiry guard: the clock was read iff [expiresAt]
    is truthy. *)
Definition after_expiry_check (invite : Invite.t) (s : State) : State :=
  if Js.truthy_num (Invite.expiresAt invite)
  then with_clock (next_now s) (tl (s_ticks s)) s
  else s.

Definition conversation_by_id (d : Db.t) (id : string) : option Conversation.t :=
  find (fun c => (Conversation.id c =? id)%string) (Db.conversations d).

(** The membership record a redemption creates. *)
Definition new_member (currentUser : User.t) (invite : Invite.t)
    (now : Z) (r : string) : ConversationMember.t :=
  ConversationMember.mk ("member_" ++ Js.num_to_string now ++ "_" ++ r)
    (Invite.conversationId invite) (User.id currentUser)
    (if Js.truthy_bool (User.isGuest currentUser) then guest else member)
    None.

(** The usage update of a redemption, on one invite record. *)
Definition bump_uses (invite i : Invite.t) : Invite.t :=
  if (Invite.id i =? Invite.id invite)%string
  then App.set_currentUses (Invite.currentUses invite + 1) i
  else i.

(** The state after the membership create and the usage update. *)
Definition enroll (currentUser : User.t) (invite : Invite.t) (s : State) : State :=
  let d1 :=
    Db.set_conversationMembers
      (Db.conversationMembers (s_db s)
         ++ [new_member currentUser invite (next_now s) (hd "" (s_rand s))])
      (s_db s) in
  with_db (Db.set_invites (map (bump_uses invite) (Db.invites d1)) d1)
    (add_trace [CallUpdate Invites]
       (with_db d1
          (add_trace [CallCreate ConversationMembers]
             (with_rand (tl (s_rand s))
                (with_clock (next_now s) (tl (s_ticks s)) s))))).

(** The state after [setSelectedConversation(conv[0])], when there is one. *)
Definition select_conversation (conversationId : string) (s : State) : State :=
  match conversation_by_id (s_db s) conversationId with
  | Some c => with_selectedConversation (Some (App.view_of c)) s
  | None => s
  end.

(** The conversation the scan of [handleCreatePrivateChat] accepts for one
    membership record: the private conversation the record refers to,
    when it has exactly two membership records, one of them of the target. *)
Definition shared_through (d : Db.t) (targetUserId : string)
    (membership : ConversationMember.t) : option Conversation.t :=
  match find (fun c => (Conversation.id c =? ConversationMember.conversationId membership)%string
                       && ConversationType_eqb (Conversation.type c) private)
          (Db.conversations d) with
  | Some c =>
      if (List.length (members_of d (Conversation.id c)) =? 2)%nat
         && existsb (fun m => (ConversationMember.userId m =? targetUserId)%string)
              (members_of d (Conversation.id c))
      then Some c else None
  | None => None
  end.

Fixpoint first_shared (d : Db.t) (targetUserId : string)
    (ms : list ConversationMember.t) : option Conversation.t :=
  match ms with
  | [] => None
  | m :: rest =>
      match shared_through d targetUserId m with
      | Some c => Some c
      | None => first_shared d targetUserId rest
      end
  end.

(** What makes a conversation a private chat shared by a user and a
    target: it is of type [private], the user has a membership record in
    it, and it has exactly two membership records, one of the target. *)
Definition shares_private (d : Db.t) (userId targetUserId : string)
    (c : Conversation.t) : Prop :=
  In c (Db.conversations d)
  /\ Conversation.type c = private
  /\ (exists m, In m (Db.conversationMembers d)
                /\ ConversationMember.userId m = userId
                /\ ConversationMember.conversationId m = Conversation.id c)
  /\ List.length (members_of d (Conversation.id c)) = 2%nat
  /\ (exists m, In m (members_of d (Conversation.id c))
                /\ ConversationMember.userId m = targetUserId).

(** No conversation of the store carries a [lastMessageAt] ahead of the
    clock. *)
Definition timestamps_not_ahead (s : State) : Prop :=
  forall c, In c (Db.conversations (s_db s)) ->
            Conversation.lastMessageAt c <= s_now s.

(** The record [sendMessage] creates. *)
Definition sent_message (user : User.t) (conversation : ConversationView)
    (id : string) (content : string) (createdAt : Z) : Message.t :=
  Message.mk id (Conversation.id (cv_conv conversation)) (User.id user)
    (Some content) text None None None None createdAt.

(* ================================================================= *)
(** ** Scenarios *)

Definition alice : User.t :=
  User.mk "A" "alice@example.com" "alice" None "online" None (Some false) None.
Definition bob : User.t :=
  User.mk "B" "bob@example.com" "bob" None "online" None (Some false) None.
Definition casey : User.t :=
  User.mk "guest_1" "guest_1@guest.connectify" "Casey" None "online" None
    (Some true) (Some "Casey").

Definition conv_1 : Conversation.t :=
  Conversation.mk "conv_1" private None None None "A" 10 10 10.
Definition conv_ahead : Conversation.t :=
  Conversation.mk "conv_1" private None None None "A" 10 1000 1000.
Definition member_A : ConversationMember.t :=
  ConversationMember.mk "member_10_1" "conv_1" "A" member None.
Definition member_B : ConversationMember.t :=
  ConversationMember.mk "member_10_2" "conv_1" "B" member None.
Definition attachment : Message.t :=
  Message.mk "msg_20_a" "conv_1" "B" None file (Some "https://files/report.pdf")
    (Some "report.pdf") (Some 2048) (Some "application/pdf") 20.

Definition invite_with (expiresAt maxUses : option Z) (currentUses : Z)
    (isActive : bool) : Invite.t :=
  Invite.mk "invite_1" "conv_1" "A" "abc123" expiresAt maxUses currentUses isActive.

Definition db_with (convs : list Conversation.t) (msgs : list Message.t)
    (invites : list Invite.t) : Db.t :=
  Db.mk [alice; bob; casey] convs [member_A; member_B] msgs invites.

(** A state at clock 100 whose next clock reading is 101. *)
Definition state_with (d : Db.t) (u : option User.t) (newMessage : string) : State :=
  mkState d 100 [1%N] ["x7k2m9q1z"] [] [] [] u [] None [] newMessage false false.

Definition s_chat : State := state_with (db_with [conv_1] [] []) (Some alice) "hello".
Definition s_blank : State :=
  state_with (db_with [conv_1] [] []) (Some alice) (" " ++ Js.bytes [9; 194; 160]%nat).
Definition s_ahead : State :=
  state_with (db_with [conv_ahead] [] []) (Some alice) "hello".
Definition s_files : State :=
  state_with (db_with [conv_1] [attachment] []) (Some alice) "".
Definition s_lonely : State :=
  state_with (Db.mk [casey] [conv_1] [member_A; member_B] [] []) (Some casey) "".
Definition s_invite (i : Invite.t) (u : User.t) : State :=
  state_with (db_with [conv_1] [] [i]) (Some u) "".

(* ================================================================= *)
(** ** Effects of a handler on the environment *)

(** [s'] comes from [s] by read calls only: the store, the clock and the
    random source are as they were and the log grew by read calls.  (Fault
    flags may have been consumed, notifications shown and component state
    set.) *)
Definition read_only_step (s s' : State) : Prop :=
  s_db s' = s_db s
  /\ s_now s' = s_now s
  /\ s_ticks s' = s_ticks s
  /\ s_rand s' = s_rand s
  /\ exists tr, s_trace s' = s_trace s ++ tr /\ forallb is_read tr = true.

(** Whatever store calls fail, the state after [m] is related by [P] to
    the state before. *)
Definition respects (P : State -> State -> Prop) {A} (m : M A) : Prop :=
  forall s, P s (snd (m s)).

(** Whatever store calls fail, [m] does read calls only. *)
Definition never_writes {A} (m : M A) : Prop := respects read_only_step m.


(** The id [`conv_${Date.now()}_${Math.random()...}`] the next creation of
    a conversation draws in [s]. *)
Definition next_conversation_id (s : State) : string :=
  "conv_" ++ Js.num_to_string (next_now s) ++ "_" ++ hd "" (s_rand s).

(** The invite record [i] with its count of uses set to [n]. *)
Definition invite_used (n : Z) (i : Invite.t) : Invite.t :=
  Invite.mk (Invite.id i) (Invite.conversationId i) (Invite.createdBy i)
    (Invite.inviteCode i) (Invite.expiresAt i) (Invite.maxUses i) n
    (Invite.isActive i).

(** The id is carried by no conversation and by no membership record of
    the store. *)
Definition fresh_conversation_id (d : Db.t) (id : string) : Prop :=
  (forall c, In c (Db.conversations d) -> Conversation.id c <> id)
  /\ (forall m, In m (Db.conversationMembers d) ->
                ConversationMember.conversationId m <> id).

(* ================================================================= *)
(** ** Components with state of their own *)

(** A handler of a component whose local state is an [L]: it runs on the
    local state and on the shared program state. *)
Definition CM (L A : Type) : Type := L * State -> Res A * (L * State).

Definition cret {L A} (a : A) : CM L A := fun ls => (Ok a, ls).

Definition cbind {L A B} (m : CM L A) (k : A -> CM L B) : CM L B :=
  fun ls =>
    match m ls with
    | (Ok a, ls') => k a ls'
    | (Throw, ls') => (Throw, ls')
    end.

Definition cthrow {L A} : CM L A := fun ls => (Throw, ls).

(** A handler of the shared state, run inside a component. *)
Definition lift {L A} (m : M A) : CM L A :=
  fun ls =>
    match m (snd ls) with
    | (r, s') => (r, (fst ls, s'))
    end.

Definition cmodify {L} (f : L -> L) : CM L unit :=
  fun ls => (Ok tt, (f (fst ls), snd ls)).

Definition cgets {L A} (f : L -> A) : CM L A :=
  fun ls => (Ok (f (fst ls)), ls).

Definition ctry_catch {L A} (m : CM L A) (h : CM L A) : CM L A :=
  fun ls =>
    match m ls with
    | (Ok a, ls') => (Ok a, ls')
    | (Throw, ls') => h ls'
    end.

Definition ctry_finally {L A} (m : CM L A) (f : CM L unit) : CM L A :=
  fun ls =>
    match m ls with
    | (r, ls') =>
        match f ls' with
        | (Ok _, ls'') => (r, ls'')
        | (Throw, ls'') => (Throw, ls'')
        end
    end.

Declare Scope comp_scope.
Delimit Scope comp_scope with comp.
Notation "x <- m ;; k" := (cbind m (fun x => k))
  (at level 61, m at next level, right associativity) : comp_scope.
Notation "m ;; k" := (cbind m (fun _ => k))
  (at level 61, right associativity) : comp_scope.

(** One callback after the other. *)
Fixpoint cforEach {L A} (f : A -> CM L unit) (l : list A) : CM L unit :=
  match l with
  | [] => cret tt
  | x :: l' => cbind (f x) (fun _ => cforEach f l')
  end.

Definition with_user (u : option User.t) (s : State) : State :=
  mkState (s_db s) (s_now s) (s_ticks s) (s_rand s) (s_faults s) (s_trace s)
    (s_toasts s) u (s_conversations s) (s_selectedConversation s)
    (s_messages s) (s_newMessage s) (s_loading s) (s_sending s).

Definition setUser (u : option User.t) : M unit := modify (with_user u).

Definition set_users (l : list User.t) (d : Db.t) : Db.t :=
  Db.mk l (Db.conversations d) (Db.conversationMembers d) (Db.messages d)
    (Db.invites d).

(** [email.split('@')[0]] *)
Fixpoint before_at (email : string) : string :=
  match email with
  | EmptyString => EmptyString
  | String c rest => if Ascii.eqb c "@" then EmptyString
                     else String c (before_at rest)
  end.

(* ================================================================= *)
(** ** src/App.tsx: signing in *)

Module Session.

(** The state of App that the handlers above do not touch. *)
Record Ui := mkUi {
  showGuestLogin : bool;
  inviteCode : option string;
  loading : bool
}.

Definition setShowGuestLogin (b : bool) : CM Ui unit :=
  cmodify (fun l => mkUi b (inviteCode l) (loading l)).
Definition setInviteCode (c : option string) : CM Ui unit :=
  cmodify (fun l => mkUi (showGuestLogin l) c (loading l)).
Definition setLoading (b : bool) : CM Ui unit :=
  cmodify (fun l => mkUi (showGuestLogin l) (inviteCode l) b).

Definition welcome (guestName : string) : Toast :=
  mkToast "Welcome!" ("Signed in as guest: " ++ guestName) false.
Definition guest_failed : Toast :=
  mkToast "Error" "Failed to sign in as guest" true.
Definition init_failed : Toast :=
  mkToast "Error" "Failed to initialize user profile" true.

(** [if (inviteCode) { await handleInviteJoin(u, inviteCode); setInviteCode(null) }].
    [suspended] is what runs while the caller is suspended at this await
    on account of the state the caller has set before it: React renders
    with that state and runs again the effects of which a dependency has
    changed.  It is placed before the redemption, whose first store call
    is answered only after it. *)
Definition join_pending (suspended : CM Ui unit) (u : User.t) : CM Ui unit :=
  (code <- cgets inviteCode ;;
   match code with
   | Some c =>
       if Js.truthy_str (Some c)
       then suspended ;; lift (App.handleInviteJoin u c) ;; setInviteCode None
       else cret tt
   | None => cret tt
   end)%comp.

(** [setShowGuestLogin(false)] changes a dependency of the auth effect
    (lines 278-329), so the effect subscribes again while the handler
    awaits the redemption of a pending invite: [suspended] is what the
    callback of the new subscription does then. *)
Definition handleGuestLogin (suspended : CM Ui unit) (guestName : string)
  : CM Ui unit :=
  ctry_catch
    (now <- lift Date_now ;;
     r <- lift random_suffix ;;
     let guestId := ("guest_" ++ Js.num_to_string now ++ "_" ++ r)%string in
     lastSeen <- lift Date_now ;;
     lift (blink.create Users Db.users set_users
             (User.mk guestId (guestId ++ "@guest.connectify") guestName None
                "online" (Some lastSeen) (Some true) (Some guestName))) ;;
     let guestUser :=
       User.mk guestId (guestId ++ "@guest.connectify") guestName None
         "online" None (Some true) (Some guestName) in
     lift (setUser (Some guestUser)) ;;
     setShowGuestLogin false ;;
     join_pending suspended guestUser ;;
     lift (toast (welcome guestName)))%comp
    (lift (toast guest_failed)).

(** What the auth notifier delivers: [{ user: {id, email} | null, isLoading }]. *)
Record AuthState := mkAuthState {
  auth_user : option (string * string);
  isLoading : bool
}.

(** The callback given to [blink.auth.onAuthStateChanged].  Before its
    awaits it sets [user] only, which is no dependency of an effect:
    nothing runs again while it is suspended. *)
Definition onAuthStateChanged (state : AuthState) : CM Ui unit :=
  (match auth_user state with
   | Some (id, email) =>
       ctry_catch
         (lastSeen <- lift Date_now ;;
          lift (blink.create Users Db.users set_users
                  (User.mk id email (before_at email) None "online"
                     (Some lastSeen) (Some false) None)) ;;
          let authenticatedUser :=
            User.mk id email (before_at email) None "online" None
              (Some false) None in
          lift (setUser (Some authenticatedUser)) ;;
          lift (App.loadConversations id) ;;
          join_pending (cret tt) authenticatedUser)
         (lift (toast init_failed))
   | None =>
       code <- cgets inviteCode ;;
       shown <- cgets showGuestLogin ;;
       (if Js.truthy_str code || shown then setShowGuestLogin true else cret tt) ;;
       lift (setUser None)
   end ;;
   setLoading (isLoading state))%comp.

End Session.



(* ================================================================= *)
(** ** The chat view: header *)

(** [conversation.members?.find(m => m.id !== user.id)] *)
Definition other_member (user : User.t) (conversation : ConversationView)
  : option User.t :=
  match cv_members conversation with
  | Some members =>
      find (fun m => negb (User.id m =? User.id user)%string) members
  | None => None
  end.

Module Header.

Definition getConversationTitle (user : User.t) (conversation : ConversationView)
  : string :=
  match Conversation.type (cv_conv conversation) with
  | group => Js.or_else (Conversation.name (cv_conv conversation)) "Unnamed Group"
  | private =>
      Js.or_else (option_map User.displayName (other_member user conversation))
        "Unknown User"
  end.

(** [conversation.members?.length || 0] *)
Definition memberCount (conversation : ConversationView) : nat :=
  match cv_members conversation with
  | Some members => List.length members
  | None => 0%nat
  end.

Definition getConversationSubtitle (user : User.t)
    (conversation : ConversationView) : string :=
  match Conversation.type (cv_conv conversation) with
  | group => Js.num_to_string (Z.of_nat (memberCount conversation)) ++ " members"
  | private =>
      Js.or_else (option_map User.email (other_member user conversation)) ""
  end.

End Header.

(* ================================================================= *)
(** ** The sidebar (ChatSidebar component) *)

Module ChatSidebar.

Definition getConversationName (user : User.t) (conversation : ConversationView)
  : string :=
  match Conversation.type (cv_conv conversation) with
  | group => Js.or_else (Conversation.name (cv_conv conversation)) "Unnamed Group"
  | private =>
      Js.or_else (option_map User.displayName (other_member user conversation))
        "Unknown User"
  end.

(** The callback of [conversations.filter(...)].  [includes_ci a b] stands
    for [a.toLowerCase().includes(b.toLowerCase())], whose case mapping is
    not modelled. *)
Definition matches_query (includes_ci : string -> string -> bool)
    (user : User.t) (searchQuery : string) (conv : ConversationView) : bool :=
  if negb (Js.truthy_str (Some searchQuery)) then true
  else
    match Conversation.type (cv_conv conv) with
    | group =>
        match Conversation.name (cv_conv conv) with
        | Some name => includes_ci name searchQuery
        | None => false
        end
    | private =>
        match other_member user conv with
        | Some otherMember => includes_ci (User.displayName otherMember) searchQuery
        | None => false
        end
    end.

Definition filteredConversations (includes_ci : string -> string -> bool)
    (user : User.t) (searchQuery : string) (conversations : list ConversationView)
  : list ConversationView :=
  filter (matches_query includes_ci user searchQuery) conversations.

(** [toLocaleDateString] stands for [new Date(t).toLocaleDateString()],
    which depends on the locale.  The differences are integers below
    2^53, on which [Math.floor(diff / k)] is the integer quotient. *)
Definition formatLastMessageTime (toLocaleDateString : Z -> string)
    (timestamp : Z) : M string :=
  now <- Date_now ;;
  let diff := now - timestamp in
  if diff <? 60000 then ret "now"
  else if diff <? 3600000 then ret (Js.num_to_string (diff / 60000) ++ "m")%string
  else if diff <? 86400000 then ret (Js.num_to_string (diff / 3600000) ++ "h")%string
  else if diff <? 604800000 then ret (Js.num_to_string (diff / 86400000) ++ "d")%string
  else ret (toLocaleDateString timestamp).

End ChatSidebar.

(* ================================================================= *)
(** ** src/components/CreateGroupDialog.tsx *)

(** Modelled from the spec: [list({orderBy: {field: 'asc'}})] on a text
    field is part of the managed backend, which is not in the repository;
    it returns "an ordered sequence of matching records".  [text_le]
    stands for the order in which the backend puts two texts. *)
Definition list_by_text {A} (text_le : string -> string -> bool)
    (c : Collection) (coll : Db.t -> list A) (key : A -> string) : M (list A) :=
  store_call (CallList c) ;;
  gets (fun s => sort_by (fun x y => text_le (key x) (key y)) (coll (s_db s))).

Module CreateGroupDialog.

(** The state of the dialog, with [showCreateGroup] of App, which the
    dialog sets through its [onOpenChange] prop. *)
Record Ui := mkUi {
  groupName : string;
  groupDescription : string;
  searchQuery : string;
  users : list User.t;
  selectedUsers : list User.t;
  loading : bool;
  creating : bool;
  showCreateGroup : bool
}.

Definition setGroupName (v : string) : CM Ui unit :=
  cmodify (fun l => mkUi v (groupDescription l) (searchQuery l) (users l)
                      (selectedUsers l) (loading l) (creating l)
                      (showCreateGroup l)).
Definition setGroupDescription (v : string) : CM Ui unit :=
  cmodify (fun l => mkUi (groupName l) v (searchQuery l) (users l)
                      (selectedUsers l) (loading l) (creating l)
                      (showCreateGroup l)).
Definition setSearchQuery (v : string) : CM Ui unit :=
  cmodify (fun l => mkUi (groupName l) (groupDescription l) v (users l)
                      (selectedUsers l) (loading l) (creating l)
                      (showCreateGroup l)).
Definition setUsers (v : list User.t) : CM Ui unit :=
  cmodify (fun l => mkUi (groupName l) (groupDescription l) (searchQuery l) v
                      (selectedUsers l) (loading l) (creating l)
                      (showCreateGroup l)).
(** [setSelectedUsers(prev => f(prev))] *)
Definition updateSelectedUsers (f : list User.t -> list User.t) : CM Ui unit :=
  cmodify (fun l => mkUi (groupName l) (groupDescription l) (searchQuery l)
                      (users l) (f (selectedUsers l)) (loading l) (creating l)
                      (showCreateGroup l)).
Definition setSelectedUsers (v : list User.t) : CM Ui unit :=
  updateSelectedUsers (fun _ => v).
Definition setLoading (v : bool) : CM Ui unit :=
  cmodify (fun l => mkUi (groupName l) (groupDescription l) (searchQuery l)
                      (users l) (selectedUsers l) v (creating l)
                      (showCreateGroup l)).
Definition setCreating (v : bool) : CM Ui unit :=
  cmodify (fun l => mkUi (groupName l) (groupDescription l) (searchQuery l)
                      (users l) (selectedUsers l) (loading l) v
                      (showCreateGroup l)).
Definition onOpenChange (v : bool) : CM Ui unit :=
  cmodify (fun l => mkUi (groupName l) (groupDescription l) (searchQuery l)
                      (users l) (selectedUsers l) (loading l) (creating l) v).

Definition load_users_failed : Toast :=
  mkToast "Error" "Failed to load users" true.
Definition name_required : Toast :=
  mkToast "Error" "Group name is required" true.
Definition member_required : Toast :=
  mkToast "Error" "Please select at least one member" true.

Definition loadUsers (text_le : string -> string -> bool)
    (currentUserId : string) : CM Ui unit :=
  ctry_finally
    (ctry_catch
       (setLoading true ;;
        usersData <- lift (list_by_text text_le Users Db.users User.displayName) ;;
        let filteredUsers :=
          filter (fun user => negb (User.id user =? currentUserId)%string)
            usersData in
        setUsers filteredUsers)%comp
       (lift (toast load_users_failed)))
    (setLoading false).

(** The updater of [handleToggleUser]. *)
Definition toggled (user : User.t) (prev : list User.t) : list User.t :=
  let isSelected := existsb (fun u => (User.id u =? User.id user)%string) prev in
  if isSelected
  then filter (fun u => negb (User.id u =? User.id user)%string) prev
  else prev ++ [user].

Definition handleToggleUser (user : User.t) : CM Ui unit :=
  updateSelectedUsers (toggled user).

Definition handleRemoveUser (userId : string) : CM Ui unit :=
  updateSelectedUsers (filter (fun u => negb (User.id u =? userId)%string)).

(** [onCreateGroup] is the prop; App passes its [handleCreateGroup]. *)
Definition handleCreateGroup
    (onCreateGroup : string -> string -> list string -> M unit) : CM Ui unit :=
  (l <- cgets (fun l => l) ;;
   if negb (Js.truthy_str (Some (Js.trim (groupName l))))
   then lift (toast name_required)
   else if (List.length (selectedUsers l) =? 0)%nat
   then lift (toast member_required)
   else
     ctry_finally
       (ctry_catch
          (setCreating true ;;
           let memberIds := map User.id (selectedUsers l) in
           lift (onCreateGroup (Js.trim (groupName l))
                   (Js.trim (groupDescription l)) memberIds) ;;
           setGroupName "" ;;
           setGroupDescription "" ;;
           setSelectedUsers [] ;;
           setSearchQuery "" ;;
           onOpenChange false)
          (cret tt))
       (setCreating false))%comp.

End CreateGroupDialog.

(** Some selected user has this id. *)
Definition is_selected (id : string) (selected : list User.t) : bool :=
  existsb (fun u => (User.id u =? id)%string) selected.

(* ================================================================= *)
(** ** The chat view: attachments *)

Module File.
Record t := mk {
  name : string;
  size : Z;
  type : string
}.
End File.

Module Attachments.

(** What the blob storage does with one upload: the percentages it
    reports, in order, and the public URL it returns if it takes the
    file. *)
Record Outcome := mkOutcome {
  percents : list Z;
  publicUrl : option string
}.

(** The state of the chat view that the text handlers do not touch. *)
Record Ui := mkUi {
  uploadProgress : option Z;
  dragOver : bool
}.

Definition setUploadProgress (p : option Z) : CM Ui unit :=
  cmodify (fun l => mkUi p (dragOver l)).
Definition setDragOver (b : bool) : CM Ui unit :=
  cmodify (fun l => mkUi (uploadProgress l) b).

(** Modelled from the spec: [blink.storage.upload(file, path, {upsert,
    onProgress})] of the managed backend, "returning a public URL;
    onProgress delivers periodic integer percentage callbacks".
    [storage] stands for the service; an upload it does not take
    throws. *)
Definition storage_upload (storage : File.t -> string -> Outcome)
    (upload : File.t) (path : string) (onProgress : Z -> CM Ui unit)
  : CM Ui string :=
  (cforEach onProgress (percents (storage upload path)) ;;
   match publicUrl (storage upload path) with
   | Some url => cret url
   | None => cthrow
   end)%comp.

Definition upload_done : Toast :=
  mkToast "Success" "File uploaded successfully" false.
Definition upload_failed : Toast :=
  mkToast "Error" "Failed to upload file" true.

(** The path of an upload started at [now]. *)
Definition upload_path (conversation : ConversationView) (now : Z)
    (upload : File.t) : string :=
  "chat-files/" ++ Conversation.id (cv_conv conversation) ++ "/"
    ++ Js.num_to_string now ++ "_" ++ File.name upload.

(** [upload] is the [file] argument, a [File] object (the callers pass
    nothing else, so the guard [if (!file) return] lets it through);
    [user], [conversation] and [onRefresh] are the props of the view. *)
Definition handleFileUpload (storage : File.t -> string -> Outcome)
    (user : User.t) (conversation : ConversationView) (onRefresh : M unit)
    (upload : File.t) : CM Ui unit :=
  ctry_finally
    (ctry_catch
       (setUploadProgress (Some 0) ;;
        now <- lift Date_now ;;
        url <- storage_upload storage upload
                 (upload_path conversation now upload)
                 (fun percent => setUploadProgress (Some percent)) ;;
        idNow <- lift Date_now ;;
        r <- lift random_suffix ;;
        let messageId := ("msg_" ++ Js.num_to_string idNow ++ "_" ++ r)%string in
        let messageType :=
          if String.prefix "image/" (File.type upload) then image else file in
        createdAt <- lift Date_now ;;
        lift (blink.create Messages Db.messages Db.set_messages
                (Message.mk messageId (Conversation.id (cv_conv conversation))
                   (User.id user) None messageType (Some url)
                   (Some (File.name upload)) (Some (File.size upload))
                   (Some (File.type upload)) createdAt)) ;;
        lastMessageAt <- lift Date_now ;;
        updatedAt <- lift Date_now ;;
        lift (blink.update Conversations Db.conversations Db.set_conversations
                Conversation.id (Conversation.id (cv_conv conversation))
                (ChatView.set_last_activity lastMessageAt updatedAt)) ;;
        lift (ChatView.loadMessages conversation) ;;
        lift onRefresh ;;
        lift (toast upload_done))%comp
       (lift (toast upload_failed)))
    (setUploadProgress None).

(** [handleDrop], with the list of dropped files. *)
Definition handleDrop (storage : File.t -> string -> Outcome)
    (user : User.t) (conversation : ConversationView) (onRefresh : M unit)
    (files : list File.t) : CM Ui unit :=
  (setDragOver false ;;
   match files with
   | upload :: _ => handleFileUpload storage user conversation onRefresh upload
   | [] => cret tt
   end)%comp.

End Attachments.

(* ================================================================= *)
(** ** More scenarios *)

Definition invite_open : Invite.t := invite_with (Some 1000) (Some 10) 3 true.

(** Nobody is signed in, and the invite [abc123] of [conv_1] is open. *)
Definition s_signed_out : State :=
  state_with (db_with [conv_1] [] [invite_open]) None "".

(** The sign-in screen with the invite code of the URL pending. *)
Definition ui_invited : Session.Ui := Session.mkUi true (Some "abc123") false.

Definition conv_team : Conversation.t :=
  Conversation.mk "conv_2" group (Some "Team") (Some "") None "A" 20 20 20.
Definition team_A : ConversationMember.t :=
  ConversationMember.mk "member_20_0" "conv_2" "A" admin None.
Definition team_B : ConversationMember.t :=
  ConversationMember.mk "member_20_1" "conv_2" "B" member None.

(** Alice is in a private chat with Bob and in the group [Team] with Bob. *)
Definition s_team : State :=
  state_with
    (Db.mk [alice; bob; casey] [conv_1; conv_team]
       [member_A; member_B; team_A; team_B] [] [])
    (Some alice) "".

(** The same, but Bob has no user record. *)
Definition s_team_without_bob : State :=
  state_with
    (Db.mk [alice; casey] [conv_1; conv_team]
       [member_A; member_B; team_A; team_B] [] [])
    (Some alice) "".

(** The group dialog with a padded name and Bob and Casey selected. *)
Definition ui_group : CreateGroupDialog.Ui :=
  CreateGroupDialog.mkUi " Team " "" "" [bob; casey] [bob; casey] false false true.

(** The group dialog with a blank name. *)
Definition ui_unnamed : CreateGroupDialog.Ui :=
  CreateGroupDialog.mkUi " " "" "" [bob; casey] [bob] false false true.

Definition cat_png : File.t := File.mk "cat.png" 2048 "image/png".


(** A storage that gives up half way. *)
Definition storage_down (upload : File.t) (path : string) : Attachments.Outcome :=
  Attachments.mkOutcome [10; 50] None.

(* ================================================================= *)
(** ** Stepping through the monad *)

Lemma add_trace_nil (s : State) : add_trace [] s = s.
Proof. destruct s; unfold add_trace; simpl. now rewrite app_nil_r. Qed.

Lemma add_trace_app (t1 t2 : list Call) (s : State) :
  add_trace t2 (add_trace t1 s) = add_trace (t1 ++ t2) s.
Proof. unfold add_trace; simpl. now rewrite app_assoc. Qed.

Lemma store_call_ok (c : Call) (s : State) :
  s_faults s = [] -> store_call c s = (Ok tt, add_trace [c] s).
Proof.
  intros H. unfold store_call. rewrite H. simpl.
  destruct s; simpl in *; subst; reflexivity.
Qed.

Lemma bind_list {A B} c (coll : Db.t -> list A) w o l (k : list A -> M B) s :
  s_faults s = [] ->
  bind (blink.list c coll w o l) k s
  = k (select w o l (coll (s_db s))) (add_trace [CallList c] s).
Proof.
  intros H. unfold bind at 1, blink.list, bind, gets.
  now rewrite store_call_ok.
Qed.

Lemma bind_create {A B} c (coll : Db.t -> list A) set r (k : unit -> M B) s :
  s_faults s = [] ->
  bind (blink.create c coll set r) k s
  = k tt (with_db (set (coll (s_db s) ++ [r]) (s_db s))
            (add_trace [CallCreate c] s)).
Proof.
  intros H. unfold bind at 1, blink.create, bind, modify.
  now rewrite store_call_ok.
Qed.

Lemma bind_createMany {A B} c (coll : Db.t -> list A) set rs (k : unit -> M B) s :
  s_faults s = [] ->
  bind (blink.createMany c coll set rs) k s
  = k tt (with_db (set (coll (s_db s) ++ rs) (s_db s))
            (add_trace [CallCreateMany c] s)).
Proof.
  intros H. unfold bind at 1, blink.createMany, bind, modify.
  now rewrite store_call_ok.
Qed.

Lemma bind_update {A B} c (coll : Db.t -> list A) set id_of id patch
    (k : unit -> M B) s :
  s_faults s = [] ->
  bind (blink.update c coll set id_of id patch) k s
  = k tt (with_db
            (set (map (fun r => if (id_of r =? id)%string then patch r else r)
                    (coll (s_db s)))
               (s_db s))
            (add_trace [CallUpdate c] s)).
Proof.
  intros H. unfold bind at 1, blink.update, bind, modify.
  now rewrite store_call_ok.
Qed.

Lemma bind_ret {A B} (a : A) (k : A -> M B) s : bind (ret a) k s = k a s.
Proof. reflexivity. Qed.

Lemma bind_modify {B} (f : State -> State) (k : unit -> M B) s :
  bind (modify f) k s = k tt (f s).
Proof. reflexivity. Qed.

Lemma bind_gets {A B} (f : State -> A) (k : A -> M B) s :
  bind (gets f) k s = k (f s) s.
Proof. reflexivity. Qed.

Lemma bind_reads {A B} (m : M A) f (k : A -> M B) s :
  reads m f -> s_faults s = [] ->
  exists tr, forallb is_read tr = true /\
             bind m k s = k (f (s_db s)) (add_trace tr s).
Proof.
  intros Hm Hs. destruct (Hm s Hs) as (tr & Htr & E).
  exists tr. split; [exact Htr|]. unfold bind. now rewrite E.
Qed.

Lemma reads_mapM {A B} (f : A -> M B) (g : A -> Db.t -> B) (l : list A) :
  (forall x, reads (f x) (g x)) ->
  reads (mapM f l) (fun d => map (fun x => g x d) l).
Proof.
  intros Hf. induction l as [|x l IH]; intros s Hs.
  - exists []. split; [reflexivity|]. simpl. now rewrite add_trace_nil.
  - simpl.
    destruct (bind_reads (f x) (g x)
                (fun y => ys <- mapM f l ;; ret (y :: ys)) s (Hf x) Hs)
      as (t1 & H1 & ->).
    destruct (bind_reads (mapM f l) _
                (fun ys => ret (g x (s_db s) :: ys)) (add_trace t1 s) IH Hs)
      as (t2 & H2 & ->).
    exists (t1 ++ t2). split.
    + rewrite forallb_app, H1, H2. reflexivity.
    + unfold ret. simpl. now rewrite add_trace_app.
Qed.

Lemma reads_users_by_id (id : string) :
  reads (App.users_by_id id) (fun d => users_with_id d id).
Proof.
  intros s Hs. exists [CallList Users]. split; [reflexivity|].
  unfold App.users_by_id, blink.list, bind, gets.
  now rewrite store_call_ok.
Qed.

Lemma bind_assoc {A B C} (m : M A) (k1 : A -> M B) (k2 : B -> M C) s :
  bind (bind m k1) k2 s = bind m (fun a => bind (k1 a) k2) s.
Proof. unfold bind. destruct (m s) as [[a|] s']; reflexivity. Qed.

(** Steps over a computation known to [reads], by the lemma [R]. *)
Ltac step_reads R :=
  match goal with
  | |- context [bind ?m ?k ?s] =>
      let tr := fresh "tr" in
      let Htr := fresh "Htr" in
      let E := fresh "E" in
      destruct (bind_reads m _ k s R) as (tr & Htr & E);
      [simpl; assumption|];
      rewrite E; clear E
  end.

Ltac step_list := rewrite bind_list by (simpl; assumption).

Ltac close_reads :=
  rewrite ?add_trace_app;
  eexists; split; [|unfold ret; reflexivity];
  rewrite ?forallb_app; simpl;
  repeat match goal with H : forallb is_read _ = true |- _ => rewrite H end;
  reflexivity.

Lemma reads_then {A B} (m : M A) (f : Db.t -> A) (g : A -> B) :
  reads m f -> reads (x <- m ;; ret (g x)) (fun d => g (f d)).
Proof.
  intros Hm s Hs. step_reads Hm. close_reads.
Qed.

Lemma reads_conversation_details (conv : Conversation.t) :
  reads (App.conversation_details conv) (fun d => details_of d conv).
Proof.
  assert (Hmembers : forall s, s_faults s = [] ->
    reads (mapM (fun m => userData <- App.users_by_id (ConversationMember.userId m) ;;
                          ret (hd_error userData))
             (select (fun m => (ConversationMember.conversationId m
                                =? Conversation.id conv)%string)
                None None (Db.conversationMembers (s_db s))))
          (fun d => map (fun m => hd_error (users_with_id d (ConversationMember.userId m)))
                      (members_of (s_db s) (Conversation.id conv)))).
  { intros s _. apply reads_mapM with
      (g := fun m d => hd_error (users_with_id d (ConversationMember.userId m))).
    intros m. apply reads_then with (g := @hd_error User.t).
    apply reads_users_by_id. }
  intros s Hs. unfold App.conversation_details, details_of, latest_message.
  step_list.
  destruct (select _ _ _ (Db.messages (s_db s))) as [|msg rest]; simpl hd_error.
  - rewrite bind_ret.
    destruct (Conversation.type conv).
    + rewrite bind_ret. close_reads.
    + rewrite bind_assoc. step_list. rewrite bind_assoc.
      step_reads (Hmembers s Hs). rewrite !bind_ret. close_reads.
  - rewrite bind_assoc. step_reads (reads_users_by_id (Message.userId msg)).
    rewrite !bind_ret.
    destruct (Conversation.type conv).
    + rewrite bind_ret. close_reads.
    + rewrite bind_assoc. step_list. rewrite bind_assoc.
      step_reads (Hmembers s Hs). rewrite !bind_ret. close_reads.
Qed.

(** With a store that answers, [loadConversations] commits the directory
    computed from the store and otherwise only logs read calls. *)
Lemma loadConversations_ok (userId : string) (s : State) :
  s_faults s = [] ->
  exists tr, forallb is_read tr = true /\
    App.loadConversations userId s
    = (Ok tt, with_conversations (directory_of (s_db s) userId) (add_trace tr s)).
Proof.
  intros Hs. unfold App.loadConversations, try_catch, directory_of.
  step_list.
  change (select (fun m => (ConversationMember.userId m =? userId)%string)
            (Some (App.joinedAt_key, desc)) None
            (Db.conversationMembers (s_db s)))
    with (order (Some (App.joinedAt_key, desc)) (memberships_of (s_db s) userId)).
  destruct (List.length _ =? 0)%nat.
  - exists [CallList ConversationMembers]. split; reflexivity.
  - step_list.
    step_reads (reads_mapM App.conversation_details (fun c d => details_of d c)
                  (select (fun c => existsb (fun id => (Conversation.id c =? id)%string)
                     (map ConversationMember.conversationId
                        (order (Some (App.joinedAt_key, desc))
                           (memberships_of (s_db s) userId))))
                     (Some (Conversation.lastMessageAt, desc)) None
                     (Db.conversations (s_db s)))
                  reads_conversation_details).
    rewrite !add_trace_app. eexists. split; [|reflexivity].
    rewrite !forallb_app, Htr. reflexivity.
Qed.

(* ================================================================= *)
(** ** The store's queries *)

Section SelectFacts.
Context {A : Type}.
Variable key : A -> Z.
Variable d : Direction.

Lemma key_le_spec (x y : A) : key_le key d x y = true <-> in_order key d x y.
Proof. unfold key_le, in_order. destruct d; apply Z.leb_le. Qed.

Lemma key_le_total (x y : A) : key_le key d x y = false -> in_order key d y x.
Proof.
  unfold key_le, in_order. destruct d; intros H; apply Z.leb_gt in H; lia.
Qed.

Lemma in_order_trans (x y z : A) : in_order key d x y -> in_order key d y z -> in_order key d x z.
Proof. unfold in_order. destruct d; lia. Qed.

Lemma In_insert_by (x y : A) (l : list A) :
  In y (insert_by (key_le key d) x l) <-> y = x \/ In y l.
Proof.
  induction l as [|z l IH]; simpl.
  - intuition.
  - destruct (key_le key d x z); simpl; rewrite ?IH; intuition.
Qed.

Lemma In_sort_by (y : A) (l : list A) :
  In y (sort_by (key_le key d) l) <-> In y l.
Proof.
  induction l as [|x l IH]; simpl; [tauto|].
  rewrite In_insert_by, IH. intuition.
Qed.

Lemma insert_by_sorted (x : A) (l : list A) :
  StronglySorted (in_order key d) l ->
  StronglySorted (in_order key d) (insert_by (key_le key d) x l).
Proof.
  induction 1 as [|z l Hl IH Hz]; simpl.
  - repeat constructor.
  - destruct (key_le key d x z) eqn:E.
    + apply key_le_spec in E. constructor.
      * now constructor.
      * constructor; [exact E|].
        eapply Forall_impl; [|exact Hz].
        intros w Hw. now apply in_order_trans with z.
    + apply key_le_total in E. constructor; [exact IH|].
      apply Forall_forall. intros w Hw.
      apply In_insert_by in Hw. destruct Hw as [->|Hw]; [exact E|].
      now apply (proj1 (Forall_forall _ _) Hz).
Qed.

Lemma sort_by_sorted (l : list A) :
  StronglySorted (in_order key d) (sort_by (key_le key d) l).
Proof.
  induction l; simpl; [constructor|]. now apply insert_by_sorted.
Qed.

(** The first record of an ordered answer comes before all the others. *)
Lemma sort_by_head (x : A) (l rest : list A) :
  sort_by (key_le key d) l = x :: rest ->
  In x l /\ forall y, In y l -> in_order key d x y.
Proof.
  intros E. split.
  - apply In_sort_by. rewrite E. now left.
  - intros y Hy. apply In_sort_by in Hy. rewrite E in Hy.
    pose proof (sort_by_sorted l) as S. rewrite E in S.
    apply StronglySorted_inv in S. destruct S as [_ S].
    destruct Hy as [<-|Hy].
    + unfold in_order. destruct d; lia.
    + now apply (proj1 (Forall_forall _ _) S).
Qed.

Lemma sort_by_nil (l : list A) : sort_by (key_le key d) l = [] -> l = [].
Proof.
  intros E. destruct l as [|x l]; [reflexivity|].
  assert (H : In x (sort_by (key_le key d) (x :: l)))
    by (apply In_sort_by; now left).
  rewrite E in H. destruct H.
Qed.

End SelectFacts.

(* ================================================================= *)
(** ** Trimming *)

Lemma drop_first_whitespace (p s : string) :
  In p Js.whitespace ->
  Js.drop_first Js.whitespace (p ++ s)%string = Some s /\ p <> "".
Proof.
  intros H. vm_compute in H.
  repeat (destruct H as [<-|H]; [split; [reflexivity|discriminate]|]).
  destruct H.
Qed.

Lemma length_append (p s : string) :
  String.length (p ++ s) = (String.length p + String.length s)%nat.
Proof. induction p; simpl; [reflexivity|now f_equal]. Qed.

Lemma strip_ws_only (s : string) :
  Js.ws_only s ->
  forall n, (String.length s <= n)%nat -> Js.strip Js.whitespace n s = "".
Proof.
  induction 1 as [|p s Hp Hs IH]; intros n Hn.
  - destruct n; reflexivity.
  - destruct (drop_first_whitespace p s Hp) as [E Hne].
    destruct n as [|n].
    + destruct p; [contradiction|simpl in Hn; lia].
    + change (Js.strip Js.whitespace (S n) (p ++ s)%string)
        with (match Js.drop_first Js.whitespace (p ++ s)%string with
              | Some r => Js.strip Js.whitespace n r
              | None => (p ++ s)%string
              end).
      rewrite E. apply IH.
      rewrite length_append in Hn.
      destruct p; [contradiction|simpl in Hn; lia].
Qed.

Lemma trim_ws_only (s : string) : Js.ws_only s -> Js.trim s = "".
Proof.
  intros H. unfold Js.trim, Js.trimStart.
  now rewrite (strip_ws_only s H).
Qed.

(** C7: when the typed text is empty or made of whitespace only,
    [sendMessage] returns before its first statement: the whole state, and
    so the store, the log of store calls and the message thread, is left as
    it was, whoever sends and whatever the conversation. *)
Theorem sendMessage_blank_unchanged
    (user : User.t) (conversation : ConversationView) (onRefresh : M unit)
    (s : State) :
  Js.ws_only (s_newMessage s) ->
  ChatView.sendMessage user conversation onRefresh s = (Ok tt, s).
Proof.
  intros H. unfold ChatView.sendMessage.
  rewrite !bind_gets, (trim_ws_only _ H). reflexivity.
Qed.

(* ================================================================= *)
(** ** The conversation directory *)

Lemma preview_content_cases (msg : Message.t) :
  (forall c, Message.content msg = Some c -> c <> "" ->
             App.preview_content msg = c) /\
  (Message.content msg = None \/ Message.content msg = Some "" ->
   Message.messageType msg = file ->
   (forall n, Message.fileName msg = Some n ->
              App.preview_content msg = ("📎 " ++ n)%string)
   /\ (Message.fileName msg = None ->
       App.preview_content msg = "📎 undefined")) /\
  (Message.content msg = None \/ Message.content msg = Some "" ->
   Message.messageType msg <> file ->
   App.preview_content msg = "File").
Proof.
  unfold App.preview_content, Js.or_else. split; [|split].
  - intros c -> Hc. apply String.eqb_neq in Hc. now rewrite Hc.
  - intros [->| ->] ->; (split; [intros n ->|intros ->]); reflexivity.
  - intros [->| ->] Hf; simpl; destruct (Message.messageType msg);
      try reflexivity; contradiction.
Qed.

(** C8: after a load that the store answers, every entry of the
    conversation list whose conversation has messages carries a preview
    taken from a most recent message of that conversation: the message's
    content when it is non-empty; otherwise, for a message of type [file],
    the paperclip, a space and the file name of the message (the word
    undefined when the message has no file name), and the word File for
    every other type, [image] included. *)
Theorem loadConversations_preview
    (userId : string) (s : State) (cv : ConversationView) :
  s_faults s = [] ->
  In cv (s_conversations (snd (App.loadConversations userId s))) ->
  messages_of (s_db s) (Conversation.id (cv_conv cv)) <> [] ->
  exists msg lm,
    In msg (messages_of (s_db s) (Conversation.id (cv_conv cv))) /\
    (forall m, In m (messages_of (s_db s) (Conversation.id (cv_conv cv))) ->
               Message.createdAt m <= Message.createdAt msg) /\
    cv_lastMessage cv = Some lm /\
    (forall c, Message.content msg = Some c -> c <> "" -> lm_content lm = c) /\
    (Message.content msg = None \/ Message.content msg = Some "" ->
     Message.messageType msg = file ->
     (forall n, Message.fileName msg = Some n ->
                lm_content lm = ("📎 " ++ n)%string)
     /\ (Message.fileName msg = None -> lm_content lm = "📎 undefined")) /\
    (Message.content msg = None \/ Message.content msg = Some "" ->
     Message.messageType msg <> file ->
     lm_content lm = "File").
Proof.
  intros Hs Hin Hne.
  destruct (loadConversations_ok userId s Hs) as (tr & _ & E).
  rewrite E in Hin. simpl in Hin. unfold directory_of in Hin.
  destruct (List.length _ =? 0)%nat; [destruct Hin|].
  apply in_map_iff in Hin. destruct Hin as (c & <- & _).
  simpl cv_conv in *. unfold details_of, latest_message, select, take_limit, order.
  fold (messages_of (s_db s) (Conversation.id c)).
  destruct (sort_by (key_le Message.createdAt desc)
              (messages_of (s_db s) (Conversation.id c))) as [|msg rest] eqn:Es.
  - apply sort_by_nil in Es. contradiction.
  - apply sort_by_head in Es. destruct Es as [Hmsg Hmax].
    simpl. eexists msg, _. split; [exact Hmsg|]. split; [exact Hmax|].
    split; [reflexivity|]. simpl. apply preview_content_cases.
Qed.

(** C5: for a user without membership records, [loadConversations] issues
    exactly one store call, the membership query, hence no conversation,
    message or user lookup; and when that query is answered it sets the
    conversation list to the empty list and changes nothing else. *)
Theorem loadConversations_no_membership (userId : string) (s : State) :
  memberships_of (s_db s) userId = [] ->
  s_trace (snd (App.loadConversations userId s))
  = s_trace s ++ [CallList ConversationMembers]
  /\ (hd false (s_faults s) = false ->
      App.loadConversations userId s
      = (Ok tt,
         with_conversations []
           (with_faults (tl (s_faults s))
              (add_trace [CallList ConversationMembers] s)))).
Proof.
  intros H.
  unfold App.loadConversations, try_catch, blink.list, bind, store_call, gets,
    select.
  unfold memberships_of in H.
  destruct (hd false (s_faults s)); simpl.
  - split; [reflexivity|discriminate].
  - rewrite H. simpl. split; reflexivity.
Qed.

(* ================================================================= *)
(** ** Invite redemption *)

Lemma select_find {A} (w : A -> bool) (l : list A) :
  select w None (Some 1%nat) l
  = match find w l with Some x => [x] | None => [] end.
Proof.
  unfold select, take_limit, order.
  induction l as [|x l IH]; simpl; [reflexivity|].
  destruct (w x); [reflexivity|exact IH].
Qed.

Lemma invite_expired_run {B} (invite : Invite.t) (k : bool -> M B) (s : State) :
  bind (App.invite_expired invite) k s
  = k (is_expired invite (next_now s)) (after_expiry_check invite s).
Proof.
  unfold App.invite_expired, is_expired, after_expiry_check, next_now.
  destruct (Invite.expiresAt invite) as [e|]; [|reflexivity].
  simpl. destruct (e =? 0); reflexivity.
Qed.

Lemma after_expiry_check_frame (invite : Invite.t) (s : State) :
  s_db (after_expiry_check invite s) = s_db s
  /\ s_faults (after_expiry_check invite s) = s_faults s
  /\ s_trace (after_expiry_check invite s) = s_trace s
  /\ s_toasts (after_expiry_check invite s) = s_toasts s
  /\ s_rand (after_expiry_check invite s) = s_rand s.
Proof.
  unfold after_expiry_check.
  destruct (Js.truthy_num _); repeat split; reflexivity.
Qed.

Lemma bind_loadConversations {B} (userId : string) (k : unit -> M B) (s : State) :
  s_faults s = [] ->
  exists tr, forallb is_read tr = true /\
    bind (App.loadConversations userId) k s
    = k tt (with_conversations (directory_of (s_db s) userId) (add_trace tr s)).
Proof.
  intros Hs. destruct (loadConversations_ok userId s Hs) as (tr & Htr & E).
  exists tr. split; [exact Htr|]. unfold bind. now rewrite E.
Qed.

(** The first store call of the redemption, when it is answered. *)
Lemma handleInviteJoin_lookup (currentUser : User.t) (code : string) (s : State)
    (k : list Invite.t -> M unit) (h : M unit) :
  hd false (s_faults s) = false ->
  try_catch
    (bind (blink.list Invites Db.invites
             (fun i => (Invite.inviteCode i =? code)%string
                       && Bool.eqb (Invite.isActive i) true)
             None (Some 1%nat)) k) h s
  = try_catch
      (k (match redeemed_invite (s_db s) code with
          | Some x => [x]
          | None => []
          end)) h
      (with_faults (tl (s_faults s)) (add_trace [CallList Invites] s)).
Proof.
  intros Hf. unfold try_catch, blink.list, bind, store_call, gets.
  rewrite Hf, select_find. reflexivity.
Qed.

(** An invite that the lookup does not return is refused as invalid,
    without any write. *)
Lemma handleInviteJoin_invalid (currentUser : User.t) (code : string) (s : State) :
  hd false (s_faults s) = false ->
  redeemed_invite (s_db s) code = None ->
  App.handleInviteJoin currentUser code s
  = (Ok tt,
     add_toast App.invalid_invite
       (with_faults (tl (s_faults s)) (add_trace [CallList Invites] s))).
Proof.
  intros Hf Hi. unfold App.handleInviteJoin.
  rewrite (handleInviteJoin_lookup currentUser) by exact Hf.
  rewrite Hi. reflexivity.
Qed.

Lemma handleInviteJoin_expired_run
    (currentUser : User.t) (code : string) (s : State) (invite : Invite.t) (e : Z) :
  hd false (s_faults s) = false ->
  redeemed_invite (s_db s) code = Some invite ->
  Invite.expiresAt invite = Some e ->
  e <> 0 ->
  e < next_now s ->
  App.handleInviteJoin currentUser code s
  = (Ok tt,
     add_toast App.expired_invite
       (with_clock (next_now s) (tl (s_ticks s))
          (with_faults (tl (s_faults s)) (add_trace [CallList Invites] s)))).
Proof.
  intros Hf Hi He Hz Hlt. unfold App.handleInviteJoin.
  rewrite (handleInviteJoin_lookup currentUser) by exact Hf.
  rewrite Hi. unfold try_catch. rewrite invite_expired_run.
  unfold is_expired, after_expiry_check, next_now in *. rewrite He. simpl.
  apply Z.eqb_neq in Hz. apply Z.ltb_lt in Hlt. simpl in Hlt.
  rewrite Hz, Hlt. reflexivity.
Qed.

(** C2 (amended): an invite returned by the active lookup whose
    [expiresAt] is set, not 0, and earlier than the clock reading of the
    redemption is refused with the expired notification; the store is left
    as it was and the only store call is the invite lookup, so no
    membership is written and [currentUses] is not updated. *)
Theorem handleInviteJoin_expired
    (currentUser : User.t) (code : string) (s : State) (invite : Invite.t) (e : Z) :
  hd false (s_faults s) = false ->
  redeemed_invite (s_db s) code = Some invite ->
  Invite.expiresAt invite = Some e ->
  e <> 0 ->
  e < next_now s ->
  exists s',
    App.handleInviteJoin currentUser code s = (Ok tt, s')
    /\ s_toasts s' = s_toasts s ++ [App.expired_invite]
    /\ s_db s' = s_db s
    /\ s_trace s' = s_trace s ++ [CallList Invites].
Proof.
  intros Hf Hi He Hz Hlt. eexists. split.
  - exact (handleInviteJoin_expired_run currentUser code s invite e Hf Hi He Hz Hlt).
  - repeat split.
Qed.

Lemma handleInviteJoin_exhausted_run
    (currentUser : User.t) (code : string) (s : State) (invite : Invite.t) :
  hd false (s_faults s) = false ->
  redeemed_invite (s_db s) code = Some invite ->
  is_expired invite (next_now s) = false ->
  App.invite_exhausted invite = true ->
  App.handleInviteJoin currentUser code s
  = (Ok tt,
     add_toast App.invite_limit_reached
       (after_expiry_check invite
          (with_faults (tl (s_faults s)) (add_trace [CallList Invites] s)))).
Proof.
  intros Hf Hi He Hx. unfold App.handleInviteJoin.
  rewrite (handleInviteJoin_lookup currentUser) by exact Hf.
  rewrite Hi. unfold try_catch. rewrite invite_expired_run.
  change (next_now (with_faults (tl (s_faults s)) (add_trace [CallList Invites] s)))
    with (next_now s).
  rewrite He, Hx. reflexivity.
Qed.

(** C3 (amended): an invite returned by the active lookup that is not
    expired, whose [maxUses] is set and not 0 and whose [currentUses] has
    reached it (equals it, or exceeds it) is refused with the limit
    notification; the store is left as it was and the only store call is
    the invite lookup, so no membership is created and [currentUses] stays. *)
Theorem handleInviteJoin_limit_reached
    (currentUser : User.t) (code : string) (s : State) (invite : Invite.t) (m : Z) :
  hd false (s_faults s) = false ->
  redeemed_invite (s_db s) code = Some invite ->
  is_expired invite (next_now s) = false ->
  Invite.maxUses invite = Some m ->
  m <> 0 ->
  m <= Invite.currentUses invite ->
  exists s',
    App.handleInviteJoin currentUser code s = (Ok tt, s')
    /\ s_toasts s' = s_toasts s ++ [App.invite_limit_reached]
    /\ s_db s' = s_db s
    /\ s_trace s' = s_trace s ++ [CallList Invites].
Proof.
  intros Hf Hi He Hm Hz Hle. eexists. split.
  - apply (handleInviteJoin_exhausted_run currentUser code s invite);
      try assumption.
    unfold App.invite_exhausted. rewrite Hm. simpl.
    apply Z.eqb_neq in Hz. rewrite Hz. simpl. apply Z.geb_le. lia.
  - destruct (after_expiry_check_frame invite
                (with_faults (tl (s_faults s)) (add_trace [CallList Invites] s)))
      as (Hd & _ & Ht & Ho & _).
    simpl. rewrite Hd, Ht, Ho. repeat split.
Qed.

Lemma bind_Date_now {B} (k : Z -> M B) (s : State) :
  bind Date_now k s = k (next_now s) (with_clock (next_now s) (tl (s_ticks s)) s).
Proof. reflexivity. Qed.

Lemma bind_random_suffix {B} (k : string -> M B) (s : State) :
  bind random_suffix k s = k (hd "" (s_rand s)) (with_rand (tl (s_rand s)) s).
Proof. reflexivity. Qed.

(** A redemption that passes the three checks, with a store that answers. *)
Lemma handleInviteJoin_valid_run
    (currentUser : User.t) (code : string) (s : State) (invite : Invite.t) :
  s_faults s = [] ->
  redeemed_invite (s_db s) code = Some invite ->
  is_expired invite (next_now s) = false ->
  App.invite_exhausted invite = false ->
  let s1 :=
    add_trace [CallList ConversationMembers]
      (after_expiry_check invite (add_trace [CallList Invites] s)) in
  let s2 :=
    match membership (s_db s) (Invite.conversationId invite) (User.id currentUser) with
    | Some _ => s1
    | None => enroll currentUser invite s1
    end in
  exists tr, forallb is_read tr = true /\
    App.handleInviteJoin currentUser code s
    = (Ok tt,
       add_toast App.joined_chat
         (select_conversation (Invite.conversationId invite)
            (add_trace [CallList Conversations]
               (with_conversations (directory_of (s_db s2) (User.id currentUser))
                  (add_trace tr s2))))).
Proof.
  intros Hs Hi He Hx s1 s2.
  destruct (after_expiry_check_frame invite (add_trace [CallList Invites] s))
    as (Hd0 & Hf0 & _).
  assert (Hf1 : s_faults s1 = []) by (subst s1; simpl; rewrite Hf0; exact Hs).
  assert (Hd1 : s_db s1 = s_db s) by (subst s1; simpl; exact Hd0).
  assert (Hf2 : s_faults s2 = []).
  { subst s2. destruct (membership _ _ _); [exact Hf1|exact Hf1]. }
  unfold App.handleInviteJoin, try_catch.
  step_list. rewrite select_find. fold (redeemed_invite (s_db s) code). rewrite Hi.
  rewrite invite_expired_run.
  change (next_now (add_trace [CallList Invites] s)) with (next_now s).
  rewrite He, Hx.
  rewrite bind_list by (rewrite Hf0; exact Hs).
  fold s1. rewrite select_find, Hd0.
  fold (membership (s_db s) (Invite.conversationId invite) (User.id currentUser)).
  assert (Hstep : forall (k : unit -> M unit),
    bind (if (List.length
                (match membership (s_db s) (Invite.conversationId invite)
                         (User.id currentUser) with
                 | Some x => [x]
                 | None => []
                 end) =? 0)%nat
          then
            now <- Date_now ;;
            r <- random_suffix ;;
            blink.create ConversationMembers Db.conversationMembers
              Db.set_conversationMembers
              (ConversationMember.mk
                 ("member_" ++ Js.num_to_string now ++ "_" ++ r)
                 (Invite.conversationId invite) (User.id currentUser)
                 (if Js.truthy_bool (User.isGuest currentUser)
                  then guest else member) None) ;;
            blink.update Invites Db.invites Db.set_invites Invite.id
              (Invite.id invite)
              (App.set_currentUses (Invite.currentUses invite + 1))
          else ret tt) k s1 = k tt s2).
  { intros k. subst s2.
    destruct (membership _ _ _) as [m|]; simpl List.length; simpl Nat.eqb; cbv iota.
    - reflexivity.
    - rewrite bind_assoc, bind_Date_now, bind_assoc, bind_random_suffix.
      rewrite bind_assoc, bind_create by (simpl; exact Hf1).
      rewrite bind_update by (simpl; exact Hf1).
      reflexivity. }
  rewrite Hstep.
  destruct (bind_loadConversations (User.id currentUser)
              (fun _ =>
                 conv <- blink.list Conversations Db.conversations
                           (fun c => (Conversation.id c =? Invite.conversationId invite)%string)
                           None (Some 1%nat) ;;
                 match conv with
                 | c :: _ => setSelectedConversation (App.view_of c)
                 | [] => ret tt
                 end ;;
                 toast App.joined_chat) s2 Hf2) as (tr & Htr & E).
  rewrite E. clear E. exists tr. split; [exact Htr|].
  step_list. rewrite select_find. unfold select_conversation, conversation_by_id.
  simpl s_db.
  destruct (find _ (Db.conversations (s_db s2))); reflexivity.
Qed.

Lemma find_In {A} (w : A -> bool) (l : list A) (x : A) :
  In x l -> w x = true -> exists y, find w l = Some y /\ In y l /\ w y = true.
Proof.
  intros Hx Hw. destruct (find w l) as [y|] eqn:E.
  - exists y. split; [reflexivity|]. now apply find_some in E.
  - apply (find_none _ _ E) in Hx. congruence.
Qed.

(** C9: a user who already is a member of the conversation of a valid
    invite (active, not expired, under its cap) redeems it: the store is
    left as it was and only read calls are issued, so no membership is
    created and [currentUses] stays; the flow still completes: the
    conversation list is reloaded from the store, the conversation of the
    invite is selected (its record as the store holds it, without preview
    and without member list) and the joined notification is shown. *)
Theorem handleInviteJoin_already_member
    (currentUser : User.t) (code : string) (s : State) (invite : Invite.t)
    (m : ConversationMember.t) (c : Conversation.t) :
  s_faults s = [] ->
  redeemed_invite (s_db s) code = Some invite ->
  (forall e, Invite.expiresAt invite = Some e -> next_now s <= e) ->
  (forall n, Invite.maxUses invite = Some n -> Invite.currentUses invite < n) ->
  In m (Db.conversationMembers (s_db s)) ->
  ConversationMember.conversationId m = Invite.conversationId invite ->
  ConversationMember.userId m = User.id currentUser ->
  In c (Db.conversations (s_db s)) ->
  Conversation.id c = Invite.conversationId invite ->
  exists s' tr c',
    App.handleInviteJoin currentUser code s = (Ok tt, s')
    /\ s_db s' = s_db s
    /\ s_trace s' = s_trace s ++ tr
    /\ forallb is_read tr = true
    /\ s_conversations s' = directory_of (s_db s) (User.id currentUser)
    /\ s_selectedConversation s' = Some (mkConversationView c' None None)
    /\ In c' (Db.conversations (s_db s))
    /\ Conversation.id c' = Invite.conversationId invite
    /\ s_toasts s' = s_toasts s ++ [App.joined_chat].
Proof.
  intros Hs Hi He Hx Hm Hmc Hmu Hc Hcid.
  assert (He' : is_expired invite (next_now s) = false).
  { unfold is_expired. destruct (Invite.expiresAt invite) as [e|] eqn:E; [|reflexivity].
    specialize (He e eq_refl). apply andb_false_iff. right. apply Z.ltb_ge. exact He. }
  assert (Hx' : App.invite_exhausted invite = false).
  { unfold App.invite_exhausted. destruct (Invite.maxUses invite) as [n|] eqn:E; [|reflexivity].
    specialize (Hx n eq_refl). apply andb_false_iff. right.
    rewrite Z.geb_leb. apply Z.leb_gt. exact Hx. }
  destruct (handleInviteJoin_valid_run currentUser code s invite Hs Hi He' Hx')
    as (tr & Htr & E).
  destruct (find_In
              (fun x => (ConversationMember.conversationId x =? Invite.conversationId invite)%string
                        && (ConversationMember.userId x =? User.id currentUser)%string)
              _ m Hm) as (m' & Em & _).
  { rewrite Hmc, Hmu, !String.eqb_refl. reflexivity. }
  fold (membership (s_db s) (Invite.conversationId invite) (User.id currentUser)) in Em.
  rewrite Em in E.
  destruct (find_In (fun x => (Conversation.id x =? Invite.conversationId invite)%string)
              _ c Hc) as (c' & Ec & Hc' & Hid').
  { rewrite Hcid. apply String.eqb_refl. }
  apply String.eqb_eq in Hid'.
  destruct (after_expiry_check_frame invite (add_trace [CallList Invites] s))
    as (Hd0 & _ & Ht0 & Ho0 & _).
  unfold select_conversation, conversation_by_id in E. simpl s_db in E.
  rewrite Hd0 in E. simpl s_db in E. rewrite Ec in E.
  eexists _, ([CallList Invites] ++ [CallList ConversationMembers] ++ tr
              ++ [CallList Conversations]), c'.
  split; [exact E|]. simpl.
  rewrite Hd0, Ht0, Ho0. simpl.
  repeat split; try assumption.
  - rewrite <- !app_assoc. reflexivity.
  - rewrite forallb_app, Htr. reflexivity.
Qed.

(** C10: an invite whose [maxUses] is 0 is not stopped by the usage cap,
    whatever [currentUses] is, and an invite whose [expiresAt] is 0 is not
    stopped by the expiry check, whatever the clock reads: when the other
    check lets the invite through, a user who is not yet a member is
    enrolled (a membership record is appended, [currentUses] is raised by
    one) and the joined notification is shown. *)
Theorem handleInviteJoin_zero_is_unset
    (currentUser : User.t) (code : string) (s : State) (invite : Invite.t) :
  s_faults s = [] ->
  redeemed_invite (s_db s) code = Some invite ->
  membership (s_db s) (Invite.conversationId invite) (User.id currentUser) = None ->
  (Invite.maxUses invite = Some 0 /\ is_expired invite (next_now s) = false)
  \/ (Invite.expiresAt invite = Some 0 /\ App.invite_exhausted invite = false) ->
  exists s' now r,
    App.handleInviteJoin currentUser code s = (Ok tt, s')
    /\ Db.conversationMembers (s_db s')
       = Db.conversationMembers (s_db s) ++ [new_member currentUser invite now r]
    /\ Db.invites (s_db s') = map (bump_uses invite) (Db.invites (s_db s))
    /\ s_toasts s' = s_toasts s ++ [App.joined_chat].
Proof.
  intros Hs Hi Hm Hz.
  assert (He : is_expired invite (next_now s) = false).
  { destruct Hz as [[_ H]|[H _]]; [exact H|]. unfold is_expired. now rewrite H. }
  assert (Hx : App.invite_exhausted invite = false).
  { destruct Hz as [[H _]|[_ H]]; [|exact H]. unfold App.invite_exhausted. now rewrite H. }
  destruct (handleInviteJoin_valid_run currentUser code s invite Hs Hi He Hx)
    as (tr & _ & E).
  rewrite Hm in E.
  destruct (after_expiry_check_frame invite (add_trace [CallList Invites] s))
    as (Hd0 & _ & _ & Ho0 & _).
  eexists _, _, _. split; [exact E|].
  unfold select_conversation.
  destruct (conversation_by_id _ _); simpl; rewrite Hd0, Ho0; simpl;
    repeat split.
Qed.

(* ================================================================= *)
(** ** Private chats *)

Lemma find_private_run (targetUserId : string) (ms : list ConversationMember.t) :
  forall s, s_faults s = [] ->
  exists tr, forallb is_read tr = true /\
    App.find_private targetUserId ms s
    = match first_shared (s_db s) targetUserId ms with
      | Some c => (Ok true,
                   with_selectedConversation (Some (App.view_of c)) (add_trace tr s))
      | None => (Ok false, add_trace tr s)
      end.
Proof.
  induction ms as [|m rest IH]; intros s Hs.
  - exists []. split; [reflexivity|]. simpl. now rewrite add_trace_nil.
  - simpl App.find_private. simpl first_shared. unfold shared_through.
    step_list. rewrite select_find.
    destruct (find _ (Db.conversations (s_db s))) as [c|].
    + step_list.
      change (s_db (add_trace [CallList Conversations] s)) with (s_db s).
      change (select (fun m0 => (ConversationMember.conversationId m0 =? Conversation.id c)%string)
                None None (Db.conversationMembers (s_db s)))
        with (members_of (s_db s) (Conversation.id c)).
      destruct ((List.length (members_of (s_db s) (Conversation.id c)) =? 2)%nat
                && existsb _ (members_of (s_db s) (Conversation.id c))).
      * eexists. split; [|rewrite add_trace_app; reflexivity]. reflexivity.
      * destruct (IH (add_trace ([CallList Conversations] ++ [CallList ConversationMembers]) s) Hs)
          as (tr & Htr & E).
        rewrite add_trace_app, E. simpl s_db.
        exists (([CallList Conversations] ++ [CallList ConversationMembers]) ++ tr).
        split; [rewrite forallb_app, Htr; reflexivity|].
        rewrite !add_trace_app. reflexivity.
    + destruct (IH (add_trace [CallList Conversations] s) Hs) as (tr & Htr & E).
      rewrite E. simpl s_db.
      exists ([CallList Conversations] ++ tr).
      split; [rewrite forallb_app, Htr; reflexivity|].
      rewrite !add_trace_app. reflexivity.
Qed.

Lemma first_shared_some (d : Db.t) (targetUserId : string)
    (ms : list ConversationMember.t) (c : Conversation.t) :
  first_shared d targetUserId ms = Some c ->
  exists m, In m ms /\ shared_through d targetUserId m = Some c.
Proof.
  induction ms as [|m rest IH]; simpl; [discriminate|].
  destruct (shared_through d targetUserId m) as [c'|] eqn:E.
  - intros H. inversion H; subst. exists m. tauto.
  - intros H. destruct (IH H) as (m' & Hin & Hm'). exists m'. tauto.
Qed.

Lemma first_shared_exists (d : Db.t) (targetUserId : string)
    (ms : list ConversationMember.t) (m : ConversationMember.t) :
  In m ms -> shared_through d targetUserId m <> None ->
  first_shared d targetUserId ms <> None.
Proof.
  induction ms as [|m' rest IH]; simpl; [tauto|].
  intros [->|Hin] Hm.
  - destruct (shared_through d targetUserId m); [discriminate|contradiction].
  - destruct (shared_through d targetUserId m'); [discriminate|now apply IH].
Qed.

Lemma ConversationType_eqb_eq (a b : ConversationType) :
  ConversationType_eqb a b = true <-> a = b.
Proof. destruct a, b; simpl; split; congruence. Qed.

Lemma shared_through_sound (d : Db.t) (userId targetUserId : string)
    (m : ConversationMember.t) (c : Conversation.t) :
  In m (Db.conversationMembers d) ->
  ConversationMember.userId m = userId ->
  shared_through d targetUserId m = Some c ->
  shares_private d userId targetUserId c.
Proof.
  intros Hm Hu. unfold shared_through.
  destruct (find _ (Db.conversations d)) as [c'|] eqn:Ef; [|discriminate].
  destruct (_ && _) eqn:Ec; [|discriminate].
  intros H. inversion H; subst c'. clear H.
  apply find_some in Ef. destruct Ef as [Hin Hw].
  apply andb_true_iff in Hw. destruct Hw as [Hid Hty].
  apply String.eqb_eq in Hid. apply ConversationType_eqb_eq in Hty.
  apply andb_true_iff in Ec. destruct Ec as [Hlen Hex].
  apply Nat.eqb_eq in Hlen. apply existsb_exists in Hex.
  destruct Hex as (mB & HmB & HB). apply String.eqb_eq in HB.
  repeat split; try assumption.
  - exists m. repeat split; [assumption|assumption|now symmetry].
  - exists mB. tauto.
Qed.

Lemma shared_through_complete (d : Db.t) (userId targetUserId : string)
    (c : Conversation.t) :
  shares_private d userId targetUserId c ->
  exists m, In m (memberships_of d userId)
            /\ shared_through d targetUserId m <> None.
Proof.
  intros (Hc & Hty & (m & Hm & Hu & Hmc) & Hlen & (mB & HmB & HB)).
  exists m. split.
  - apply filter_In. split; [exact Hm|]. rewrite Hu. apply String.eqb_refl.
  - unfold shared_through.
    destruct (find_In
                (fun x => (Conversation.id x =? ConversationMember.conversationId m)%string
                          && ConversationType_eqb (Conversation.type x) private)
                _ c Hc) as (c' & Ef & _ & Hw).
    { rewrite Hmc, Hty, String.eqb_refl. reflexivity. }
    rewrite Ef.
    apply andb_true_iff in Hw. destruct Hw as [Hid _].
    apply String.eqb_eq in Hid. rewrite Hid, Hmc, Hlen.
    replace (existsb _ (members_of d (Conversation.id c))) with true.
    + discriminate.
    + symmetry. apply existsb_exists. exists mB. split; [exact HmB|].
      rewrite HB. apply String.eqb_refl.
Qed.

(** C1: when the signed-in user and the target already share a private
    conversation, [handleCreatePrivateChat] selects a private conversation
    they share (the existing one, when there is only one): the selection
    is the record of that conversation as the store holds it, without
    preview and without member list.  The store is left as it was and
    read calls only are issued: no conversation record and no membership
    record is created. *)
Theorem handleCreatePrivateChat_existing
    (user : User.t) (targetUserId : string) (s : State) (c : Conversation.t) :
  s_user s = Some user ->
  s_faults s = [] ->
  shares_private (s_db s) (User.id user) targetUserId c ->
  exists s' tr c',
    App.handleCreatePrivateChat targetUserId s = (Ok tt, s')
    /\ s_selectedConversation s' = Some (mkConversationView c' None None)
    /\ shares_private (s_db s) (User.id user) targetUserId c'
    /\ ((forall c2, shares_private (s_db s) (User.id user) targetUserId c2 -> c2 = c)
        -> c' = c)
    /\ s_db s' = s_db s
    /\ s_trace s' = s_trace s ++ tr
    /\ forallb is_read tr = true.
Proof.
  intros Hu Hs Hc.
  unfold App.handleCreatePrivateChat. rewrite bind_gets, Hu. unfold try_catch.
  step_list.
  change (select (fun m => (ConversationMember.userId m =? User.id user)%string)
            None None (Db.conversationMembers (s_db s)))
    with (memberships_of (s_db s) (User.id user)).
  destruct (find_private_run targetUserId (memberships_of (s_db s) (User.id user))
              (add_trace [CallList ConversationMembers] s) Hs) as (tr & Htr & E).
  unfold bind at 1. rewrite E. simpl s_db.
  destruct (first_shared (s_db s) targetUserId (memberships_of (s_db s) (User.id user)))
    as [c'|] eqn:Ef.
  - apply first_shared_some in Ef. destruct Ef as (m & Hm & Hsh).
    apply filter_In in Hm. destruct Hm as [Hm Hmu]. apply String.eqb_eq in Hmu.
    eexists _, ([CallList ConversationMembers] ++ tr), c'.
    split; [reflexivity|]. simpl.
    split; [reflexivity|].
    split; [exact (shared_through_sound _ _ _ _ _ Hm Hmu Hsh)|].
    split; [intros Huniq; apply Huniq;
            exact (shared_through_sound _ _ _ _ _ Hm Hmu Hsh)|].
    split; [reflexivity|].
    split; [rewrite <- app_assoc; reflexivity|exact Htr].
  - exfalso. destruct (shared_through_complete _ _ _ _ Hc) as (m & Hm & Hne).
    exact (first_shared_exists _ _ _ _ Hm Hne Ef).
Qed.

(** When the scan finds no shared private conversation, one conversation
    record of type [private] and a batch of two membership records are
    created. *)
Lemma handleCreatePrivateChat_new
    (user : User.t) (targetUserId : string) (s : State) :
  s_user s = Some user ->
  s_faults s = [] ->
  first_shared (s_db s) targetUserId (memberships_of (s_db s) (User.id user)) = None ->
  exists s' c m1 m2 tr,
    App.handleCreatePrivateChat targetUserId s = (Ok tt, s')
    /\ Db.conversations (s_db s') = Db.conversations (s_db s) ++ [c]
    /\ Conversation.type c = private
    /\ Db.conversationMembers (s_db s')
       = Db.conversationMembers (s_db s) ++ [m1; m2]
    /\ ConversationMember.conversationId m1 = Conversation.id c
    /\ ConversationMember.conversationId m2 = Conversation.id c
    /\ ConversationMember.userId m1 = User.id user
    /\ ConversationMember.userId m2 = targetUserId
    /\ ConversationMember.role m1 = member
    /\ ConversationMember.role m2 = member
    /\ s_trace s' = s_trace s ++ tr
    /\ s_toasts s' = s_toasts s ++ [App.private_chat_created]
    /\ Conversation.lastMessageAt c <= s_now s'
    /\ s_now s <= s_now s'.
Proof.
  intros Hu Hs Hnone.
  unfold App.handleCreatePrivateChat. rewrite bind_gets, Hu. unfold try_catch.
  step_list.
  change (select (fun m => (ConversationMember.userId m =? User.id user)%string)
            None None (Db.conversationMembers (s_db s)))
    with (memberships_of (s_db s) (User.id user)).
  destruct (find_private_run targetUserId (memberships_of (s_db s) (User.id user))
              (add_trace [CallList ConversationMembers] s) Hs) as (t1 & Ht1 & E).
  unfold bind at 1. rewrite E. clear E.
  change (s_db (add_trace [CallList ConversationMembers] s)) with (s_db s).
  rewrite Hnone.
  rewrite bind_Date_now, bind_random_suffix, !bind_Date_now.
  rewrite bind_create by (simpl; exact Hs).
  rewrite !bind_Date_now.
  rewrite bind_createMany by (simpl; exact Hs).
  match goal with
  | |- context [bind (App.loadConversations ?u) ?k ?s0] =>
      destruct (bind_loadConversations u k s0) as (t2 & Ht2 & E);
      [simpl; exact Hs|rewrite E; clear E]
  end.
  eexists _, _, _, _, _. split; [reflexivity|]. simpl.
  unfold next_now. simpl.
  pose proof (N2Z.is_nonneg (hd 0%N (s_ticks s))).
  pose proof (N2Z.is_nonneg (hd 0%N (tl (s_ticks s)))).
  pose proof (N2Z.is_nonneg (hd 0%N (tl (tl (s_ticks s))))).
  pose proof (N2Z.is_nonneg (hd 0%N (tl (tl (tl (s_ticks s)))))).
  pose proof (N2Z.is_nonneg (hd 0%N (tl (tl (tl (tl (s_ticks s))))))).
  pose proof (N2Z.is_nonneg (hd 0%N (tl (tl (tl (tl (tl (s_ticks s)))))))).
  repeat split; try (simpl; lia).
  rewrite <- !app_assoc. reflexivity.
Qed.

(** A private-chat request keeps the stored [lastMessageAt] values behind
    the clock, whether it selects or creates. *)
Lemma handleCreatePrivateChat_timestamps_not_ahead
    (user : User.t) (targetUserId : string) (s : State) :
  s_user s = Some user ->
  s_faults s = [] ->
  timestamps_not_ahead s ->
  timestamps_not_ahead (snd (App.handleCreatePrivateChat targetUserId s)).
Proof.
  intros Hu Hs Hinv.
  destruct (first_shared (s_db s) targetUserId (memberships_of (s_db s) (User.id user)))
    as [c|] eqn:Ef.
  - unfold App.handleCreatePrivateChat. rewrite bind_gets, Hu. unfold try_catch.
    step_list.
    change (select (fun m => (ConversationMember.userId m =? User.id user)%string)
              None None (Db.conversationMembers (s_db s)))
      with (memberships_of (s_db s) (User.id user)).
    destruct (find_private_run targetUserId (memberships_of (s_db s) (User.id user))
                (add_trace [CallList ConversationMembers] s) Hs) as (t1 & Ht1 & E).
    unfold bind at 1. rewrite E. clear E.
    change (s_db (add_trace [CallList ConversationMembers] s)) with (s_db s).
    rewrite Ef. exact Hinv.
  - destruct (handleCreatePrivateChat_new user targetUserId s Hu Hs Ef)
      as (s' & c & m1 & m2 & tr & E & Hc & _ & _ & _ & _ & _ & _ & _ & _ & _ & _
          & Hlast & Hnow).
    rewrite E. simpl. intros c0 Hin. rewrite Hc in Hin.
    apply in_app_or in Hin. destruct Hin as [Hin|[<-|[]]].
    + specialize (Hinv c0 Hin). lia.
    + exact Hlast.
Qed.

(* ================================================================= *)
(** ** Groups *)

Lemma with_clock_same (s : State) : with_clock (s_now s) (s_ticks s) s = s.
Proof. destruct s; reflexivity. Qed.

Lemma push_members_run (conversationId : string) (memberIds : list string) :
  forall (index : nat) (s : State),
  exists others n t,
    App.push_members conversationId index memberIds s
    = (Ok others, with_clock n t s)
    /\ s_now s <= n
    /\ map ConversationMember.userId others = memberIds
    /\ Forall (fun r => ConversationMember.conversationId r = conversationId
                        /\ ConversationMember.role r = member) others.
Proof.
  induction memberIds as [|memberId rest IH]; intros index s.
  - exists [], (s_now s), (s_ticks s). rewrite with_clock_same.
    repeat split; [lia|constructor].
  - simpl App.push_members. rewrite bind_Date_now.
    destruct (IH (S index) (with_clock (next_now s) (tl (s_ticks s)) s))
      as (others & n & t & E & Hn & Hu & Hr).
    unfold bind at 1. rewrite E.
    eexists (_ :: others), n, t. split; [reflexivity|]. split; [|split].
    + simpl in Hn. unfold next_now in Hn.
      pose proof (N2Z.is_nonneg (hd 0%N (s_ticks s))). lia.
    + simpl. now rewrite Hu.
    + constructor; [split; reflexivity|exact Hr].
Qed.

(** A group creation with a store that answers: one conversation record
    and one batch of membership records, the creator's first. *)
Lemma handleCreateGroup_ok
    (user : User.t) (name description : string) (memberIds : list string)
    (s : State) :
  s_user s = Some user ->
  s_faults s = [] ->
  exists s' c creator others tr,
    App.handleCreateGroup name description memberIds s = (Ok tt, s')
    /\ Db.conversations (s_db s') = Db.conversations (s_db s) ++ [c]
    /\ Conversation.type c = group
    /\ Conversation.name c = Some name
    /\ Conversation.description c = Some description
    /\ Conversation.createdBy c = User.id user
    /\ Db.conversationMembers (s_db s')
       = Db.conversationMembers (s_db s) ++ creator :: others
    /\ ConversationMember.conversationId creator = Conversation.id c
    /\ ConversationMember.userId creator = User.id user
    /\ ConversationMember.role creator
       = (if Js.truthy_bool (User.isGuest user) then guest else admin)
    /\ map ConversationMember.userId others = memberIds
    /\ Forall (fun r => ConversationMember.conversationId r = Conversation.id c
                        /\ ConversationMember.role r = member) others
    /\ s_trace s' = s_trace s
         ++ [CallCreate Conversations; CallCreateMany ConversationMembers] ++ tr
    /\ forallb is_read tr = true
    /\ s_toasts s' = s_toasts s ++ [App.group_created]
    /\ Conversation.lastMessageAt c <= s_now s'
    /\ s_now s <= s_now s'.
Proof.
  intros Hu Hs.
  unfold App.handleCreateGroup. rewrite bind_gets, Hu. unfold try_catch.
  rewrite bind_Date_now, bind_random_suffix, !bind_Date_now.
  rewrite bind_create by (simpl; exact Hs).
  rewrite bind_Date_now.
  match goal with
  | |- context [bind (App.push_members ?cid 0 memberIds) ?k ?s0] =>
      destruct (push_members_run cid memberIds 0 s0)
        as (others & n & t & E & Hn & Hids & Hothers);
      unfold bind at 1; rewrite E; clear E
  end.
  rewrite bind_createMany by (simpl; exact Hs).
  match goal with
  | |- context [bind (App.loadConversations ?u) ?k ?s0] =>
      destruct (bind_loadConversations u k s0) as (tr & Htr & E);
      [simpl; exact Hs|rewrite E; clear E]
  end.
  eexists _, _, _, others, tr. split; [reflexivity|]. simpl.
  simpl in Hn. unfold next_now in *. simpl in *.
  pose proof (N2Z.is_nonneg (hd 0%N (s_ticks s))).
  pose proof (N2Z.is_nonneg (hd 0%N (tl (s_ticks s)))).
  pose proof (N2Z.is_nonneg (hd 0%N (tl (tl (s_ticks s))))).
  pose proof (N2Z.is_nonneg (hd 0%N (tl (tl (tl (s_ticks s)))))).
  pose proof (N2Z.is_nonneg (hd 0%N (tl (tl (tl (tl (s_ticks s))))))).
  repeat split; try assumption; try (simpl; lia).
  rewrite <- !app_assoc. reflexivity.
Qed.

(** A group creation keeps the stored [lastMessageAt] values behind the
    clock. *)
Lemma handleCreateGroup_timestamps_not_ahead
    (user : User.t) (name description : string) (memberIds : list string)
    (s : State) :
  s_user s = Some user ->
  s_faults s = [] ->
  timestamps_not_ahead s ->
  timestamps_not_ahead (snd (App.handleCreateGroup name description memberIds s)).
Proof.
  intros Hu Hs Hinv.
  destruct (handleCreateGroup_ok user name description memberIds s Hu Hs)
    as (s' & c & mA & others & tr & E & Hc & _ & _ & _ & _ & _ & _ & _ & _ & _
        & _ & _ & _ & _ & Hlast & Hnow).
  rewrite E. simpl. intros c0 Hin. rewrite Hc in Hin.
  apply in_app_or in Hin. destruct Hin as [Hin|[<-|[]]].
  - specialize (Hinv c0 Hin). lia.
  - exact Hlast.
Qed.

(** C6: a signed-in user A creates the group Team with the member ids
    [B; C], and the store answers: exactly one conversation record is added,
    of type [group] and named Team, and exactly three membership records
    are added, all of that conversation: A's with role [guest] when A is
    flagged as a guest and with role [admin] otherwise, B's and C's with
    role [member]; the two writes are one create and one batch create. *)
Theorem handleCreateGroup_team
    (A : User.t) (B C description : string) (s : State) :
  s_user s = Some A ->
  s_faults s = [] ->
  exists s' c mA mB mC tr,
    App.handleCreateGroup "Team" description [B; C] s = (Ok tt, s')
    /\ Db.conversations (s_db s') = Db.conversations (s_db s) ++ [c]
    /\ Conversation.type c = group
    /\ Conversation.name c = Some "Team"
    /\ Db.conversationMembers (s_db s')
       = Db.conversationMembers (s_db s) ++ [mA; mB; mC]
    /\ ConversationMember.conversationId mA = Conversation.id c
    /\ ConversationMember.conversationId mB = Conversation.id c
    /\ ConversationMember.conversationId mC = Conversation.id c
    /\ ConversationMember.userId mA = User.id A
    /\ ConversationMember.userId mB = B
    /\ ConversationMember.userId mC = C
    /\ ConversationMember.role mA
       = match User.isGuest A with
         | Some true => guest
         | _ => admin
         end
    /\ ConversationMember.role mB = member
    /\ ConversationMember.role mC = member
    /\ s_trace s' = s_trace s
         ++ [CallCreate Conversations; CallCreateMany ConversationMembers] ++ tr
    /\ forallb is_read tr = true.
Proof.
  intros Hu Hs.
  destruct (handleCreateGroup_ok A "Team" description [B; C] s Hu Hs)
    as (s' & c & mA & others & tr & E & Hc & Hty & Hn & _ & _ & Hm & HcA & HuA
        & HrA & Hids & Hothers & Htr & Hread & _ & _ & _).
  destruct others as [|mB [|mC [|x others]]]; try discriminate.
  inversion Hids as [[HuB HuC]].
  inversion Hothers as [|? ? [HcB HrB] Hrest]; subst.
  inversion Hrest as [|? ? [HcC HrC] _]; subst.
  assert (HrA' : ConversationMember.role mA
                 = match User.isGuest A with
                   | Some true => guest
                   | _ => admin
                   end)
    by (rewrite HrA; destruct (User.isGuest A) as [[|]|]; reflexivity).
  exists s', c, mA, mB, mC, tr.
  repeat split; assumption.
Qed.

(* ================================================================= *)
(** ** The message thread *)


(** With a store that answers, [loadMessages] commits the thread computed
    from the store; besides, it logs read calls and toggles [loading]. *)
Lemma loadMessages_ok (conversation : ConversationView) (s : State) :
  s_faults s = [] ->
  exists tr, forallb is_read tr = true /\
    ChatView.loadMessages conversation s
    = (Ok tt,
       with_loading false
         (with_messages (thread_of (s_db s) (Conversation.id (cv_conv conversation)))
            (add_trace tr (with_loading true s)))).
Proof.
  intros Hs. unfold ChatView.loadMessages, try_finally, try_catch, setLoading.
  rewrite bind_modify. step_list.
  step_reads (reads_mapM
    (fun msg => userData <- App.users_by_id (Message.userId msg) ;;
                ret (mkMessageView msg (hd_error userData)))
    (fun msg d => mkMessageView msg (hd_error (users_with_id d (Message.userId msg))))
    (select (fun m => (Message.conversationId m
                       =? Conversation.id (cv_conv conversation))%string)
       (Some (Message.createdAt, asc)) None (Db.messages (s_db s)))
    (fun msg => reads_then _ _
                  (fun userData => mkMessageView msg (hd_error userData))
                  (reads_users_by_id (Message.userId msg)))).
  rewrite add_trace_app. eexists. split; [|reflexivity].
  rewrite forallb_app, Htr. reflexivity.
Qed.

(** A send of a non-blank text with a store that answers. *)
Lemma sendMessage_ok
    (user appUser : User.t) (conversation : ConversationView) (s : State) :
  Js.trim (s_newMessage s) <> "" ->
  s_sending s = false ->
  s_faults s = [] ->
  exists s' id createdAt lastMessageAt updatedAt tr,
    ChatView.sendMessage user conversation (App_onRefresh appUser) s = (Ok tt, s')
    /\ Db.messages (s_db s')
       = Db.messages (s_db s)
           ++ [sent_message user conversation id (Js.trim (s_newMessage s)) createdAt]
    /\ Db.conversations (s_db s')
       = map (fun r => if (Conversation.id r =? Conversation.id (cv_conv conversation))%string
                       then ChatView.set_last_activity lastMessageAt updatedAt r
                       else r)
           (Db.conversations (s_db s))
    /\ s_now s <= createdAt
    /\ lastMessageAt <= s_now s'
    /\ s_now s <= s_now s'
    /\ s_messages s' = thread_of (s_db s') (Conversation.id (cv_conv conversation))
    /\ s_faults s' = []
    /\ s_newMessage s' = ""
    /\ s_trace s' = s_trace s ++ [CallCreate Messages; CallUpdate Conversations] ++ tr
    /\ forallb is_read tr = true.
Proof.
  intros Ht Hsend Hs.
  unfold ChatView.sendMessage. rewrite !bind_gets, Hsend.
  apply String.eqb_neq in Ht. unfold Js.truthy_str. rewrite Ht. simpl.
  unfold try_finally, try_catch, setSending, setNewMessage, App_onRefresh.
  rewrite bind_modify, bind_Date_now, bind_random_suffix, bind_Date_now.
  rewrite bind_create by (simpl; exact Hs).
  rewrite !bind_Date_now.
  rewrite bind_update by (simpl; exact Hs).
  rewrite bind_modify.
  match goal with
  | |- context [bind (ChatView.loadMessages ?c) ?k ?s0] =>
      destruct (loadMessages_ok c s0) as (t1 & Ht1 & E);
      [simpl; exact Hs|unfold bind at 1; rewrite E; clear E]
  end.
  match goal with
  | |- context [App.loadConversations ?u ?s0] =>
      destruct (loadConversations_ok u s0) as (t2 & Ht2 & E);
      [simpl; exact Hs|rewrite E; clear E]
  end.
  eexists _, _, _, _, _, (t1 ++ t2). split; [reflexivity|]. simpl.
  split; [reflexivity|]. split; [reflexivity|].
  pose proof (N2Z.is_nonneg (hd 0%N (s_ticks s))).
  pose proof (N2Z.is_nonneg (hd 0%N (tl (s_ticks s)))).
  pose proof (N2Z.is_nonneg (hd 0%N (tl (tl (s_ticks s))))).
  pose proof (N2Z.is_nonneg (hd 0%N (tl (tl (tl (s_ticks s)))))).
  unfold next_now. simpl.
  split; [lia|]. split; [lia|]. split; [lia|].
  repeat split; try assumption.
  - rewrite <- !app_assoc. reflexivity.
  - rewrite forallb_app, Ht1, Ht2. reflexivity.
Qed.

(** A send keeps the stored [lastMessageAt] values behind the clock. *)
Lemma sendMessage_timestamps_not_ahead
    (user appUser : User.t) (conversation : ConversationView) (s : State) :
  Js.trim (s_newMessage s) <> "" ->
  s_sending s = false ->
  s_faults s = [] ->
  timestamps_not_ahead s ->
  timestamps_not_ahead
    (snd (ChatView.sendMessage user conversation (App_onRefresh appUser) s)).
Proof.
  intros Ht Hsend Hs Hinv.
  destruct (sendMessage_ok user appUser conversation s Ht Hsend Hs) as
    (s' & id & createdAt & lastMessageAt & updatedAt & tr & E & _ & Hc & _
     & Hlast & Hnow & _).
  rewrite E. simpl. intros c Hin. rewrite Hc in Hin.
  apply in_map_iff in Hin. destruct Hin as (c0 & <- & Hin0).
  specialize (Hinv c0 Hin0).
  destruct (Conversation.id c0 =? _)%string; simpl; lia.
Qed.

Lemma StronglySorted_of_map {A B} (f : A -> B) (R : B -> B -> Prop) (l : list A) :
  StronglySorted R (map f l) -> StronglySorted (fun a b => R (f a) (f b)) l.
Proof.
  induction l as [|x l IH]; simpl; intros H; [constructor|].
  apply StronglySorted_inv in H. destruct H as [Hl Hx].
  constructor; [now apply IH|].
  apply Forall_forall. intros y Hy.
  apply (proj1 (Forall_forall _ _) Hx). now apply in_map.
Qed.



(* ================================================================= *)
(** ** The properties on the scenarios *)

(** Alice asks for a private chat with Bob, with whom she shares
    [conv_1]: [conv_1] is selected and the store is as before. *)
Lemma handleCreatePrivateChat_existing_witness :
  exists s' tr,
    App.handleCreatePrivateChat "B" s_chat = (Ok tt, s')
    /\ s_selectedConversation s' = Some (mkConversationView conv_1 None None)
    /\ s_db s' = s_db s_chat
    /\ s_trace s' = s_trace s_chat ++ tr
    /\ forallb is_read tr = true.
Proof.
  destruct (handleCreatePrivateChat_existing alice "B" s_chat conv_1)
    as (s' & tr & c' & E & Hsel & ([<-|[]] & _) & _ & Hdb & Htr & Hread).
  - reflexivity.
  - reflexivity.
  - split; [now left|]. split; [reflexivity|].
    split; [exists member_A; simpl; tauto|].
    split; [reflexivity|].
    exists member_B. simpl. tauto.
  - exists s', tr. repeat split; assumption.
Defined.

(** C2, as stated, fails: an expired invite whose [isActive] flag is off
    is not returned by the lookup, and the redemption reports it as
    invalid, not as expired; and an invite whose [expiresAt] is 0, a
    timestamp in the past, is treated as never expiring and is joined. *)
Lemma handleInviteJoin_inactive_expired :
  let i := invite_with (Some 50) (Some 10) 0 false in
  let s := s_invite i casey in
  let j := invite_with (Some 0) (Some 10) 0 true in
  let t := s_invite j casey in
  (In i (Db.invites (s_db s))
   /\ Invite.expiresAt i = Some 50
   /\ 50 < next_now s
   /\ s_toasts (snd (App.handleInviteJoin casey "abc123" s)) = [App.invalid_invite])
  /\ (In j (Db.invites (s_db t))
      /\ Invite.expiresAt j = Some 0
      /\ 0 < next_now t
      /\ s_toasts (snd (App.handleInviteJoin casey "abc123" t)) = [App.joined_chat]).
Proof. vm_compute. repeat split; now left. Qed.

Lemma handleInviteJoin_expired_witness :
  exists s',
    App.handleInviteJoin casey "abc123"
      (s_invite (invite_with (Some 50) (Some 10) 0 true) casey) = (Ok tt, s')
    /\ s_toasts s' = [App.expired_invite]
    /\ s_db s' = db_with [conv_1] [] [invite_with (Some 50) (Some 10) 0 true]
    /\ s_trace s' = [CallList Invites].
Proof.
  apply (handleInviteJoin_expired casey "abc123"
           (s_invite (invite_with (Some 50) (Some 10) 0 true) casey)
           (invite_with (Some 50) (Some 10) 0 true) 50).
  - reflexivity.
  - reflexivity.
  - reflexivity.
  - discriminate.
  - reflexivity.
Defined.

(** C3, as stated, fails: with [maxUses] set to 0 and [currentUses] equal
    to it, the redemption is not refused: the membership is created and
    [currentUses] becomes 1.  And an invite at its cap that is expired, or
    whose [isActive] flag is off, is refused by the earlier check, with the
    expired or the invalid notification. *)
Lemma handleInviteJoin_zero_cap_joins :
  let i := invite_with (Some 1000) (Some 0) 0 true in
  let s' := snd (App.handleInviteJoin casey "abc123" (s_invite i casey)) in
  let expired := invite_with (Some 50) (Some 1) 1 true in
  let inactive := invite_with (Some 1000) (Some 1) 1 false in
  (Invite.maxUses i = Some 0
   /\ Invite.currentUses i = 0
   /\ s_toasts s' = [App.joined_chat]
   /\ Db.conversationMembers (s_db s')
      = [member_A; member_B;
         ConversationMember.mk "member_101_x7k2m9q1z" "conv_1" "guest_1" guest None]
   /\ map Invite.currentUses (Db.invites (s_db s')) = [1])
  /\ s_toasts (snd (App.handleInviteJoin casey "abc123" (s_invite expired casey)))
     = [App.expired_invite]
  /\ s_toasts (snd (App.handleInviteJoin casey "abc123" (s_invite inactive casey)))
     = [App.invalid_invite].
Proof. vm_compute. repeat split. Qed.

Lemma handleInviteJoin_limit_reached_witness :
  exists s',
    App.handleInviteJoin casey "abc123"
      (s_invite (invite_with (Some 1000) (Some 1) 1 true) casey) = (Ok tt, s')
    /\ s_toasts s' = [App.invite_limit_reached]
    /\ s_db s' = db_with [conv_1] [] [invite_with (Some 1000) (Some 1) 1 true]
    /\ s_trace s' = [CallList Invites].
Proof.
  apply (handleInviteJoin_limit_reached casey "abc123"
           (s_invite (invite_with (Some 1000) (Some 1) 1 true) casey)
           (invite_with (Some 1000) (Some 1) 1 true) 1).
  - reflexivity.
  - reflexivity.
  - reflexivity.
  - reflexivity.
  - discriminate.
  - simpl. lia.
Defined.

(** C4, as stated, fails: when the [lastMessageAt] the conversation has
    in the store is ahead of the sender's clock (written by a client
    whose clock runs ahead), the text hello is sent and reloaded, and its
    [createdAt], 101, is earlier than the [lastMessageAt] the conversation
    had before the send, 1000. *)
Lemma sendMessage_behind_lastMessageAt :
  let s' := snd (ChatView.sendMessage alice (App.view_of conv_ahead)
                   (App_onRefresh alice) s_ahead) in
  map Conversation.lastMessageAt (Db.conversations (s_db s_ahead)) = [1000]
  /\ map (fun mv => (Message.content (mv_msg mv), Message.messageType (mv_msg mv),
                     Message.createdAt (mv_msg mv))) (s_messages s')
     = [(Some "hello", text, 101)]
  /\ 101 < 1000.
Proof. vm_compute. repeat split. Qed.


Lemma loadConversations_no_membership_witness :
  s_trace (snd (App.loadConversations "guest_1" s_lonely))
  = [CallList ConversationMembers]
  /\ (hd false (s_faults s_lonely) = false ->
      App.loadConversations "guest_1" s_lonely
      = (Ok tt,
         with_conversations []
           (with_faults (tl (s_faults s_lonely))
              (add_trace [CallList ConversationMembers] s_lonely)))).
Proof.
  apply (loadConversations_no_membership "guest_1" s_lonely). reflexivity.
Defined.

(** Alice, who is not a guest, and the guest Casey each create the group
    Team with two other members: three membership records each, Alice's
    with role [admin], Casey's with role [guest]. *)
Lemma handleCreateGroup_team_witness :
  (exists s' c mA mB mC,
     App.handleCreateGroup "Team" "The team" ["B"; "guest_1"] s_chat = (Ok tt, s')
     /\ Db.conversations (s_db s') = [conv_1; c]
     /\ Conversation.type c = group
     /\ Conversation.name c = Some "Team"
     /\ Db.conversationMembers (s_db s') = [member_A; member_B; mA; mB; mC]
     /\ map ConversationMember.conversationId [mA; mB; mC]
        = [Conversation.id c; Conversation.id c; Conversation.id c]
     /\ map ConversationMember.userId [mA; mB; mC] = ["A"; "B"; "guest_1"]
     /\ map ConversationMember.role [mA; mB; mC] = [admin; member; member])
  /\ (exists s' c mA mB mC,
        App.handleCreateGroup "Team" "" ["A"; "B"] s_lonely = (Ok tt, s')
        /\ Db.conversations (s_db s') = [conv_1; c]
        /\ Conversation.type c = group
        /\ Conversation.name c = Some "Team"
        /\ Db.conversationMembers (s_db s') = [member_A; member_B; mA; mB; mC]
        /\ map ConversationMember.conversationId [mA; mB; mC]
           = [Conversation.id c; Conversation.id c; Conversation.id c]
        /\ map ConversationMember.userId [mA; mB; mC] = ["guest_1"; "A"; "B"]
        /\ map ConversationMember.role [mA; mB; mC] = [guest; member; member]).
Proof.
  split.
  - destruct (handleCreateGroup_team alice "B" "guest_1" "The team" s_chat)
      as (s' & c & mA & mB & mC & tr & E & Hc & Hty & Hn & Hm & HcA & HcB & HcC
          & HuA & HuB & HuC & HrA & HrB & HrC & _); [reflexivity|reflexivity|].
    exists s', c, mA, mB, mC. simpl.
    rewrite HcA, HcB, HcC, HuA, HuB, HuC, HrA, HrB, HrC.
    repeat split; assumption.
  - destruct (handleCreateGroup_team casey "A" "B" "" s_lonely)
      as (s' & c & mA & mB & mC & tr & E & Hc & Hty & Hn & Hm & HcA & HcB & HcC
          & HuA & HuB & HuC & HrA & HrB & HrC & _); [reflexivity|reflexivity|].
    exists s', c, mA, mB, mC. simpl.
    rewrite HcA, HcB, HcC, HuA, HuB, HuC, HrA, HrB, HrC.
    repeat split; assumption.
Defined.

Lemma sendMessage_blank_unchanged_witness :
  ChatView.sendMessage alice (App.view_of conv_1) (App_onRefresh alice) s_blank
  = (Ok tt, s_blank).
Proof.
  apply (sendMessage_blank_unchanged alice (App.view_of conv_1)
           (App_onRefresh alice) s_blank).
  apply (Js.ws_only_app " " (Js.bytes [9; 194; 160]%nat)).
  - vm_compute. tauto.
  - apply (Js.ws_only_app (Js.bytes [9%nat]) (Js.bytes [194; 160]%nat)).
    + vm_compute. tauto.
    + apply (Js.ws_only_app (Js.bytes [194; 160]%nat) "").
      * vm_compute. tauto.
      * apply Js.ws_only_nil.
Defined.

(** The latest message of [conv_1] is the attachment [report.pdf], a
    message of type [file] without text: the preview of [conv_1] in
    Alice's list is the paperclip and the file name. *)
Lemma loadConversations_preview_witness :
  exists lm,
    cv_lastMessage (details_of (s_db s_files) conv_1) = Some lm
    /\ lm_content lm = "📎 report.pdf".
Proof.
  destruct (loadConversations_preview "A" s_files (details_of (s_db s_files) conv_1))
    as (msg & lm & Hin & _ & Hlm & _ & Hfile & _).
  - reflexivity.
  - vm_compute. left. reflexivity.
  - vm_compute. discriminate.
  - exists lm. split; [exact Hlm|].
    destruct Hin as [<-|[]].
    apply Hfile; [left; reflexivity|reflexivity|reflexivity].
Defined.

(** Alice, a member of [conv_1], redeems the invite of [conv_1]: the store
    is as before, her list holds [conv_1], and [conv_1] is selected. *)
Lemma handleInviteJoin_already_member_witness :
  exists s' tr,
    App.handleInviteJoin alice "abc123"
      (s_invite (invite_with (Some 1000) (Some 10) 3 true) alice) = (Ok tt, s')
    /\ s_db s' = db_with [conv_1] [] [invite_with (Some 1000) (Some 10) 3 true]
    /\ s_trace s' = [] ++ tr
    /\ forallb is_read tr = true
    /\ s_conversations s' = [mkConversationView conv_1 None None]
    /\ s_selectedConversation s' = Some (mkConversationView conv_1 None None)
    /\ s_toasts s' = [] ++ [App.joined_chat].
Proof.
  destruct (handleInviteJoin_already_member alice "abc123"
              (s_invite (invite_with (Some 1000) (Some 10) 3 true) alice)
              (invite_with (Some 1000) (Some 10) 3 true) member_A conv_1)
    as (s' & tr & c' & E & Hdb & Htr & Hread & Hlist & Hsel & [<-|[]] & _ & Ht).
  - reflexivity.
  - reflexivity.
  - intros e H. injection H as <-. vm_compute. discriminate.
  - intros n H. injection H as <-. simpl. lia.
  - simpl. tauto.
  - reflexivity.
  - reflexivity.
  - simpl. tauto.
  - reflexivity.
  - exists s', tr. repeat split; assumption.
Defined.

Lemma handleInviteJoin_zero_is_unset_witness :
  exists s' now r,
    App.handleInviteJoin casey "abc123"
      (s_invite (invite_with (Some 0) (Some 0) 7 true) casey) = (Ok tt, s')
    /\ Db.conversationMembers (s_db s')
       = [member_A; member_B]
           ++ [new_member casey (invite_with (Some 0) (Some 0) 7 true) now r]
    /\ Db.invites (s_db s')
       = map (bump_uses (invite_with (Some 0) (Some 0) 7 true))
           [invite_with (Some 0) (Some 0) 7 true]
    /\ s_toasts s' = [] ++ [App.joined_chat].
Proof.
  apply (handleInviteJoin_zero_is_unset casey "abc123"
           (s_invite (invite_with (Some 0) (Some 0) 7 true) casey)
           (invite_with (Some 0) (Some 0) 7 true)).
  - reflexivity.
  - reflexivity.
  - reflexivity.
  - left. split; reflexivity.
Defined.

(* ================================================================= *)
(** ** Handlers that only read *)

(** Closes [read_only_step s (f s)] for an [f] that sets component state
    or shows a notification. *)
Ltac ro_same :=
  intros; repeat split; exists []; split;
  [simpl; now rewrite app_nil_r|reflexivity].

(** Relations between the state before and after that every step of a
    computation keeps, whether store calls fail or not. *)
Section Frame.
Variable P : State -> State -> Prop.
Hypothesis P_refl : forall s, P s s.
Hypothesis P_trans : forall s1 s2 s3, P s1 s2 -> P s2 s3 -> P s1 s3.

Lemma respects_ret {A} (a : A) : respects P (ret a).
Proof. intros s. apply P_refl. Qed.

Lemma respects_bind {A B} (m : M A) (k : A -> M B) :
  respects P m -> (forall a, respects P (k a)) -> respects P (bind m k).
Proof.
  intros Hm Hk s. unfold bind. specialize (Hm s).
  destruct (m s) as [[a|] s1]; simpl in *; [|exact Hm].
  eapply P_trans; [exact Hm|apply Hk].
Qed.

Lemma respects_try_catch {A} (m h : M A) :
  respects P m -> respects P h -> respects P (try_catch m h).
Proof.
  intros Hm Hh s. unfold try_catch. specialize (Hm s).
  destruct (m s) as [[a|] s1]; simpl in *; [exact Hm|].
  eapply P_trans; [exact Hm|apply Hh].
Qed.

Lemma respects_try_finally {A} (m : M A) (f : M unit) :
  respects P m -> respects P f -> respects P (try_finally m f).
Proof.
  intros Hm Hf s. unfold try_finally. specialize (Hm s).
  destruct (m s) as [r s1]. specialize (Hf s1).
  destruct (f s1) as [[u|] s2]; simpl in *; eapply P_trans; eassumption.
Qed.

Lemma respects_mapM {A B} (f : A -> M B) (l : list A) :
  (forall x, respects P (f x)) -> respects P (mapM f l).
Proof.
  intros Hf. induction l as [|x l IH]; simpl.
  - apply respects_ret.
  - apply respects_bind; [apply Hf|]. intros y.
    apply respects_bind; [exact IH|]. intros ys. apply respects_ret.
Qed.

End Frame.

Lemma read_only_step_refl (s : State) : read_only_step s s.
Proof.
  repeat split. exists []. split; [now rewrite app_nil_r|reflexivity].
Qed.

Lemma read_only_step_trans (s1 s2 s3 : State) :
  read_only_step s1 s2 -> read_only_step s2 s3 -> read_only_step s1 s3.
Proof.
  intros (Hd & Hn & Ht & Hr & t1 & E1 & R1) (Hd' & Hn' & Ht' & Hr' & t2 & E2 & R2).
  repeat split; try congruence.
  exists (t1 ++ t2). split.
  - rewrite E2, E1. now rewrite app_assoc.
  - rewrite forallb_app, R1, R2. reflexivity.
Qed.

Lemma never_writes_ret {A} (a : A) : never_writes (ret a).
Proof. apply respects_ret. exact read_only_step_refl. Qed.

Lemma never_writes_bind {A B} (m : M A) (k : A -> M B) :
  never_writes m -> (forall a, never_writes (k a)) -> never_writes (bind m k).
Proof. apply respects_bind. exact read_only_step_trans. Qed.

Lemma never_writes_try_catch {A} (m h : M A) :
  never_writes m -> never_writes h -> never_writes (try_catch m h).
Proof. apply respects_try_catch. exact read_only_step_trans. Qed.

Lemma never_writes_try_finally {A} (m : M A) (f : M unit) :
  never_writes m -> never_writes f -> never_writes (try_finally m f).
Proof. apply respects_try_finally. exact read_only_step_trans. Qed.

Lemma never_writes_mapM {A B} (f : A -> M B) (l : list A) :
  (forall x, never_writes (f x)) -> never_writes (mapM f l).
Proof.
  apply respects_mapM; [exact read_only_step_refl|exact read_only_step_trans].
Qed.

Lemma never_writes_modify (f : State -> State) :
  (forall s, read_only_step s (f s)) -> never_writes (modify f).
Proof. intros H s. apply H. Qed.

Lemma never_writes_list {A} c (coll : Db.t -> list A) w o l :
  never_writes (blink.list c coll w o l).
Proof.
  intros s. unfold blink.list, bind, store_call, gets.
  destruct (hd false (s_faults s)); simpl; repeat split;
    exists [CallList c]; split; reflexivity.
Qed.

Lemma never_writes_toast (t : Toast) : never_writes (toast t).
Proof. apply never_writes_modify. ro_same. Qed.

Lemma never_writes_users_by_id (id : string) : never_writes (App.users_by_id id).
Proof. apply never_writes_list. Qed.

Lemma never_writes_conversation_details (conv : Conversation.t) :
  never_writes (App.conversation_details conv).
Proof.
  unfold App.conversation_details.
  apply never_writes_bind; [apply never_writes_list|]. intros lastMessages.
  apply never_writes_bind.
  { destruct lastMessages as [|msg rest]; [apply never_writes_ret|].
    apply never_writes_bind; [apply never_writes_users_by_id|].
    intros sender. apply never_writes_ret. }
  intros lastMessage. apply never_writes_bind.
  { destruct (Conversation.type conv); [apply never_writes_ret|].
    apply never_writes_bind; [apply never_writes_list|]. intros memberIds.
    apply never_writes_bind.
    - apply never_writes_mapM. intros m.
      apply never_writes_bind; [apply never_writes_users_by_id|].
      intros userData. apply never_writes_ret.
    - intros memberDetails. apply never_writes_ret. }
  intros members. apply never_writes_ret.
Qed.

Lemma never_writes_loadConversations (userId : string) :
  never_writes (App.loadConversations userId).
Proof.
  unfold App.loadConversations.
  apply never_writes_try_catch; [|apply never_writes_toast].
  apply never_writes_bind; [apply never_writes_list|]. intros membershipData.
  destruct (List.length membershipData =? 0)%nat.
  - apply never_writes_modify. ro_same.
  - apply never_writes_bind; [apply never_writes_list|]. intros conversationsData.
    apply never_writes_bind.
    + apply never_writes_mapM. apply never_writes_conversation_details.
    + intros cs. apply never_writes_modify. ro_same.
Qed.

(** X1: whatever store calls fail, [loadConversations] returns normally
    and does read calls only: the store, the clock and the random source
    are as before and the log grew by list calls. *)
Theorem loadConversations_read_only (userId : string) (s : State) :
  fst (App.loadConversations userId s) = Ok tt
  /\ read_only_step s (snd (App.loadConversations userId s)).
Proof.
  split.
  - unfold App.loadConversations, try_catch.
    match goal with |- context [match ?b s with _ => _ end] =>
      destruct (b s) as [[[]|] s1] end; reflexivity.
  - apply never_writes_loadConversations.
Qed.

(** X2: whatever store calls fail, [loadMessages] returns normally, does
    read calls only and leaves [loading] off. *)
Theorem loadMessages_read_only (conversation : ConversationView) (s : State) :
  fst (ChatView.loadMessages conversation s) = Ok tt
  /\ read_only_step s (snd (ChatView.loadMessages conversation s))
  /\ s_loading (snd (ChatView.loadMessages conversation s)) = false.
Proof.
  assert (Hw : never_writes (ChatView.loadMessages conversation)).
  { unfold ChatView.loadMessages.
    apply never_writes_try_finally;
      [|apply never_writes_modify; ro_same].
    apply never_writes_try_catch; [|apply never_writes_toast].
    apply never_writes_bind;
      [apply never_writes_modify; ro_same|].
    intros _. apply never_writes_bind; [apply never_writes_list|].
    intros messagesData. apply never_writes_bind.
    - apply never_writes_mapM. intros msg.
      apply never_writes_bind; [apply never_writes_users_by_id|].
      intros userData. apply never_writes_ret.
    - intros ms. apply never_writes_modify. ro_same. }
  split; [|split; [apply Hw|]].
  - unfold ChatView.loadMessages, try_finally, try_catch.
    match goal with |- context [match ?b s with _ => _ end] =>
      destruct (b s) as [[[]|] s1] end; reflexivity.
  - unfold ChatView.loadMessages, try_finally.
    match goal with |- context [match ?b s with _ => _ end] =>
      destruct (b s) as [r s1] end. reflexivity.
Qed.

(* ================================================================= *)
(** ** Store calls that fail *)

Lemma store_call_cons (c : Call) (b : bool) (fs : list bool) (s : State) :
  s_faults s = b :: fs ->
  store_call c s
  = (if b then Throw else Ok tt, with_faults fs (add_trace [c] s)).
Proof. intros H. unfold store_call. rewrite H. destruct b; reflexivity. Qed.

Lemma bind_list_answered {A B} c (coll : Db.t -> list A) w o l
    (k : list A -> M B) fs s :
  s_faults s = false :: fs ->
  bind (blink.list c coll w o l) k s
  = k (select w o l (coll (s_db s))) (with_faults fs (add_trace [CallList c] s)).
Proof.
  intros H. unfold bind at 1, blink.list, bind, gets.
  now rewrite (store_call_cons _ false fs).
Qed.

Lemma bind_create_answered {A B} c (coll : Db.t -> list A) set r
    (k : unit -> M B) fs s :
  s_faults s = false :: fs ->
  bind (blink.create c coll set r) k s
  = k tt (with_db (set (coll (s_db s) ++ [r]) (s_db s))
            (with_faults fs (add_trace [CallCreate c] s))).
Proof.
  intros H. unfold bind at 1, blink.create, bind, modify.
  now rewrite (store_call_cons _ false fs).
Qed.

Lemma bind_create_failed {A B} c (coll : Db.t -> list A) set r
    (k : unit -> M B) fs s :
  s_faults s = true :: fs ->
  bind (blink.create c coll set r) k s
  = (Throw, with_faults fs (add_trace [CallCreate c] s)).
Proof.
  intros H. unfold bind at 1, blink.create, bind, modify.
  now rewrite (store_call_cons _ true fs).
Qed.

Lemma bind_createMany_failed {A B} c (coll : Db.t -> list A) set rs
    (k : unit -> M B) fs s :
  s_faults s = true :: fs ->
  bind (blink.createMany c coll set rs) k s
  = (Throw, with_faults fs (add_trace [CallCreateMany c] s)).
Proof.
  intros H. unfold bind at 1, blink.createMany, bind, modify.
  now rewrite (store_call_cons _ true fs).
Qed.

Lemma bind_update_failed {A B} c (coll : Db.t -> list A) set id_of id patch
    (k : unit -> M B) fs s :
  s_faults s = true :: fs ->
  bind (blink.update c coll set id_of id patch) k s
  = (Throw, with_faults fs (add_trace [CallUpdate c] s)).
Proof.
  intros H. unfold bind at 1, blink.update, bind, modify.
  now rewrite (store_call_cons _ true fs).
Qed.

(** X3: when the conversation record of a group is created and the batch
    of membership records then fails, nothing is rolled back: the store
    keeps the new group conversation without any member, the list is not
    reloaded and the failure notification is shown. *)
Theorem handleCreateGroup_members_fail
    (user : User.t) (name description : string) (memberIds : list string)
    (fs : list bool) (s : State) :
  s_user s = Some user ->
  s_faults s = false :: true :: fs ->
  exists s' c,
    App.handleCreateGroup name description memberIds s = (Ok tt, s')
    /\ Db.conversations (s_db s') = Db.conversations (s_db s) ++ [c]
    /\ Conversation.type c = group
    /\ Conversation.name c = Some name
    /\ Db.conversationMembers (s_db s') = Db.conversationMembers (s_db s)
    /\ s_conversations s' = s_conversations s
    /\ s_toasts s' = s_toasts s ++ [App.group_failed]
    /\ s_trace s' = s_trace s
         ++ [CallCreate Conversations; CallCreateMany ConversationMembers].
Proof.
  intros Hu Hf.
  unfold App.handleCreateGroup. rewrite bind_gets, Hu. unfold try_catch.
  rewrite bind_Date_now, bind_random_suffix, !bind_Date_now.
  rewrite (bind_create_answered _ _ _ _ _ (true :: fs)) by (simpl; exact Hf).
  rewrite bind_Date_now.
  match goal with
  | |- context [bind (App.push_members ?cid 0 memberIds) ?k ?s0] =>
      destruct (push_members_run cid memberIds 0 s0)
        as (others & n & t & E & _);
      unfold bind at 1; rewrite E; clear E
  end.
  rewrite (bind_createMany_failed _ _ _ _ _ fs) by reflexivity.
  eexists _, _. split; [reflexivity|]. simpl.
  repeat split. rewrite <- app_assoc. reflexivity.
Qed.

Lemma handleCreateGroup_members_fail_witness :
  let user := alice in
  let name := "Team" in
  let description := "" in
  let memberIds := ["B"] in
  let fs := @nil bool in
  let s := with_faults [false; true] s_chat in
  exists s' c,
    App.handleCreateGroup name description memberIds s = (Ok tt, s')
    /\ Db.conversations (s_db s') = Db.conversations (s_db s) ++ [c]
    /\ Conversation.type c = group
    /\ Conversation.name c = Some name
    /\ Db.conversationMembers (s_db s') = Db.conversationMembers (s_db s)
    /\ s_conversations s' = s_conversations s
    /\ s_toasts s' = s_toasts s ++ [App.group_failed]
    /\ s_trace s' = s_trace s
         ++ [CallCreate Conversations; CallCreateMany ConversationMembers].
Proof.
  intros user name description memberIds fs s.
  apply (handleCreateGroup_members_fail user name description memberIds fs s).
  - reflexivity.
  - reflexivity.
Defined.

(** X4: a redemption whose membership create succeeds and whose usage
    update then fails leaves the user enrolled while [currentUses] is not
    raised: the invite keeps its count, the failure notification is shown,
    and neither the conversation list nor the selection changes. *)
Theorem handleInviteJoin_update_fails
    (currentUser : User.t) (code : string) (fs : list bool) (s : State)
    (invite : Invite.t) :
  s_faults s = false :: false :: false :: true :: fs ->
  redeemed_invite (s_db s) code = Some invite ->
  is_expired invite (next_now s) = false ->
  App.invite_exhausted invite = false ->
  membership (s_db s) (Invite.conversationId invite) (User.id currentUser) = None ->
  exists s' now r,
    App.handleInviteJoin currentUser code s = (Ok tt, s')
    /\ Db.conversationMembers (s_db s')
       = Db.conversationMembers (s_db s) ++ [new_member currentUser invite now r]
    /\ Db.invites (s_db s') = Db.invites (s_db s)
    /\ s_toasts s' = s_toasts s ++ [App.join_failed]
    /\ s_conversations s' = s_conversations s
    /\ s_selectedConversation s' = s_selectedConversation s.
Proof.
  intros Hf Hi He Hx Hm.
  unfold App.handleInviteJoin, try_catch.
  rewrite (bind_list_answered _ _ _ _ _ _ (false :: false :: true :: fs))
    by exact Hf.
  rewrite select_find. fold (redeemed_invite (s_db s) code). rewrite Hi.
  rewrite invite_expired_run.
  change (next_now (with_faults (false :: false :: true :: fs)
                      (add_trace [CallList Invites] s))) with (next_now s).
  rewrite He, Hx.
  destruct (after_expiry_check_frame invite
              (with_faults (false :: false :: true :: fs)
                 (add_trace [CallList Invites] s)))
    as (Hd0 & Hf0 & _ & Ho0 & _).
  rewrite (bind_list_answered _ _ _ _ _ _ (false :: true :: fs))
    by (rewrite Hf0; reflexivity).
  rewrite select_find, Hd0.
  change (s_db (with_faults (false :: false :: true :: fs)
                  (add_trace [CallList Invites] s))) with (s_db s).
  fold (membership (s_db s) (Invite.conversationId invite) (User.id currentUser)).
  rewrite Hm. simpl List.length. simpl Nat.eqb. cbv iota.
  rewrite bind_assoc, bind_Date_now, bind_assoc, bind_random_suffix.
  rewrite bind_assoc.
  rewrite (bind_create_answered _ _ _ _ _ (true :: fs)) by reflexivity.
  rewrite (bind_update_failed _ _ _ _ _ _ _ fs) by reflexivity.
  unfold after_expiry_check.
  destruct (Js.truthy_num (Invite.expiresAt invite));
    (eexists _, _, _; split; [reflexivity|]; simpl; repeat split).
Qed.

Lemma handleInviteJoin_update_fails_witness :
  let currentUser := casey in
  let code := "abc123" in
  let fs := @nil bool in
  let s := with_faults [false; false; false; true] (s_invite invite_open casey) in
  let invite := invite_open in
  exists s' now r,
    App.handleInviteJoin currentUser code s = (Ok tt, s')
    /\ Db.conversationMembers (s_db s')
       = Db.conversationMembers (s_db s) ++ [new_member currentUser invite now r]
    /\ Db.invites (s_db s') = Db.invites (s_db s)
    /\ s_toasts s' = s_toasts s ++ [App.join_failed]
    /\ s_conversations s' = s_conversations s
    /\ s_selectedConversation s' = s_selectedConversation s.
Proof.
  intros currentUser code fs s invite.
  apply (handleInviteJoin_update_fails currentUser code fs s invite).
  - reflexivity.
  - reflexivity.
  - reflexivity.
  - reflexivity.
  - reflexivity.
Defined.

(** X5: when the message create of a send fails, nothing is stored, the
    typed text is kept for a retry, the thread is as it was, the failure
    notification is shown and [sending] is off again. *)
Theorem sendMessage_create_fails
    (user : User.t) (conversation : ConversationView) (onRefresh : M unit)
    (fs : list bool) (s : State) :
  Js.trim (s_newMessage s) <> "" ->
  s_sending s = false ->
  s_faults s = true :: fs ->
  exists s',
    ChatView.sendMessage user conversation onRefresh s = (Ok tt, s')
    /\ s_db s' = s_db s
    /\ s_newMessage s' = s_newMessage s
    /\ s_messages s' = s_messages s
    /\ s_sending s' = false
    /\ s_toasts s' = s_toasts s ++ [ChatView.send_failed]
    /\ s_trace s' = s_trace s ++ [CallCreate Messages].
Proof.
  intros Ht Hsend Hf.
  unfold ChatView.sendMessage. rewrite !bind_gets, Hsend.
  apply String.eqb_neq in Ht. unfold Js.truthy_str. rewrite Ht. simpl.
  unfold try_finally, try_catch, setSending.
  rewrite bind_modify, bind_Date_now, bind_random_suffix, bind_Date_now.
  rewrite (bind_create_failed _ _ _ _ _ fs) by (simpl; exact Hf).
  eexists. split; [reflexivity|]. simpl. repeat split.
Qed.

Lemma sendMessage_create_fails_witness :
  let user := alice in
  let conversation := App.view_of conv_1 in
  let onRefresh := App_onRefresh alice in
  let fs := @nil bool in
  let s := with_faults [true] s_chat in
  exists s',
    ChatView.sendMessage user conversation onRefresh s = (Ok tt, s')
    /\ s_db s' = s_db s
    /\ s_newMessage s' = s_newMessage s
    /\ s_messages s' = s_messages s
    /\ s_sending s' = false
    /\ s_toasts s' = s_toasts s ++ [ChatView.send_failed]
    /\ s_trace s' = s_trace s ++ [CallCreate Messages].
Proof.
  intros user conversation onRefresh fs s.
  apply (sendMessage_create_fails user conversation onRefresh fs s).
  - vm_compute. discriminate.
  - reflexivity.
  - reflexivity.
Defined.

(** X6: when the message create of a send succeeds and the update of the
    conversation then fails, the message is in the store, but the send is
    reported as failed: the typed text is kept, the thread is not
    reloaded, and the conversation keeps its [lastMessageAt]. *)
Theorem sendMessage_update_fails
    (user : User.t) (conversation : ConversationView) (onRefresh : M unit)
    (fs : list bool) (s : State) :
  Js.trim (s_newMessage s) <> "" ->
  s_sending s = false ->
  s_faults s = false :: true :: fs ->
  exists s' id createdAt,
    ChatView.sendMessage user conversation onRefresh s = (Ok tt, s')
    /\ Db.messages (s_db s')
       = Db.messages (s_db s)
           ++ [sent_message user conversation id (Js.trim (s_newMessage s)) createdAt]
    /\ Db.conversations (s_db s') = Db.conversations (s_db s)
    /\ s_newMessage s' = s_newMessage s
    /\ s_messages s' = s_messages s
    /\ s_sending s' = false
    /\ s_toasts s' = s_toasts s ++ [ChatView.send_failed].
Proof.
  intros Ht Hsend Hf.
  unfold ChatView.sendMessage. rewrite !bind_gets, Hsend.
  apply String.eqb_neq in Ht. unfold Js.truthy_str. rewrite Ht. simpl.
  unfold try_finally, try_catch, setSending.
  rewrite bind_modify, bind_Date_now, bind_random_suffix, bind_Date_now.
  rewrite (bind_create_answered _ _ _ _ _ (true :: fs)) by (simpl; exact Hf).
  rewrite !bind_Date_now.
  rewrite (bind_update_failed _ _ _ _ _ _ _ fs) by reflexivity.
  eexists _, _, _. split; [reflexivity|]. simpl. repeat split.
Qed.

Lemma sendMessage_update_fails_witness :
  let user := alice in
  let conversation := App.view_of conv_1 in
  let onRefresh := App_onRefresh alice in
  let fs := @nil bool in
  let s := with_faults [false; true] s_chat in
  exists s' id createdAt,
    ChatView.sendMessage user conversation onRefresh s = (Ok tt, s')
    /\ Db.messages (s_db s')
       = Db.messages (s_db s)
           ++ [sent_message user conversation id (Js.trim (s_newMessage s)) createdAt]
    /\ Db.conversations (s_db s') = Db.conversations (s_db s)
    /\ s_newMessage s' = s_newMessage s
    /\ s_messages s' = s_messages s
    /\ s_sending s' = false
    /\ s_toasts s' = s_toasts s ++ [ChatView.send_failed].
Proof.
  intros user conversation onRefresh fs s.
  apply (sendMessage_update_fails user conversation onRefresh fs s).
  - vm_compute. discriminate.
  - reflexivity.
  - reflexivity.
Defined.

(* ================================================================= *)
(** ** What a reload of the conversation list shows *)

(** A conversation the user has a membership record in is in the
    directory computed from the store. *)
Lemma directory_of_In (d : Db.t) (userId : string)
    (m : ConversationMember.t) (c : Conversation.t) :
  In m (memberships_of d userId) ->
  In c (Db.conversations d) ->
  Conversation.id c = ConversationMember.conversationId m ->
  In (details_of d c) (directory_of d userId).
Proof.
  intros Hm Hc Hid. unfold directory_of, order.
  assert (Hm' : In m (sort_by (key_le App.joinedAt_key desc) (memberships_of d userId)))
    by (apply In_sort_by; exact Hm).
  destruct (sort_by (key_le App.joinedAt_key desc) (memberships_of d userId))
    as [|m0 ms] eqn:E; [destruct Hm'|].
  simpl List.length. simpl Nat.eqb. cbv iota.
  apply in_map. unfold select, take_limit, order.
  apply In_sort_by. apply filter_In. split; [exact Hc|].
  apply existsb_exists. exists (ConversationMember.conversationId m).
  split; [now apply in_map|]. rewrite Hid. apply String.eqb_refl.
Qed.

(** Every entry of the directory is a conversation of the store in which
    the user has a membership record. *)
Lemma directory_of_sound (d : Db.t) (userId : string) (cv : ConversationView) :
  In cv (directory_of d userId) ->
  cv = details_of d (cv_conv cv)
  /\ In (cv_conv cv) (Db.conversations d)
  /\ exists m, In m (memberships_of d userId)
               /\ ConversationMember.conversationId m = Conversation.id (cv_conv cv).
Proof.
  unfold directory_of, order. intros H.
  destruct (List.length _ =? 0)%nat; [destruct H|].
  apply in_map_iff in H. destruct H as (c & <- & Hc).
  unfold select, take_limit, order in Hc.
  apply In_sort_by in Hc. apply filter_In in Hc. destruct Hc as [Hc Hex].
  apply existsb_exists in Hex. destruct Hex as (id & Hid & Heq).
  apply String.eqb_eq in Heq. apply in_map_iff in Hid.
  destruct Hid as (m & <- & Hm). apply In_sort_by in Hm.
  simpl. repeat split; [exact Hc|]. exists m. split; [exact Hm|now symmetry].
Qed.

(** X7: with a store that answers, the list [loadConversations] commits
    holds exactly the conversations of the store in which the user has a
    membership record. *)
Theorem loadConversations_lists_memberships
    (userId : string) (s : State) (c : Conversation.t) :
  s_faults s = [] ->
  In c (map cv_conv (s_conversations (snd (App.loadConversations userId s))))
  <-> In c (Db.conversations (s_db s))
      /\ exists m, In m (Db.conversationMembers (s_db s))
                   /\ ConversationMember.userId m = userId
                   /\ ConversationMember.conversationId m = Conversation.id c.
Proof.
  intros Hs. destruct (loadConversations_ok userId s Hs) as (tr & _ & E).
  rewrite E. simpl. split.
  - intros H. apply in_map_iff in H. destruct H as (cv & <- & Hcv).
    apply directory_of_sound in Hcv. destruct Hcv as (_ & Hc & m & Hm & Hid).
    split; [exact Hc|]. apply filter_In in Hm. destruct Hm as [Hm Hu].
    apply String.eqb_eq in Hu. exists m. tauto.
  - intros (Hc & m & Hm & Hu & Hid).
    apply in_map_iff. exists (details_of (s_db s) c). split; [reflexivity|].
    apply directory_of_In with m; [|exact Hc|now symmetry].
    apply filter_In. split; [exact Hm|]. rewrite Hu. apply String.eqb_refl.
Qed.

Lemma loadConversations_lists_memberships_witness :
  let userId := "A" in
  let s := s_chat in
  let c := conv_1 in
  In c (map cv_conv (s_conversations (snd (App.loadConversations userId s))))
  <-> In c (Db.conversations (s_db s))
      /\ exists m, In m (Db.conversationMembers (s_db s))
                   /\ ConversationMember.userId m = userId
                   /\ ConversationMember.conversationId m = Conversation.id c.
Proof.
  intros userId s c.
  apply (loadConversations_lists_memberships userId s c).
  - reflexivity.
Defined.

(** X8: with a store that answers, the list [loadConversations] commits
    is in descending order of [lastMessageAt]. *)
Theorem loadConversations_sorted (userId : string) (s : State) :
  s_faults s = [] ->
  StronglySorted
    (fun a b => Conversation.lastMessageAt (cv_conv b)
                <= Conversation.lastMessageAt (cv_conv a))
    (s_conversations (snd (App.loadConversations userId s))).
Proof.
  intros Hs. destruct (loadConversations_ok userId s Hs) as (tr & _ & E).
  rewrite E. simpl. unfold directory_of.
  destruct (List.length _ =? 0)%nat; [constructor|].
  apply StronglySorted_of_map with
    (f := cv_conv)
    (R := fun a b => Conversation.lastMessageAt b <= Conversation.lastMessageAt a).
  rewrite map_map. simpl. rewrite map_id.
  unfold select, take_limit, order.
  apply (sort_by_sorted Conversation.lastMessageAt desc).
Qed.

Lemma loadConversations_sorted_witness :
  let userId := "A" in
  let s := s_team in
  StronglySorted
    (fun a b => Conversation.lastMessageAt (cv_conv b)
                <= Conversation.lastMessageAt (cv_conv a))
    (s_conversations (snd (App.loadConversations userId s))).
Proof.
  intros userId s.
  apply (loadConversations_sorted userId s).
  - reflexivity.
Defined.

(** A redemption by a user who is not yet a member, with a store that
    answers. *)
Lemma handleInviteJoin_fresh_member
    (currentUser : User.t) (code : string) (s : State) (invite : Invite.t)
    (c : Conversation.t) :
  s_faults s = [] ->
  redeemed_invite (s_db s) code = Some invite ->
  (forall e, Invite.expiresAt invite = Some e -> next_now s <= e) ->
  (forall n, Invite.maxUses invite = Some n -> Invite.currentUses invite < n) ->
  membership (s_db s) (Invite.conversationId invite) (User.id currentUser) = None ->
  In c (Db.conversations (s_db s)) ->
  Conversation.id c = Invite.conversationId invite ->
  exists s' m c',
    App.handleInviteJoin currentUser code s = (Ok tt, s')
    /\ Db.conversationMembers (s_db s') = Db.conversationMembers (s_db s) ++ [m]
    /\ ConversationMember.conversationId m = Invite.conversationId invite
    /\ ConversationMember.userId m = User.id currentUser
    /\ ConversationMember.role m
       = match User.isGuest currentUser with
         | Some true => guest
         | _ => member
         end
    /\ Db.invites (s_db s')
       = map (fun i => if (Invite.id i =? Invite.id invite)%string
                       then invite_used (Invite.currentUses invite + 1) i
                       else i)
           (Db.invites (s_db s))
    /\ In c (map cv_conv (s_conversations s'))
    /\ s_selectedConversation s' = Some (mkConversationView c' None None)
    /\ In c' (Db.conversations (s_db s))
    /\ Conversation.id c' = Invite.conversationId invite
    /\ s_toasts s' = s_toasts s ++ [App.joined_chat]
    /\ s_user s' = s_user s
    /\ s_faults s' = []
    /\ Db.users (s_db s') = Db.users (s_db s)
    /\ Db.conversations (s_db s') = Db.conversations (s_db s).
Proof.
  intros Hs Hi He Hx Hm Hc Hcid.
  assert (He' : is_expired invite (next_now s) = false).
  { unfold is_expired. destruct (Invite.expiresAt invite) as [e|] eqn:E; [|reflexivity].
    specialize (He e eq_refl). apply andb_false_iff. right. apply Z.ltb_ge. exact He. }
  assert (Hx' : App.invite_exhausted invite = false).
  { unfold App.invite_exhausted. destruct (Invite.maxUses invite) as [n|] eqn:E; [|reflexivity].
    specialize (Hx n eq_refl). apply andb_false_iff. right.
    rewrite Z.geb_leb. apply Z.leb_gt. exact Hx. }
  destruct (handleInviteJoin_valid_run currentUser code s invite Hs Hi He' Hx')
    as (tr & _ & E).
  rewrite Hm in E.
  destruct (find_In (fun x => (Conversation.id x =? Invite.conversationId invite)%string)
              _ c Hc) as (c' & Ec & Hc' & Hid').
  { rewrite Hcid. apply String.eqb_refl. }
  apply String.eqb_eq in Hid'.
  destruct (after_expiry_check_frame invite (add_trace [CallList Invites] s))
    as (Hd0 & _ & _ & Ho0 & _).
  unfold select_conversation, conversation_by_id in E. simpl s_db in E.
  rewrite Hd0 in E. simpl s_db in E. simpl Db.conversations in E.
  rewrite Ec in E.
  assert (Hu0 : s_user (after_expiry_check invite (add_trace [CallList Invites] s))
                = s_user s)
    by (unfold after_expiry_check; destruct (Js.truthy_num _); reflexivity).
  assert (Hf0 : s_faults (after_expiry_check invite (add_trace [CallList Invites] s))
                = [])
    by (unfold after_expiry_check; destruct (Js.truthy_num _); exact Hs).
  eexists _, _, c'. split; [exact E|]. simpl.
  rewrite Hd0, Ho0, Hu0, Hf0. simpl.
  split; [reflexivity|]. split; [reflexivity|]. split; [reflexivity|].
  split; [unfold new_member; simpl ConversationMember.role;
          destruct (User.isGuest currentUser) as [[|]|]; reflexivity|].
  split; [reflexivity|].
  split; [|repeat split; assumption].
  apply in_map_iff. eexists. split; [|eapply directory_of_In].
  - reflexivity.
  - apply filter_In. split.
    + simpl. apply in_or_app. right. left. reflexivity.
    + simpl. apply String.eqb_refl.
  - exact Hc.
  - simpl. exact Hcid.
Qed.

(** X9: a user who is not yet a member redeems a valid invite (active,
    not expired, under its cap, its count in the range in which
    JavaScript numbers count exactly) of an existing conversation, and
    the store answers: one membership record of that conversation is
    added for the user, with role [guest] when the user is flagged as a
    guest and [member] otherwise; in the store the records with the id of
    the invite carry its [currentUses] plus one and every other invite is
    as before; the reloaded conversation list holds the conversation; the
    selection is the record of the conversation as the store holds it,
    without preview and without member list; the joined notification is
    shown. *)
Theorem handleInviteJoin_enrolls
    (currentUser : User.t) (code : string) (s : State) (invite : Invite.t)
    (c : Conversation.t) :
  s_faults s = [] ->
  redeemed_invite (s_db s) code = Some invite ->
  (forall e, Invite.expiresAt invite = Some e -> next_now s <= e) ->
  (forall n, Invite.maxUses invite = Some n -> Invite.currentUses invite < n) ->
  Z.abs (Invite.currentUses invite) < 2 ^ 53 ->
  membership (s_db s) (Invite.conversationId invite) (User.id currentUser) = None ->
  In c (Db.conversations (s_db s)) ->
  Conversation.id c = Invite.conversationId invite ->
  exists s' m c',
    App.handleInviteJoin currentUser code s = (Ok tt, s')
    /\ Db.conversationMembers (s_db s') = Db.conversationMembers (s_db s) ++ [m]
    /\ ConversationMember.conversationId m = Invite.conversationId invite
    /\ ConversationMember.userId m = User.id currentUser
    /\ ConversationMember.role m
       = match User.isGuest currentUser with
         | Some true => guest
         | _ => member
         end
    /\ Db.invites (s_db s')
       = map (fun i => if (Invite.id i =? Invite.id invite)%string
                       then invite_used (Invite.currentUses invite + 1) i
                       else i)
           (Db.invites (s_db s))
    /\ In c (map cv_conv (s_conversations s'))
    /\ s_selectedConversation s' = Some (mkConversationView c' None None)
    /\ In c' (Db.conversations (s_db s))
    /\ Conversation.id c' = Invite.conversationId invite
    /\ s_toasts s' = s_toasts s ++ [App.joined_chat].
Proof.
  intros Hs Hi He Hx _ Hm Hc Hcid.
  destruct (handleInviteJoin_fresh_member currentUser code s invite c
              Hs Hi He Hx Hm Hc Hcid)
    as (s' & m & c' & E & H1 & H2 & H3 & H4 & H5 & H6 & H7 & H8 & H9 & H10 & _).
  exists s', m, c'. repeat split; assumption.
Qed.

(** The guest Casey redeems the open invite of [conv_1], used 3 times so
    far: Casey's membership record has role [guest], the invite is used 4
    times, and [conv_1] is selected. *)
Lemma handleInviteJoin_enrolls_witness :
  exists s' m,
    App.handleInviteJoin casey "abc123" (s_invite invite_open casey) = (Ok tt, s')
    /\ Db.conversationMembers (s_db s') = [member_A; member_B; m]
    /\ ConversationMember.conversationId m = "conv_1"
    /\ ConversationMember.userId m = "guest_1"
    /\ ConversationMember.role m = guest
    /\ Db.invites (s_db s') = [invite_with (Some 1000) (Some 10) 4 true]
    /\ s_selectedConversation s' = Some (mkConversationView conv_1 None None)
    /\ s_toasts s' = [App.joined_chat].
Proof.
  destruct (handleInviteJoin_enrolls casey "abc123" (s_invite invite_open casey)
              invite_open conv_1)
    as (s' & m & c' & E & Hm & Hmc & Hmu & Hmr & Hi & _ & Hsel & [<-|[]] & _ & Ht).
  - reflexivity.
  - reflexivity.
  - intros e H. injection H as <-. vm_compute. discriminate.
  - intros n H. injection H as <-. simpl. lia.
  - vm_compute. reflexivity.
  - reflexivity.
  - simpl. tauto.
  - reflexivity.
  - exists s', m. repeat split; assumption.
Defined.

(* ================================================================= *)
(** ** Creating a private chat, and asking for it again *)

Lemma first_shared_none (d : Db.t) (userId targetUserId : string) :
  (forall c, ~ shares_private d userId targetUserId c) ->
  first_shared d targetUserId (memberships_of d userId) = None.
Proof.
  intros H.
  destruct (first_shared d targetUserId (memberships_of d userId)) as [c|] eqn:E;
    [|reflexivity].
  exfalso. apply first_shared_some in E. destruct E as (m & Hm & Hsh).
  apply filter_In in Hm. destruct Hm as [Hm Hu]. apply String.eqb_eq in Hu.
  exact (H c (shared_through_sound _ _ _ _ _ Hm Hu Hsh)).
Qed.

(** The run of [handleCreatePrivateChat] when the scan accepts [c]. *)
Lemma handleCreatePrivateChat_selects_run
    (user : User.t) (targetUserId : string) (s : State) (c : Conversation.t) :
  s_user s = Some user ->
  s_faults s = [] ->
  first_shared (s_db s) targetUserId (memberships_of (s_db s) (User.id user)) = Some c ->
  exists tr, forallb is_read tr = true /\
    App.handleCreatePrivateChat targetUserId s
    = (Ok tt, with_selectedConversation (Some (App.view_of c)) (add_trace tr s)).
Proof.
  intros Hu Hs Hf.
  unfold App.handleCreatePrivateChat. rewrite bind_gets, Hu. unfold try_catch.
  step_list.
  change (select (fun m => (ConversationMember.userId m =? User.id user)%string)
            None None (Db.conversationMembers (s_db s)))
    with (memberships_of (s_db s) (User.id user)).
  destruct (find_private_run targetUserId (memberships_of (s_db s) (User.id user))
              (add_trace [CallList ConversationMembers] s) Hs) as (tr & Htr & E).
  unfold bind at 1. rewrite E. clear E.
  change (s_db (add_trace [CallList ConversationMembers] s)) with (s_db s).
  rewrite Hf. rewrite add_trace_app.
  exists ([CallList ConversationMembers] ++ tr). split; [|reflexivity].
  rewrite forallb_app, Htr. reflexivity.
Qed.

(** The run of [handleCreatePrivateChat] when the scan accepts nothing. *)
Lemma handleCreatePrivateChat_creates_run
    (user : User.t) (targetUserId : string) (s : State) :
  s_user s = Some user ->
  s_faults s = [] ->
  first_shared (s_db s) targetUserId (memberships_of (s_db s) (User.id user)) = None ->
  exists s' c m1 m2 tr,
    App.handleCreatePrivateChat targetUserId s = (Ok tt, s')
    /\ Db.conversations (s_db s') = Db.conversations (s_db s) ++ [c]
    /\ Db.conversationMembers (s_db s')
       = Db.conversationMembers (s_db s) ++ [m1; m2]
    /\ c = Conversation.mk (next_conversation_id s) private None None None
             (User.id user) (Conversation.createdAt c) (Conversation.updatedAt c)
             (Conversation.lastMessageAt c)
    /\ m1 = ConversationMember.mk (ConversationMember.id m1)
              (next_conversation_id s) (User.id user) member None
    /\ m2 = ConversationMember.mk (ConversationMember.id m2)
              (next_conversation_id s) targetUserId member None
    /\ Db.users (s_db s') = Db.users (s_db s)
    /\ Db.messages (s_db s') = Db.messages (s_db s)
    /\ Db.invites (s_db s') = Db.invites (s_db s)
    /\ s_user s' = s_user s
    /\ s_faults s' = []
    /\ s_selectedConversation s' = s_selectedConversation s
    /\ s_conversations s' = directory_of (s_db s') (User.id user)
    /\ s_toasts s' = s_toasts s ++ [App.private_chat_created]
    /\ s_trace s' = s_trace s ++ tr
    /\ List.filter (fun x => negb (is_read x)) tr
       = [CallCreate Conversations; CallCreateMany ConversationMembers].
Proof.
  intros Hu Hs Hnone.
  unfold App.handleCreatePrivateChat. rewrite bind_gets, Hu. unfold try_catch.
  step_list.
  change (select (fun m => (ConversationMember.userId m =? User.id user)%string)
            None None (Db.conversationMembers (s_db s)))
    with (memberships_of (s_db s) (User.id user)).
  destruct (find_private_run targetUserId (memberships_of (s_db s) (User.id user))
              (add_trace [CallList ConversationMembers] s) Hs) as (t1 & Ht1 & E).
  unfold bind at 1. rewrite E. clear E.
  change (s_db (add_trace [CallList ConversationMembers] s)) with (s_db s).
  rewrite Hnone.
  rewrite bind_Date_now, bind_random_suffix, !bind_Date_now.
  rewrite bind_create by (simpl; exact Hs).
  rewrite !bind_Date_now.
  rewrite bind_createMany by (simpl; exact Hs).
  match goal with
  | |- context [bind (App.loadConversations ?u) ?k ?s0] =>
      destruct (bind_loadConversations u k s0) as (t2 & Ht2 & E);
      [simpl; exact Hs|rewrite E; clear E]
  end.
  eexists _, _, _, _,
    (([CallList ConversationMembers] ++ t1)
       ++ [CallCreate Conversations; CallCreateMany ConversationMembers] ++ t2).
  split; [reflexivity|]. simpl.
  repeat split; try assumption.
  - rewrite <- !app_assoc. reflexivity.
  - rewrite !filter_app. simpl.
    assert (Hro : forall t, forallb is_read t = true ->
                            List.filter (fun x => negb (is_read x)) t = []).
    { induction t as [|x t IH]; simpl; [reflexivity|].
      intros H. apply andb_true_iff in H. destruct H as [Hx Ht].
      rewrite Hx. simpl. now apply IH. }
    rewrite (Hro t1 Ht1), (Hro t2 Ht2). reflexivity.
Qed.

(** X10: the signed-in user asks for a private chat with a target with
    whom no private conversation is shared, and the store answers: one
    conversation record of type [private], created by the user, and a
    batch of two membership records of it, the user's and the target's,
    both with role [member], are added; the reloaded list of the user
    holds the new conversation; the selection is left as it was. *)
Theorem handleCreatePrivateChat_creates
    (user : User.t) (targetUserId : string) (s : State) :
  s_user s = Some user ->
  s_faults s = [] ->
  (forall c, ~ shares_private (s_db s) (User.id user) targetUserId c) ->
  exists s' c m1 m2,
    App.handleCreatePrivateChat targetUserId s = (Ok tt, s')
    /\ Db.conversations (s_db s') = Db.conversations (s_db s) ++ [c]
    /\ Conversation.type c = private
    /\ Conversation.createdBy c = User.id user
    /\ Db.conversationMembers (s_db s')
       = Db.conversationMembers (s_db s) ++ [m1; m2]
    /\ ConversationMember.conversationId m1 = Conversation.id c
    /\ ConversationMember.conversationId m2 = Conversation.id c
    /\ ConversationMember.userId m1 = User.id user
    /\ ConversationMember.userId m2 = targetUserId
    /\ ConversationMember.role m1 = member
    /\ ConversationMember.role m2 = member
    /\ In c (map cv_conv (s_conversations s'))
    /\ s_selectedConversation s' = s_selectedConversation s
    /\ s_toasts s' = s_toasts s ++ [App.private_chat_created].
Proof.
  intros Hu Hs Hno.
  destruct (handleCreatePrivateChat_creates_run user targetUserId s Hu Hs
              (first_shared_none _ _ _ Hno))
    as (s' & c & m1 & m2 & tr & E & Hc & Hm & Ec & E1 & E2 & _ & _ & _ & _ & _
        & Hsel & Hlist & Ht & _).
  exists s', c, m1, m2. split; [exact E|].
  split; [exact Hc|]. rewrite Ec, E1, E2. simpl.
  split; [reflexivity|]. split; [reflexivity|].
  split; [rewrite Hm, <- E1, <- E2; reflexivity|].
  repeat (split; [reflexivity|]).
  split; [|split; assumption].
  rewrite Hlist. apply in_map_iff. exists (details_of (s_db s') c).
  split; [rewrite Ec; reflexivity|].
  apply directory_of_In with m1.
  - apply filter_In. split.
    + rewrite Hm. apply in_or_app. right. now left.
    + rewrite E1. simpl. apply String.eqb_refl.
  - rewrite Hc. apply in_or_app. right. now left.
  - rewrite Ec, E1. reflexivity.
Qed.

Lemma handleCreatePrivateChat_creates_witness :
  let user := alice in
  let targetUserId := "guest_1" in
  let s := s_chat in
  exists s' c m1 m2,
    App.handleCreatePrivateChat targetUserId s = (Ok tt, s')
    /\ Db.conversations (s_db s') = Db.conversations (s_db s) ++ [c]
    /\ Conversation.type c = private
    /\ Conversation.createdBy c = User.id user
    /\ Db.conversationMembers (s_db s')
       = Db.conversationMembers (s_db s) ++ [m1; m2]
    /\ ConversationMember.conversationId m1 = Conversation.id c
    /\ ConversationMember.conversationId m2 = Conversation.id c
    /\ ConversationMember.userId m1 = User.id user
    /\ ConversationMember.userId m2 = targetUserId
    /\ ConversationMember.role m1 = member
    /\ ConversationMember.role m2 = member
    /\ In c (map cv_conv (s_conversations s'))
    /\ s_selectedConversation s' = s_selectedConversation s
    /\ s_toasts s' = s_toasts s ++ [App.private_chat_created].
Proof.
  intros user targetUserId s.
  apply (handleCreatePrivateChat_creates user targetUserId s).
  - reflexivity.
  - reflexivity.
  - intros c (Hin & _ & _ & _ & (m & Hm & Hu)). destruct Hin as [<-|[]].
    vm_compute in Hm. destruct Hm as [<-|[<-|[]]]; discriminate Hu.
Defined.

(** X11: asking twice.  The signed-in user asks for a private chat with a
    target with whom none is shared, the id drawn for the conversation is
    carried by no record of the store, and the store answers.  A second
    request with the same target then creates nothing: it leaves the store
    as the first request left it, issues read calls only, and selects the
    conversation that the first request created: the selection is the
    record the first request added to the store, without preview and
    without member list. *)
Theorem handleCreatePrivateChat_twice
    (user : User.t) (targetUserId : string) (s : State) :
  s_user s = Some user ->
  s_faults s = [] ->
  (forall c, ~ shares_private (s_db s) (User.id user) targetUserId c) ->
  fresh_conversation_id (s_db s) (next_conversation_id s) ->
  exists s1 s2 c tr,
    App.handleCreatePrivateChat targetUserId s = (Ok tt, s1)
    /\ App.handleCreatePrivateChat targetUserId s1 = (Ok tt, s2)
    /\ Db.conversations (s_db s1) = Db.conversations (s_db s) ++ [c]
    /\ s_db s2 = s_db s1
    /\ s_selectedConversation s2 = Some (mkConversationView c None None)
    /\ s_trace s2 = s_trace s1 ++ tr
    /\ forallb is_read tr = true.
Proof.
  intros Hu Hs Hno [Hfc Hfm].
  destruct (handleCreatePrivateChat_creates_run user targetUserId s Hu Hs
              (first_shared_none _ _ _ Hno))
    as (s1 & c & m1 & m2 & tr1 & E1 & Hc & Hm & Ec & Em1 & Em2 & Husers & Hmsgs
        & Hinv & Hu1 & Hs1 & _).
  rewrite Hu in Hu1.
  assert (Hmem : forall id,
    members_of (s_db s1) id
    = members_of (s_db s) id
        ++ filter (fun m => (ConversationMember.conversationId m =? id)%string)
             [m1; m2]).
  { intros id. unfold members_of. rewrite Hm. apply filter_app. }
  assert (Hnew : shares_private (s_db s1) (User.id user) targetUserId c).
  { split; [rewrite Hc; apply in_or_app; right; now left|].
    split; [rewrite Ec; reflexivity|].
    split.
    { exists m1. split; [rewrite Hm; apply in_or_app; right; now left|].
      rewrite Em1, Ec. simpl. split; reflexivity. }
    rewrite Hmem.
    assert (Hold : members_of (s_db s) (Conversation.id c) = []).
    { unfold members_of. rewrite Ec. simpl.
      destruct (filter _ (Db.conversationMembers (s_db s))) as [|m l] eqn:Ef;
        [reflexivity|].
      assert (Hin : In m (filter
                (fun m0 => (ConversationMember.conversationId m0
                            =? next_conversation_id s)%string)
                (Db.conversationMembers (s_db s)))) by (rewrite Ef; now left).
      apply filter_In in Hin. destruct Hin as [Hin Heq].
      apply String.eqb_eq in Heq. exfalso. exact (Hfm m Hin Heq). }
    rewrite Hold, Em1, Em2, Ec. simpl. rewrite !String.eqb_refl. simpl.
    split; [reflexivity|].
    eexists. split; [right; left; reflexivity|reflexivity]. }
  destruct (first_shared (s_db s1) targetUserId (memberships_of (s_db s1) (User.id user)))
    as [c'|] eqn:Ef.
  2:{ exfalso. destruct (shared_through_complete _ _ _ _ Hnew) as (m & Hin & Hne).
      exact (first_shared_exists _ _ _ _ Hin Hne Ef). }
  assert (Hc' : shares_private (s_db s1) (User.id user) targetUserId c').
  { apply first_shared_some in Ef. destruct Ef as (m & Hin & Hsh).
    apply filter_In in Hin. destruct Hin as [Hin Heq]. apply String.eqb_eq in Heq.
    exact (shared_through_sound _ _ _ _ _ Hin Heq Hsh). }
  assert (Heq : c' = c).
  { destruct Hc' as (Hin & Hty & (m & Hmin & Hmu & Hmc) & Hlen & (mB & HmB & HB)).
    rewrite Hc in Hin. apply in_app_or in Hin.
    destruct Hin as [Hin|[Hin|[]]]; [|now symmetry].
    exfalso. pose proof (Hfc c' Hin) as Hid.
    assert (Hfil : filter (fun m0 => (ConversationMember.conversationId m0
                                      =? Conversation.id c')%string) [m1; m2] = []).
    { assert (H1 : ConversationMember.conversationId m1 = next_conversation_id s)
        by (rewrite Em1; reflexivity).
      assert (H2 : ConversationMember.conversationId m2 = next_conversation_id s)
        by (rewrite Em2; reflexivity).
      assert (Hb : (next_conversation_id s =? Conversation.id c')%string = false)
        by (apply String.eqb_neq; congruence).
      cbn [filter]. rewrite H1, H2, Hb. reflexivity. }
    rewrite Hmem, Hfil, app_nil_r in Hlen, HmB.
    apply (Hno c'). split; [exact Hin|]. split; [exact Hty|].
    split; [|split; [exact Hlen|exists mB; tauto]].
    exists m. rewrite Hm in Hmin. apply in_app_or in Hmin.
    destruct Hmin as [Hmin|[Hmin|[Hmin|[]]]]; [tauto| |].
    - exfalso. rewrite <- Hmin, Em1 in Hmc. simpl in Hmc. congruence.
    - exfalso. rewrite <- Hmin, Em2 in Hmc. simpl in Hmc. congruence. }
  subst c'.
  destruct (handleCreatePrivateChat_selects_run user targetUserId s1 c Hu1 Hs1 Ef)
    as (tr & Htr & E2).
  eexists s1, _, c, tr. split; [exact E1|]. split; [exact E2|].
  split; [exact Hc|]. simpl. repeat split. exact Htr.
Qed.

Lemma handleCreatePrivateChat_twice_witness :
  let user := alice in
  let targetUserId := "guest_1" in
  let s := s_chat in
  exists s1 s2 c tr,
    App.handleCreatePrivateChat targetUserId s = (Ok tt, s1)
    /\ App.handleCreatePrivateChat targetUserId s1 = (Ok tt, s2)
    /\ Db.conversations (s_db s1) = Db.conversations (s_db s) ++ [c]
    /\ s_db s2 = s_db s1
    /\ s_selectedConversation s2 = Some (mkConversationView c None None)
    /\ s_trace s2 = s_trace s1 ++ tr
    /\ forallb is_read tr = true.
Proof.
  intros user targetUserId s.
  apply (handleCreatePrivateChat_twice user targetUserId s).
  - reflexivity.
  - reflexivity.
  - intros c (Hin & _ & _ & _ & (m & Hm & Hu)). destruct Hin as [<-|[]].
    vm_compute in Hm. destruct Hm as [<-|[<-|[]]]; discriminate Hu.
  - split.
    + intros c [<-|[]]. vm_compute. discriminate.
    + intros m [<-|[<-|[]]]; vm_compute; discriminate.
Defined.

(* ================================================================= *)
(** ** Creating a group with any list of members *)

(** X12: a signed-in user creates a group with any list of member ids
    (the empty list too), and the store answers: one conversation record
    of type [group] with the given name and description is added, and one
    batch of membership records of it: the creator's first (role [guest]
    when the creator is flagged as a guest, [admin] otherwise), then one
    record with role [member]
    for each supplied id, in the order given
    (an id listed twice gets two records); the reloaded list of the
    creator holds the new group. *)
Theorem handleCreateGroup_members
    (user : User.t) (name description : string) (memberIds : list string)
    (s : State) :
  s_user s = Some user ->
  s_faults s = [] ->
  exists s' c creator others,
    App.handleCreateGroup name description memberIds s = (Ok tt, s')
    /\ Db.conversations (s_db s') = Db.conversations (s_db s) ++ [c]
    /\ Conversation.type c = group
    /\ Conversation.name c = Some name
    /\ Conversation.description c = Some description
    /\ Db.conversationMembers (s_db s')
       = Db.conversationMembers (s_db s) ++ creator :: others
    /\ ConversationMember.conversationId creator = Conversation.id c
    /\ ConversationMember.userId creator = User.id user
    /\ ConversationMember.role creator
       = match User.isGuest user with
         | Some true => guest
         | _ => admin
         end
    /\ map ConversationMember.userId others = memberIds
    /\ Forall (fun r => ConversationMember.conversationId r = Conversation.id c
                        /\ ConversationMember.role r = member) others
    /\ In c (map cv_conv (s_conversations s')).
Proof.
  intros Hu Hs.
  unfold App.handleCreateGroup. rewrite bind_gets, Hu. unfold try_catch.
  rewrite bind_Date_now, bind_random_suffix, !bind_Date_now.
  rewrite bind_create by (simpl; exact Hs).
  rewrite bind_Date_now.
  match goal with
  | |- context [bind (App.push_members ?cid 0 memberIds) ?k ?s0] =>
      destruct (push_members_run cid memberIds 0 s0)
        as (others & n & t & E & Hn & Hids & Hothers);
      unfold bind at 1; rewrite E; clear E
  end.
  rewrite bind_createMany by (simpl; exact Hs).
  match goal with
  | |- context [bind (App.loadConversations ?u) ?k ?s0] =>
      destruct (bind_loadConversations u k s0) as (tr & Htr & E);
      [simpl; exact Hs|rewrite E; clear E]
  end.
  eexists _, _, _, others. split; [reflexivity|]. simpl.
  do 7 (split; [reflexivity|]).
  split; [destruct (User.isGuest user) as [[|]|]; reflexivity|].
  split; [exact Hids|]. split; [exact Hothers|].
  apply in_map_iff. eexists. split; [|eapply directory_of_In].
  - reflexivity.
  - apply filter_In. split.
    + simpl. apply in_or_app. right. left. reflexivity.
    + simpl. apply String.eqb_refl.
  - simpl. apply in_or_app. right. now left.
  - reflexivity.
Qed.

(** The guest Casey creates the group Team and lists Bob twice: Casey's
    record has role [guest], and Bob gets two records. *)
Lemma handleCreateGroup_members_witness :
  exists s' c creator others,
    App.handleCreateGroup "Team" "" ["B"; "A"; "B"] s_lonely = (Ok tt, s')
    /\ Db.conversations (s_db s') = [conv_1; c]
    /\ Conversation.type c = group
    /\ Conversation.name c = Some "Team"
    /\ Db.conversationMembers (s_db s') = member_A :: member_B :: creator :: others
    /\ ConversationMember.userId creator = "guest_1"
    /\ ConversationMember.role creator = guest
    /\ map ConversationMember.userId others = ["B"; "A"; "B"]
    /\ In c (map cv_conv (s_conversations s')).
Proof.
  destruct (handleCreateGroup_members casey "Team" "" ["B"; "A"; "B"] s_lonely)
    as (s' & c & creator & others & E & Hc & Hty & Hn & _ & Hm & _ & Hu & Hr
        & Hids & _ & Hin).
  - reflexivity.
  - reflexivity.
  - exists s', c, creator, others. repeat split; assumption.
Defined.

(* ================================================================= *)
(** ** Timestamps stay behind the clock *)

(** X13: the handlers that write conversation records keep every stored
    [lastMessageAt] behind the clock: when that holds before a send, a
    group creation or a private-chat request that the store answers, it
    holds after it. *)
Theorem timestamps_not_ahead_kept
    (user : User.t) (conversation : ConversationView)
    (name description targetUserId : string) (memberIds : list string)
    (s : State) :
  s_user s = Some user ->
  s_faults s = [] ->
  timestamps_not_ahead s ->
  (Js.trim (s_newMessage s) <> "" -> s_sending s = false ->
   timestamps_not_ahead
     (snd (ChatView.sendMessage user conversation (App_onRefresh user) s)))
  /\ timestamps_not_ahead (snd (App.handleCreateGroup name description memberIds s))
  /\ timestamps_not_ahead (snd (App.handleCreatePrivateChat targetUserId s)).
Proof.
  intros Hu Hs Hinv. split; [|split].
  - intros Ht Hsend. now apply sendMessage_timestamps_not_ahead.
  - now apply handleCreateGroup_timestamps_not_ahead with user.
  - now apply handleCreatePrivateChat_timestamps_not_ahead with user.
Qed.

Lemma timestamps_not_ahead_kept_witness :
  let user := alice in
  let conversation := App.view_of conv_1 in
  let name := "Team" in
  let description := "" in
  let targetUserId := "guest_1" in
  let memberIds := ["B"] in
  let s := s_chat in
  (Js.trim (s_newMessage s) <> "" -> s_sending s = false ->
   timestamps_not_ahead
     (snd (ChatView.sendMessage user conversation (App_onRefresh user) s)))
  /\ timestamps_not_ahead (snd (App.handleCreateGroup name description memberIds s))
  /\ timestamps_not_ahead (snd (App.handleCreatePrivateChat targetUserId s)).
Proof.
  intros user conversation name description targetUserId memberIds s.
  apply (timestamps_not_ahead_kept
           user conversation name description targetUserId memberIds s).
  - reflexivity.
  - reflexivity.
  - intros c [<-|[]]. simpl. lia.
Defined.

(* ================================================================= *)
(** ** Stepping through a component *)

Lemma cbind_lift {L A B} (m : M A) (k : A -> CM L B) (l : L) (s s' : State) (a : A) :
  m s = (Ok a, s') -> cbind (lift m) k (l, s) = k a (l, s').
Proof. intros E. unfold cbind, lift. simpl. now rewrite E. Qed.

Lemma cbind_lift_throw {L A B} (m : M A) (k : A -> CM L B) (l : L) (s s' : State) :
  m s = (Throw, s') -> cbind (lift m) k (l, s) = (Throw, (l, s')).
Proof. intros E. unfold cbind, lift. simpl. now rewrite E. Qed.

Lemma cbind_cgets {L A B} (f : L -> A) (k : A -> CM L B) (l : L) (s : State) :
  cbind (cgets f) k (l, s) = k (f l) (l, s).
Proof. reflexivity. Qed.

Lemma cbind_cmodify {L B} (f : L -> L) (k : unit -> CM L B) (l : L) (s : State) :
  cbind (cmodify f) k (l, s) = k tt (f l, s).
Proof. reflexivity. Qed.



Lemma cbind_ok {L A B} (m : CM L A) (k : A -> CM L B) ls (a : A) ls' :
  m ls = (Ok a, ls') -> cbind m k ls = k a ls'.
Proof. intros E. unfold cbind. now rewrite E. Qed.

Lemma cbind_throw {L A B} (m : CM L A) (k : A -> CM L B) ls ls' :
  m ls = (Throw, ls') -> cbind m k ls = (Throw, ls').
Proof. intros E. unfold cbind. now rewrite E. Qed.





(* ================================================================= *)
(** ** Signing in *)


Lemma create_failed {A} c (coll : Db.t -> list A) set r s :
  hd false (s_faults s) = true ->
  blink.create c coll set r s
  = (Throw, with_faults (tl (s_faults s)) (add_trace [CallCreate c] s)).
Proof.
  intros H. unfold blink.create, bind, modify, store_call. now rewrite H.
Qed.




(** X15: when the create of the guest's user record fails, nobody is
    signed in, whatever would run during a later suspension: the user,
    the store, the guest login and the pending invite code are as before,
    and the failure notification is shown. *)
Theorem handleGuestLogin_create_fails
    (suspended : CM Session.Ui unit) (guestName : string) (l : Session.Ui)
    (s : State) :
  hd false (s_faults s) = true ->
  exists s',
    Session.handleGuestLogin suspended guestName (l, s) = (Ok tt, (l, s'))
    /\ s_user s' = s_user s
    /\ s_db s' = s_db s
    /\ s_toasts s' = s_toasts s ++ [Session.guest_failed]
    /\ s_trace s' = s_trace s ++ [CallCreate Users].
Proof.
  intros Hf.
  unfold Session.handleGuestLogin, ctry_catch.
  rewrite (cbind_lift Date_now _ l s _ _ eq_refl).
  rewrite (cbind_lift random_suffix _ l _ _ _ eq_refl).
  rewrite (cbind_lift Date_now _ l _ _ _ eq_refl).
  match goal with
  | |- context [cbind (lift (blink.create ?c ?coll ?set ?r)) ?k (?l0, ?s0)] =>
      rewrite (cbind_lift_throw _ k l0 s0 _ (create_failed c coll set r s0 Hf))
  end.
  eexists. split; [reflexivity|]. simpl. repeat split.
Qed.

Lemma handleGuestLogin_create_fails_witness :
  let suspended :=
    Session.onAuthStateChanged (Session.mkAuthState None false) in
  let guestName := "Casey" in
  let l := ui_invited in
  let s := with_faults [true] s_signed_out in
  exists s',
    Session.handleGuestLogin suspended guestName (l, s) = (Ok tt, (l, s'))
    /\ s_user s' = s_user s
    /\ s_db s' = s_db s
    /\ s_toasts s' = s_toasts s ++ [Session.guest_failed]
    /\ s_trace s' = s_trace s ++ [CallCreate Users].
Proof.
  intros suspended guestName l s.
  apply (handleGuestLogin_create_fails suspended guestName l s).
  - reflexivity.
Defined.








(** X18: when the create of the user record of a signed-in identity fails,
    the identity is not signed in: the user and the store are as before,
    the conversation list is not loaded, the pending invite is not
    redeemed and stays pending, the failure notification is shown, and
    [loading] takes the reported value. *)
Theorem onAuthStateChanged_create_fails
    (id email : string) (isLoading : bool) (l : Session.Ui) (s : State) :
  hd false (s_faults s) = true ->
  exists l' s',
    Session.onAuthStateChanged
      (Session.mkAuthState (Some (id, email)) isLoading) (l, s)
    = (Ok tt, (l', s'))
    /\ s_user s' = s_user s
    /\ s_db s' = s_db s
    /\ s_conversations s' = s_conversations s
    /\ s_toasts s' = s_toasts s ++ [Session.init_failed]
    /\ s_trace s' = s_trace s ++ [CallCreate Users]
    /\ Session.inviteCode l' = Session.inviteCode l
    /\ Session.showGuestLogin l' = Session.showGuestLogin l
    /\ Session.loading l' = isLoading.
Proof.
  intros Hf.
  unfold Session.onAuthStateChanged. cbn [Session.auth_user Session.isLoading].
  unfold cbind at 1, ctry_catch.
  rewrite (cbind_lift Date_now _ l s _ _ eq_refl).
  match goal with
  | |- context [cbind (lift (blink.create ?c ?coll ?set ?r)) ?k (?l0, ?s0)] =>
      rewrite (cbind_lift_throw _ k l0 s0 _ (create_failed c coll set r s0 Hf))
  end.
  eexists _, _. split; [reflexivity|]. simpl. repeat split.
Qed.

Lemma onAuthStateChanged_create_fails_witness :
  let id := "D" in
  let email := "dana@example.com" in
  let isLoading := false in
  let l := ui_invited in
  let s := with_faults [true] s_signed_out in
  exists l' s',
    Session.onAuthStateChanged
      (Session.mkAuthState (Some (id, email)) isLoading) (l, s)
    = (Ok tt, (l', s'))
    /\ s_user s' = s_user s
    /\ s_db s' = s_db s
    /\ s_conversations s' = s_conversations s
    /\ s_toasts s' = s_toasts s ++ [Session.init_failed]
    /\ s_trace s' = s_trace s ++ [CallCreate Users]
    /\ Session.inviteCode l' = Session.inviteCode l
    /\ Session.showGuestLogin l' = Session.showGuestLogin l
    /\ Session.loading l' = isLoading.
Proof.
  intros id email isLoading l s.
  apply (onAuthStateChanged_create_fails id email isLoading l s).
  - reflexivity.
Defined.

(* ================================================================= *)
(** ** Names, headers and search *)

Lemma loaded_private_has_no_members (d : Db.t) (userId : string)
    (cv : ConversationView) :
  In cv (directory_of d userId) ->
  Conversation.type (cv_conv cv) = private ->
  cv_members cv = None.
Proof.
  intros Hin Hty. apply directory_of_sound in Hin. destruct Hin as (E & _).
  rewrite E. unfold details_of. simpl. now rewrite Hty.
Qed.

(** X19: in the list that [loadConversations] commits, no private
    conversation carries members, so for whoever looks at it the sidebar
    name and the header title of every private conversation of the list
    are Unknown User and its header subtitle is empty. *)
Theorem loaded_private_chats_unnamed
    (userId : string) (s : State) (viewer : User.t) (cv : ConversationView) :
  s_faults s = [] ->
  In cv (s_conversations (snd (App.loadConversations userId s))) ->
  Conversation.type (cv_conv cv) = private ->
  ChatSidebar.getConversationName viewer cv = "Unknown User"
  /\ Header.getConversationTitle viewer cv = "Unknown User"
  /\ Header.getConversationSubtitle viewer cv = "".
Proof.
  intros Hs Hin Hty.
  destruct (loadConversations_ok userId s Hs) as (tr & _ & E).
  rewrite E in Hin. simpl in Hin.
  pose proof (loaded_private_has_no_members _ _ _ Hin Hty) as Hm.
  unfold ChatSidebar.getConversationName, Header.getConversationTitle,
    Header.getConversationSubtitle, other_member.
  rewrite Hty, Hm. repeat split.
Qed.

Lemma loaded_private_chats_unnamed_witness :
  let userId := "A" in
  let s := s_team in
  let viewer := alice in
  let cv := mkConversationView conv_1 None None in
  ChatSidebar.getConversationName viewer cv = "Unknown User"
  /\ Header.getConversationTitle viewer cv = "Unknown User"
  /\ Header.getConversationSubtitle viewer cv = "".
Proof.
  intros userId s viewer cv.
  apply (loaded_private_chats_unnamed userId s viewer cv).
  - reflexivity.
  - vm_compute. tauto.
  - reflexivity.
Defined.

(** X20: the search of the sidebar over the list that [loadConversations]
    commits: an empty query keeps the whole list, and a query that is not
    empty keeps no private conversation, whatever the text comparison. *)
Theorem search_over_loaded_list
    (includes_ci : string -> string -> bool) (userId searchQuery : string)
    (s : State) (viewer : User.t) :
  s_faults s = [] ->
  let conversations := s_conversations (snd (App.loadConversations userId s)) in
  ChatSidebar.filteredConversations includes_ci viewer "" conversations
  = conversations
  /\ (searchQuery <> "" ->
      forall cv,
        In cv (ChatSidebar.filteredConversations includes_ci viewer searchQuery
                 conversations) ->
        Conversation.type (cv_conv cv) = group).
Proof.
  intros Hs conversations. split.
  - unfold ChatSidebar.filteredConversations, ChatSidebar.matches_query. simpl.
    induction conversations as [|cv l IH]; simpl; [reflexivity|now rewrite IH].
  - intros Hq cv Hin.
    apply filter_In in Hin. destruct Hin as [Hin Hm].
    destruct (Conversation.type (cv_conv cv)) eqn:Hty; [exfalso|reflexivity].
    subst conversations.
    destruct (loadConversations_ok userId s Hs) as (tr & _ & E).
    rewrite E in Hin. simpl in Hin.
    pose proof (loaded_private_has_no_members _ _ _ Hin Hty) as Hnone.
    unfold ChatSidebar.matches_query, other_member in Hm.
    rewrite Hty, Hnone in Hm.
    apply String.eqb_neq in Hq. unfold Js.truthy_str in Hm. rewrite Hq in Hm.
    discriminate.
Qed.

Lemma search_over_loaded_list_witness :
  let includes_ci := fun a b : string => String.prefix b a in
  let userId := "A" in
  let searchQuery := "Te" in
  let s := s_team in
  let viewer := alice in
  let conversations := s_conversations (snd (App.loadConversations userId s)) in
  ChatSidebar.filteredConversations includes_ci viewer "" conversations
  = conversations
  /\ (searchQuery <> "" ->
      forall cv,
        In cv (ChatSidebar.filteredConversations includes_ci viewer searchQuery
                 conversations) ->
        Conversation.type (cv_conv cv) = group).
Proof.
  intros includes_ci userId searchQuery s viewer.
  apply (search_over_loaded_list includes_ci userId searchQuery s viewer).
  - reflexivity.
Defined.

Lemma find_existsb {A} (w : A -> bool) (l : list A) :
  existsb w l = match find w l with Some _ => true | None => false end.
Proof.
  induction l as [|x l IH]; simpl; [reflexivity|].
  destruct (w x); [reflexivity|exact IH].
Qed.

(** The members the load attaches to a group are as many as the
    membership records of the group whose user has a record. *)
Lemma found_members_length (d : Db.t) (ms : list ConversationMember.t) :
  List.length
    (App.filter_Boolean
       (map (fun m => hd_error (users_with_id d (ConversationMember.userId m))) ms))
  = List.length
      (filter (fun m => existsb (fun u => (User.id u =? ConversationMember.userId m)%string)
                          (Db.users d)) ms).
Proof.
  induction ms as [|m ms IH]; simpl; [reflexivity|].
  unfold users_with_id at 1. rewrite select_find, find_existsb.
  destruct (find _ (Db.users d)); simpl; now rewrite IH.
Qed.

(** X21: for every group of the list that [loadConversations] commits, the
    header subtitle is the number of the membership records of the group
    whose user has a user record in the store, followed by the word
    members: a member without user record is not counted. *)
Theorem loaded_group_subtitle
    (userId : string) (s : State) (viewer : User.t) (cv : ConversationView) :
  s_faults s = [] ->
  In cv (s_conversations (snd (App.loadConversations userId s))) ->
  Conversation.type (cv_conv cv) = group ->
  Header.getConversationSubtitle viewer cv
  = (Js.num_to_string
       (Z.of_nat
          (List.length
             (filter
                (fun m => existsb
                            (fun u => (User.id u =? ConversationMember.userId m)%string)
                            (Db.users (s_db s)))
                (members_of (s_db s) (Conversation.id (cv_conv cv))))))
     ++ " members")%string.
Proof.
  intros Hs Hin Hty.
  destruct (loadConversations_ok userId s Hs) as (tr & _ & E).
  rewrite E in Hin. simpl in Hin.
  apply directory_of_sound in Hin. destruct Hin as (Ecv & _).
  unfold Header.getConversationSubtitle, Header.memberCount.
  rewrite Hty. rewrite Ecv. unfold details_of. simpl. rewrite Hty.
  now rewrite found_members_length.
Qed.

(** In the group [Team] of Alice and Bob, both with a user record, the
    subtitle counts 2; in the same store without Bob's user record it
    counts 1. *)
Lemma loaded_group_subtitle_witness :
  Header.getConversationSubtitle alice
    (mkConversationView conv_team None (Some [alice; bob]))
  = "2 members"
  /\ Header.getConversationSubtitle alice
       (mkConversationView conv_team None (Some [alice]))
     = "1 members".
Proof.
  split.
  - rewrite (loaded_group_subtitle "A" s_team alice
               (mkConversationView conv_team None (Some [alice; bob]))).
    + reflexivity.
    + reflexivity.
    + vm_compute. tauto.
    + reflexivity.
  - rewrite (loaded_group_subtitle "A" s_team_without_bob alice
               (mkConversationView conv_team None (Some [alice]))).
    + reflexivity.
    + reflexivity.
    + vm_compute. tauto.
    + reflexivity.
Defined.

Lemma quotient_bounds (diff k lo hi : Z) :
  0 < k -> lo * k <= diff -> diff < (hi + 1) * k ->
  lo <= diff / k <= hi.
Proof.
  intros Hk Hlo Hhi. split.
  - apply Z.div_le_lower_bound; lia.
  - assert (diff / k < hi + 1) by (apply Z.div_lt_upper_bound; lia). lia.
Qed.

(** X22: the age label of the sidebar reads the clock once and shows: now
    for a message less than a minute old, a message from the future
    included; a number of minutes from 1 to 59; a number of hours from 1
    to 23; a number of days from 1 to 6; and the date from seven days on. *)
Theorem formatLastMessageTime_buckets
    (toLocaleDateString : Z -> string) (timestamp : Z) (s : State) :
  exists label,
    ChatSidebar.formatLastMessageTime toLocaleDateString timestamp s
    = (Ok label, with_clock (next_now s) (tl (s_ticks s)) s)
    /\ (next_now s - timestamp < 60000 -> label = "now")
    /\ (60000 <= next_now s - timestamp < 3600000 ->
        exists k, 1 <= k <= 59 /\ label = (Js.num_to_string k ++ "m")%string)
    /\ (3600000 <= next_now s - timestamp < 86400000 ->
        exists k, 1 <= k <= 23 /\ label = (Js.num_to_string k ++ "h")%string)
    /\ (86400000 <= next_now s - timestamp < 604800000 ->
        exists k, 1 <= k <= 6 /\ label = (Js.num_to_string k ++ "d")%string)
    /\ (604800000 <= next_now s - timestamp ->
        label = toLocaleDateString timestamp).
Proof.
  unfold ChatSidebar.formatLastMessageTime. rewrite bind_Date_now.
  set (diff := next_now s - timestamp).
  destruct (Z.ltb_spec diff 60000) as [H1|H1].
  { eexists. split; [reflexivity|]. repeat split; intros; try lia. }
  destruct (Z.ltb_spec diff 3600000) as [H2|H2].
  { eexists. split; [reflexivity|]. repeat split; intros; try lia.
    exists (diff / 60000). split; [apply quotient_bounds; lia|reflexivity]. }
  destruct (Z.ltb_spec diff 86400000) as [H3|H3].
  { eexists. split; [reflexivity|]. repeat split; intros; try lia.
    exists (diff / 3600000). split; [apply quotient_bounds; lia|reflexivity]. }
  destruct (Z.ltb_spec diff 604800000) as [H4|H4].
  { eexists. split; [reflexivity|]. repeat split; intros; try lia.
    exists (diff / 86400000). split; [apply quotient_bounds; lia|reflexivity]. }
  eexists. split; [reflexivity|]. repeat split; intros; try lia.
Qed.

(* ================================================================= *)
(** ** The group dialog: selecting members *)

Lemma is_selected_app (id : string) (a b : list User.t) :
  is_selected id (a ++ b) = is_selected id a || is_selected id b.
Proof. unfold is_selected. apply existsb_app. Qed.

Lemma is_selected_remove (id removed : string) (selected : list User.t) :
  is_selected id
    (filter (fun u => negb (User.id u =? removed)%string) selected)
  = negb (id =? removed)%string && is_selected id selected.
Proof.
  unfold is_selected. induction selected as [|u rest IH]; simpl.
  - now rewrite andb_false_r.
  - destruct (String.eqb_spec (User.id u) removed) as [E|E]; simpl.
    + rewrite IH. destruct (String.eqb_spec (User.id u) id) as [E'|E']; simpl.
      * rewrite <- E', E, String.eqb_refl. reflexivity.
      * reflexivity.
    + rewrite IH. destruct (String.eqb_spec (User.id u) id) as [E'|E']; simpl.
      * rewrite <- E'. apply String.eqb_neq in E. now rewrite E.
      * reflexivity.
Qed.

Lemma is_selected_In (id : string) (selected : list User.t) :
  is_selected id selected = true <-> In id (map User.id selected).
Proof.
  unfold is_selected. rewrite existsb_exists, in_map_iff.
  split; intros (u & H1 & H2).
  - exists u. apply String.eqb_eq in H2. now split.
  - exists u. split; [exact H2|]. now apply String.eqb_eq.
Qed.

Lemma NoDup_ids_filter (p : User.t -> bool) (selected : list User.t) :
  NoDup (map User.id selected) -> NoDup (map User.id (filter p selected)).
Proof.
  induction selected as [|u rest IH]; simpl; intros H; [constructor|].
  inversion H as [|? ? Hn Hr]; subst.
  destruct (p u); simpl; [|now apply IH].
  constructor; [|now apply IH].
  intros Hin. apply Hn. apply in_map_iff in Hin.
  destruct Hin as (v & Hv & Hf). apply filter_In in Hf.
  apply in_map_iff. exists v. now split.
Qed.

Lemma NoDup_ids_snoc (user : User.t) (selected : list User.t) :
  NoDup (map User.id selected) ->
  is_selected (User.id user) selected = false ->
  NoDup (map User.id (selected ++ [user])).
Proof.
  intros H Hsel. rewrite map_app. simpl.
  apply NoDup_app; [exact H|repeat constructor; intros []|].
  intros id Hid [<-|[]].
  apply is_selected_In in Hid. congruence.
Qed.

(** X23: a click on a user in the group dialog flips that user's
    selection and nobody else's, and leaves the rest of the form and the
    program state alone; when no two selected users shared an id before,
    none do afterwards. *)
Theorem handleToggleUser_flips
    (user : User.t) (l : CreateGroupDialog.Ui) (s : State) :
  NoDup (map User.id (CreateGroupDialog.selectedUsers l)) ->
  exists selected,
    CreateGroupDialog.handleToggleUser user (l, s)
    = (Ok tt,
       (CreateGroupDialog.mkUi (CreateGroupDialog.groupName l)
          (CreateGroupDialog.groupDescription l)
          (CreateGroupDialog.searchQuery l) (CreateGroupDialog.users l)
          selected (CreateGroupDialog.loading l)
          (CreateGroupDialog.creating l)
          (CreateGroupDialog.showCreateGroup l), s))
    /\ is_selected (User.id user) selected
       = negb (is_selected (User.id user) (CreateGroupDialog.selectedUsers l))
    /\ (forall id, id <> User.id user ->
          is_selected id selected
          = is_selected id (CreateGroupDialog.selectedUsers l))
    /\ NoDup (map User.id selected).
Proof.
  intros Hnd.
  exists (CreateGroupDialog.toggled user (CreateGroupDialog.selectedUsers l)).
  split; [reflexivity|].
  unfold CreateGroupDialog.toggled. cbv zeta.
  fold (is_selected (User.id user) (CreateGroupDialog.selectedUsers l)).
  destruct (is_selected (User.id user) (CreateGroupDialog.selectedUsers l)) eqn:E;
    cbv iota.
  - split; [|split].
    + rewrite is_selected_remove, String.eqb_refl. reflexivity.
    + intros id Hid. rewrite is_selected_remove.
      apply String.eqb_neq in Hid. now rewrite Hid.
    + now apply NoDup_ids_filter.
  - split; [|split].
    + rewrite is_selected_app, E. unfold is_selected. simpl.
      now rewrite String.eqb_refl.
    + intros id Hid. rewrite is_selected_app. unfold is_selected at 2. simpl.
      assert (H : (User.id user =? id)%string = false)
        by (apply String.eqb_neq; congruence).
      rewrite H. now rewrite !orb_false_r.
    + now apply NoDup_ids_snoc.
Qed.

Lemma handleToggleUser_flips_witness :
  let user := bob in
  let l := ui_group in
  let s := s_chat in
  exists selected,
    CreateGroupDialog.handleToggleUser user (l, s)
    = (Ok tt,
       (CreateGroupDialog.mkUi (CreateGroupDialog.groupName l)
          (CreateGroupDialog.groupDescription l)
          (CreateGroupDialog.searchQuery l) (CreateGroupDialog.users l)
          selected (CreateGroupDialog.loading l)
          (CreateGroupDialog.creating l)
          (CreateGroupDialog.showCreateGroup l), s))
    /\ is_selected (User.id user) selected
       = negb (is_selected (User.id user) (CreateGroupDialog.selectedUsers l))
    /\ (forall id, id <> User.id user ->
          is_selected id selected
          = is_selected id (CreateGroupDialog.selectedUsers l))
    /\ NoDup (map User.id selected).
Proof.
  intros user l s.
  apply (handleToggleUser_flips user l s).
  - repeat constructor; simpl; intuition discriminate.
Defined.

(* ================================================================= *)
(** ** The group dialog: submitting the form *)

(** X24: the group dialog does not submit a form whose name is blank or
    in which nobody is selected: whatever handler it was given is not
    run, the form and the dialog stay as they are, and the only effect is
    one notification, about the name when that is blank and about the
    members otherwise. *)
Theorem dialog_handleCreateGroup_rejects
    (onCreateGroup : string -> string -> list string -> M unit)
    (l : CreateGroupDialog.Ui) (s : State) :
  Js.trim (CreateGroupDialog.groupName l) = ""
  \/ CreateGroupDialog.selectedUsers l = [] ->
  CreateGroupDialog.handleCreateGroup onCreateGroup (l, s)
  = (Ok tt,
     (l, add_toast
           (if (Js.trim (CreateGroupDialog.groupName l) =? "")%string
            then CreateGroupDialog.name_required
            else CreateGroupDialog.member_required) s)).
Proof.
  intros H. unfold CreateGroupDialog.handleCreateGroup.
  rewrite cbind_cgets. unfold Js.truthy_str.
  destruct (String.eqb_spec (Js.trim (CreateGroupDialog.groupName l)) "") as [E|E].
  - reflexivity.
  - destruct H as [H|H]; [contradiction|]. rewrite H. reflexivity.
Qed.

Lemma dialog_handleCreateGroup_rejects_witness :
  let onCreateGroup := App.handleCreateGroup in
  let l := ui_unnamed in
  let s := s_chat in
  CreateGroupDialog.handleCreateGroup onCreateGroup (l, s)
  = (Ok tt,
     (l, add_toast
           (if (Js.trim (CreateGroupDialog.groupName l) =? "")%string
            then CreateGroupDialog.name_required
            else CreateGroupDialog.member_required) s)).
Proof.
  intros onCreateGroup l s.
  apply (dialog_handleCreateGroup_rejects onCreateGroup l s).
  - left. reflexivity.
Defined.

Lemma handleCreateGroup_returns
    (name description : string) (memberIds : list string) (s : State) :
  fst (App.handleCreateGroup name description memberIds s) = Ok tt.
Proof.
  unfold App.handleCreateGroup. rewrite bind_gets.
  destruct (s_user s) as [user|]; [|reflexivity].
  unfold try_catch.
  match goal with
  | |- context [match ?m with _ => _ end] => destruct m as [[[]|] s1]
  end; reflexivity.
Qed.

Lemma dialog_handleCreateGroup_run (l : CreateGroupDialog.Ui) (s : State) :
  Js.trim (CreateGroupDialog.groupName l) <> "" ->
  CreateGroupDialog.selectedUsers l <> [] ->
  CreateGroupDialog.handleCreateGroup App.handleCreateGroup (l, s)
  = (Ok tt,
     (CreateGroupDialog.mkUi "" "" "" (CreateGroupDialog.users l) []
        (CreateGroupDialog.loading l) false false,
      snd (App.handleCreateGroup
             (Js.trim (CreateGroupDialog.groupName l))
             (Js.trim (CreateGroupDialog.groupDescription l))
             (map User.id (CreateGroupDialog.selectedUsers l)) s))).
Proof.
  intros Hn Hsel. unfold CreateGroupDialog.handleCreateGroup.
  rewrite cbind_cgets. unfold Js.truthy_str.
  apply String.eqb_neq in Hn. rewrite Hn.
  destruct (CreateGroupDialog.selectedUsers l) as [|u rest] eqn:Es;
    [contradiction|].
  cbn [negb Nat.eqb List.length].
  unfold ctry_finally, ctry_catch, CreateGroupDialog.setCreating.
  rewrite cbind_cmodify.
  pose proof (handleCreateGroup_returns
                (Js.trim (CreateGroupDialog.groupName l))
                (Js.trim (CreateGroupDialog.groupDescription l))
                (map User.id (u :: rest)) s) as R.
  destruct (App.handleCreateGroup
              (Js.trim (CreateGroupDialog.groupName l))
              (Js.trim (CreateGroupDialog.groupDescription l))
              (map User.id (u :: rest)) s) as [r s1] eqn:E.
  simpl in R. subst r.
  match goal with
  | |- context [cbind (lift ?m) ?k (?l0, ?s0)] =>
      rewrite (cbind_lift m k l0 s0 s1 tt)
  end.
  - reflexivity.
  - simpl. exact E.
Qed.

(** X25: the group dialog submits a form with a non-blank name and a
    selection to App's handler, with the name and the description
    trimmed and the ids of the selection in order; whichever store calls
    fail underneath, the submission returns normally, the form is emptied
    (name, description, selection and search), the dialog is closed and
    [creating] is off. *)
Theorem dialog_handleCreateGroup_resets (l : CreateGroupDialog.Ui) (s : State) :
  Js.trim (CreateGroupDialog.groupName l) <> "" ->
  CreateGroupDialog.selectedUsers l <> [] ->
  CreateGroupDialog.handleCreateGroup App.handleCreateGroup (l, s)
  = (Ok tt,
     (CreateGroupDialog.mkUi "" "" "" (CreateGroupDialog.users l) []
        (CreateGroupDialog.loading l) false false,
      snd (App.handleCreateGroup
             (Js.trim (CreateGroupDialog.groupName l))
             (Js.trim (CreateGroupDialog.groupDescription l))
             (map User.id (CreateGroupDialog.selectedUsers l)) s))).
Proof. exact (dialog_handleCreateGroup_run l s). Qed.

(** X26: a signed-in user submits the group dialog with a non-blank name
    and a selection, and the store answers: the store gains one group
    named by the trimmed name, with the trimmed description, and one
    batch of membership records of it, the creator's first, then one with
    role [member] for each selected user in the order of selection; the
    success notification is shown, and the form is emptied and the
    dialog closed. *)
Theorem dialog_handleCreateGroup_creates
    (user : User.t) (l : CreateGroupDialog.Ui) (s : State) :
  s_user s = Some user ->
  s_faults s = [] ->
  Js.trim (CreateGroupDialog.groupName l) <> "" ->
  CreateGroupDialog.selectedUsers l <> [] ->
  exists l' s' c creator others,
    CreateGroupDialog.handleCreateGroup App.handleCreateGroup (l, s)
    = (Ok tt, (l', s'))
    /\ Db.conversations (s_db s') = Db.conversations (s_db s) ++ [c]
    /\ Conversation.type c = group
    /\ Conversation.name c = Some (Js.trim (CreateGroupDialog.groupName l))
    /\ Conversation.description c
       = Some (Js.trim (CreateGroupDialog.groupDescription l))
    /\ Db.conversationMembers (s_db s')
       = Db.conversationMembers (s_db s) ++ creator :: others
    /\ ConversationMember.conversationId creator = Conversation.id c
    /\ ConversationMember.userId creator = User.id user
    /\ map ConversationMember.userId others
       = map User.id (CreateGroupDialog.selectedUsers l)
    /\ Forall (fun r => ConversationMember.conversationId r = Conversation.id c
                        /\ ConversationMember.role r = member) others
    /\ s_toasts s' = s_toasts s ++ [App.group_created]
    /\ CreateGroupDialog.groupName l' = ""
    /\ CreateGroupDialog.selectedUsers l' = []
    /\ CreateGroupDialog.showCreateGroup l' = false.
Proof.
  intros Hu Hs Hn Hsel.
  destruct (handleCreateGroup_ok user
              (Js.trim (CreateGroupDialog.groupName l))
              (Js.trim (CreateGroupDialog.groupDescription l))
              (map User.id (CreateGroupDialog.selectedUsers l)) s Hu Hs)
    as (s' & c & creator & others & tr & E & Hc & Hty & Hnm & Hd & _ & Hcc
        & Hci & Hcu & _ & Hids & Hothers & _ & _ & Ht & _).
  eexists _, s', c, creator, others.
  split.
  - rewrite (dialog_handleCreateGroup_run l s Hn Hsel). rewrite E. reflexivity.
  - cbn [CreateGroupDialog.groupName CreateGroupDialog.selectedUsers
         CreateGroupDialog.showCreateGroup].
    repeat (split; [assumption|]). repeat split.
Qed.

Lemma dialog_handleCreateGroup_creates_witness :
  let user := alice in
  let l := ui_group in
  let s := s_chat in
  exists l' s' c creator others,
    CreateGroupDialog.handleCreateGroup App.handleCreateGroup (l, s)
    = (Ok tt, (l', s'))
    /\ Db.conversations (s_db s') = Db.conversations (s_db s) ++ [c]
    /\ Conversation.type c = group
    /\ Conversation.name c = Some (Js.trim (CreateGroupDialog.groupName l))
    /\ Conversation.description c
       = Some (Js.trim (CreateGroupDialog.groupDescription l))
    /\ Db.conversationMembers (s_db s')
       = Db.conversationMembers (s_db s) ++ creator :: others
    /\ ConversationMember.conversationId creator = Conversation.id c
    /\ ConversationMember.userId creator = User.id user
    /\ map ConversationMember.userId others
       = map User.id (CreateGroupDialog.selectedUsers l)
    /\ Forall (fun r => ConversationMember.conversationId r = Conversation.id c
                        /\ ConversationMember.role r = member) others
    /\ s_toasts s' = s_toasts s ++ [App.group_created]
    /\ CreateGroupDialog.groupName l' = ""
    /\ CreateGroupDialog.selectedUsers l' = []
    /\ CreateGroupDialog.showCreateGroup l' = false.
Proof.
  intros user l s.
  apply (dialog_handleCreateGroup_creates user l s).
  - reflexivity.
  - reflexivity.
  - vm_compute. discriminate.
  - discriminate.
Defined.

Lemma dialog_handleCreateGroup_resets_witness :
  let l := ui_group in
  let s := with_faults [false; true] s_chat in
  CreateGroupDialog.handleCreateGroup App.handleCreateGroup (l, s)
  = (Ok tt,
     (CreateGroupDialog.mkUi "" "" "" (CreateGroupDialog.users l) []
        (CreateGroupDialog.loading l) false false,
      snd (App.handleCreateGroup
             (Js.trim (CreateGroupDialog.groupName l))
             (Js.trim (CreateGroupDialog.groupDescription l))
             (map User.id (CreateGroupDialog.selectedUsers l)) s))).
Proof.
  intros l s.
  apply (dialog_handleCreateGroup_resets l s).
  - vm_compute. discriminate.
  - discriminate.
Defined.

(* ================================================================= *)
(** ** The group dialog: the users on offer *)

Section TextOrder.
Context {A : Type} (le : A -> A -> bool).

Lemma In_insert_by_any (x y : A) (l : list A) :
  In y (insert_by le x l) <-> y = x \/ In y l.
Proof.
  induction l as [|z l IH]; simpl.
  - intuition.
  - destruct (le x z); simpl; rewrite ?IH; intuition.
Qed.

Lemma In_sort_by_any (y : A) (l : list A) :
  In y (sort_by le l) <-> In y l.
Proof.
  induction l as [|x l IH]; simpl; [tauto|].
  rewrite In_insert_by_any, IH. intuition.
Qed.
End TextOrder.

(** X27: when the store answers the one list call of [loadUsers], the
    dialog offers exactly the user records of the store whose id is not
    the current user's, in whatever order the backend sorts texts; the
    store is only read, nothing is notified, [loading] is off, and the
    selection and the rest of the form are untouched. *)
Theorem loadUsers_offers_others
    (text_le : string -> string -> bool) (currentUserId : string)
    (l : CreateGroupDialog.Ui) (s : State) :
  hd false (s_faults s) = false ->
  exists offered,
    CreateGroupDialog.loadUsers text_le currentUserId (l, s)
    = (Ok tt,
       (CreateGroupDialog.mkUi (CreateGroupDialog.groupName l)
          (CreateGroupDialog.groupDescription l)
          (CreateGroupDialog.searchQuery l) offered
          (CreateGroupDialog.selectedUsers l) false
          (CreateGroupDialog.creating l)
          (CreateGroupDialog.showCreateGroup l),
        with_faults (tl (s_faults s)) (add_trace [CallList Users] s)))
    /\ forall u, In u offered
                 <-> In u (Db.users (s_db s)) /\ User.id u <> currentUserId.
Proof.
  intros Hf.
  exists (filter (fun user => negb (User.id user =? currentUserId)%string)
            (sort_by (fun x y => text_le (User.displayName x)
                                   (User.displayName y))
               (Db.users (s_db s)))).
  split.
  - unfold CreateGroupDialog.loadUsers, ctry_finally, ctry_catch,
      CreateGroupDialog.setLoading.
    rewrite cbind_cmodify.
    match goal with
    | |- context [cbind (lift ?m) ?k (?l0, ?s0)] =>
        rewrite (cbind_lift m k l0 s0
                   (with_faults (tl (s_faults s)) (add_trace [CallList Users] s))
                   (sort_by (fun x y => text_le (User.displayName x)
                                          (User.displayName y))
                      (Db.users (s_db s))))
    end.
    + reflexivity.
    + unfold list_by_text, bind, store_call, gets. rewrite Hf. reflexivity.
  - intros u. rewrite filter_In, In_sort_by_any.
    split; intros [H1 H2]; split; try assumption.
    + apply negb_true_iff in H2. now apply String.eqb_neq.
    + apply negb_true_iff. now apply String.eqb_neq.
Qed.

Lemma loadUsers_offers_others_witness :
  let text_le := String.leb in
  let currentUserId := "A" in
  let l := ui_group in
  let s := s_chat in
  exists offered,
    CreateGroupDialog.loadUsers text_le currentUserId (l, s)
    = (Ok tt,
       (CreateGroupDialog.mkUi (CreateGroupDialog.groupName l)
          (CreateGroupDialog.groupDescription l)
          (CreateGroupDialog.searchQuery l) offered
          (CreateGroupDialog.selectedUsers l) false
          (CreateGroupDialog.creating l)
          (CreateGroupDialog.showCreateGroup l),
        with_faults (tl (s_faults s)) (add_trace [CallList Users] s)))
    /\ forall u, In u offered
                 <-> In u (Db.users (s_db s)) /\ User.id u <> currentUserId.
Proof.
  intros text_le currentUserId l s.
  apply (loadUsers_offers_others text_le currentUserId l s).
  - reflexivity.
Defined.

(** X28: when the list call of [loadUsers] fails, the users on offer stay
    as they were, the failure notification is shown, and [loading] is
    off; nothing else changes. *)
Theorem loadUsers_list_fails
    (text_le : string -> string -> bool) (currentUserId : string)
    (l : CreateGroupDialog.Ui) (s : State) :
  hd false (s_faults s) = true ->
  CreateGroupDialog.loadUsers text_le currentUserId (l, s)
  = (Ok tt,
     (CreateGroupDialog.mkUi (CreateGroupDialog.groupName l)
        (CreateGroupDialog.groupDescription l)
        (CreateGroupDialog.searchQuery l) (CreateGroupDialog.users l)
        (CreateGroupDialog.selectedUsers l) false
        (CreateGroupDialog.creating l)
        (CreateGroupDialog.showCreateGroup l),
      add_toast CreateGroupDialog.load_users_failed
        (with_faults (tl (s_faults s)) (add_trace [CallList Users] s)))).
Proof.
  intros Hf.
  unfold CreateGroupDialog.loadUsers, ctry_finally, ctry_catch,
    CreateGroupDialog.setLoading.
  rewrite cbind_cmodify.
  match goal with
  | |- context [cbind (lift ?m) ?k (?l0, ?s0)] =>
      rewrite (cbind_lift_throw m k l0 s0
                 (with_faults (tl (s_faults s)) (add_trace [CallList Users] s)))
  end.
  - reflexivity.
  - unfold list_by_text, bind, store_call. rewrite Hf. reflexivity.
Qed.

Lemma loadUsers_list_fails_witness :
  let text_le := String.leb in
  let currentUserId := "A" in
  let l := ui_group in
  let s := with_faults [true] s_chat in
  CreateGroupDialog.loadUsers text_le currentUserId (l, s)
  = (Ok tt,
     (CreateGroupDialog.mkUi (CreateGroupDialog.groupName l)
        (CreateGroupDialog.groupDescription l)
        (CreateGroupDialog.searchQuery l) (CreateGroupDialog.users l)
        (CreateGroupDialog.selectedUsers l) false
        (CreateGroupDialog.creating l)
        (CreateGroupDialog.showCreateGroup l),
      add_toast CreateGroupDialog.load_users_failed
        (with_faults (tl (s_faults s)) (add_trace [CallList Users] s)))).
Proof.
  intros text_le currentUserId l s.
  apply (loadUsers_list_fails text_le currentUserId l s).
  - reflexivity.
Defined.

(* ================================================================= *)
(** ** Attachments *)


(** The progress reports of an upload only set [uploadProgress]. *)
Lemma cforEach_progress (ps : list Z) :
  forall (l : Attachments.Ui) (s : State),
  exists p,
    cforEach (fun percent => Attachments.setUploadProgress (Some percent)) ps (l, s)
    = (Ok tt, (Attachments.mkUi p (Attachments.dragOver l), s)).
Proof.
  induction ps as [|q ps IH]; intros l s.
  - exists (Attachments.uploadProgress l). destruct l. reflexivity.
  - simpl cforEach. unfold Attachments.setUploadProgress at 1.
    rewrite cbind_cmodify.
    destruct (IH (Attachments.mkUi (Some q) (Attachments.dragOver l)) s)
      as (p & E).
    exists p. exact E.
Qed.


Lemma storage_upload_refused (storage : File.t -> string -> Attachments.Outcome)
    (upload : File.t) (path : string) (l : Attachments.Ui) (s : State) :
  Attachments.publicUrl (storage upload path) = None ->
  exists p,
    Attachments.storage_upload storage upload path
      (fun percent => Attachments.setUploadProgress (Some percent)) (l, s)
    = (Throw, (Attachments.mkUi p (Attachments.dragOver l), s)).
Proof.
  intros H. unfold Attachments.storage_upload.
  destruct (cforEach_progress (Attachments.percents (storage upload path)) l s)
    as (p & E).
  exists p. rewrite (cbind_ok _ _ _ _ _ E), H. reflexivity.
Qed.

(** X29: when the blob storage does not take the file, whatever progress
    it reported before, [handleFileUpload] makes no store call: the store,
    the thread shown and the typed text are as before, the failure
    notification is shown, and the progress display is cleared. *)
Theorem handleFileUpload_refused
    (storage : File.t -> string -> Attachments.Outcome)
    (user : User.t) (conversation : ConversationView) (onRefresh : M unit)
    (upload : File.t) (l : Attachments.Ui) (s : State) :
  Attachments.publicUrl
    (storage upload (Attachments.upload_path conversation (next_now s) upload))
  = None ->
  Attachments.handleFileUpload storage user conversation onRefresh upload (l, s)
  = (Ok tt,
     (Attachments.mkUi None (Attachments.dragOver l),
      add_toast Attachments.upload_failed
        (with_clock (next_now s) (tl (s_ticks s)) s))).
Proof.
  intros H.
  unfold Attachments.handleFileUpload, ctry_finally, ctry_catch.
  unfold Attachments.setUploadProgress at 1. rewrite cbind_cmodify.
  rewrite (cbind_lift Date_now _ _ s _ _ eq_refl).
  match goal with
  | |- context [cbind (Attachments.storage_upload ?st ?u ?p ?f) ?k (?l0, ?s0)] =>
      destruct (storage_upload_refused st u p l0 s0 H) as (q & E);
      rewrite (cbind_throw _ k _ _ E)
  end.
  reflexivity.
Qed.

Lemma handleFileUpload_refused_witness :
  let storage := storage_down in
  let user := alice in
  let conversation := App.view_of conv_1 in
  let onRefresh := App_onRefresh alice in
  let upload := cat_png in
  let l := Attachments.mkUi None true in
  let s := s_chat in
  Attachments.handleFileUpload storage user conversation onRefresh upload (l, s)
  = (Ok tt,
     (Attachments.mkUi None (Attachments.dragOver l),
      add_toast Attachments.upload_failed
        (with_clock (next_now s) (tl (s_ticks s)) s))).
Proof.
  intros storage user conversation onRefresh upload l s.
  apply (handleFileUpload_refused
           storage user conversation onRefresh upload l s).
  - reflexivity.
Defined.



